(** * SFO Connectivity Helper: rendezvous store, relay, bridge, limiter, signer

    A shallow embedding of the Go sources of the signalling server
    (package [session], package [auth], package [ratelimit], the HTTP
    handlers), of the relay (package [relay]) and of the client bridge
    (package [bridge]), followed by the properties proved about them.

    Conventions.
    - A Go [string] and a Go [[]byte] are both a [string] here: a finite
      sequence of 8-bit [ascii] values.
    - [time.Time] is an integer number of nanoseconds ([Z]); [t.After u]
      is [u < t] and [t.Before u] is [t < u].
    - Go maps are stdpp [gmap]s.  A map of pointers ([map[string]*Session])
      is a map of records: a write through the pointer is an [insert] at
      the key under which the pointer is stored.
    - [crypto/rand.Read] is fed from an explicit entropy string: reading
      [n] bytes takes the first [n] bytes, and fails when fewer are left. *)

From Stdlib Require Import ZArith NArith String Ascii List Lia.
From Stdlib Require Import Decimal DecimalString DecimalN DecimalZ.
From Stdlib Require Import QArith Qminmax Lqa.
From stdpp Require Import gmap strings list.

Open Scope string_scope.
Open Scope Z_scope.

(** stdpp blocks the unfolding of string concatenation; the byte strings
    below are computed with. *)
Arguments String.append !s1 s2 : simpl nomatch.

(** ** Results of fallible calls *)

Inductive error : Type :=
| ErrRand                         (* crypto/rand.Read failed *)
| ErrWrap (context : string) (cause : error)   (* fmt.Errorf("...: %w", err) *)
| ErrMsg (msg : string).          (* fmt.Errorf("...") *)

Inductive result (A : Type) : Type :=
| Ok (a : A)
| Err (e : error).
Arguments Ok {A} a.
Arguments Err {A} e.

Definition is_ok {A} (r : result A) : bool :=
  match r with Ok _ => true | Err _ => false end.

(** ** Go standard library: bytes and strings *)

Module GoBytes.

Definition byte_val (c : ascii) : N := N_of_ascii c.
Definition byte_of (n : N) : ascii := ascii_of_N n.

(** [s[i:j]] for [i <= j <= len(s)]. *)
Definition slice (i j : nat) (s : string) : string := substring i (j - i) s.

Fixpoint take (n : nat) (s : string) : string :=
  match n, s with
  | S n', String c s' => String c (take n' s')
  | _, _ => ""
  end.

Fixpoint drop (n : nat) (s : string) : string :=
  match n, s with
  | S n', String _ s' => drop n' s'
  | _, _ => s
  end.

Fixpoint all_bytes (p : ascii -> bool) (s : string) : bool :=
  match s with
  | "" => true
  | String c s' => p c && all_bytes p s'
  end.

Fixpoint map_bytes (f : ascii -> ascii) (s : string) : string :=
  match s with
  | "" => ""
  | String c s' => String (f c) (map_bytes f s')
  end.

Fixpoint filter_bytes (p : ascii -> bool) (s : string) : string :=
  match s with
  | "" => ""
  | String c s' => if p c then String c (filter_bytes p s') else filter_bytes p s'
  end.

Definition in_range (lo hi : N) (c : ascii) : bool :=
  (lo <=? byte_val c)%N && (byte_val c <=? hi)%N.

End GoBytes.
Import GoBytes.

(** *** crypto/rand *)

(** [rand.Read(b)] with [len(b) = n]: the next [n] bytes of the entropy
    source, and what is left of it; an error when the source is short. *)
Definition rand_Read (n : nat) (entropy : string) : result (string * string) :=
  if (n <=? String.length entropy)%nat
  then Ok (take n entropy, drop n entropy)
  else Err ErrRand.

(** *** fmt.Sprintf("%x", b) *)

Definition hex_digit (v : N) : ascii :=
  match String.get (N.to_nat v) "0123456789abcdef" with
  | Some c => c
  | None => "?"%char
  end.

Fixpoint hex_encode (b : string) : string :=
  match b with
  | "" => ""
  | String c b' =>
      String (hex_digit (N.shiftr (byte_val c) 4))
        (String (hex_digit (N.land (byte_val c) 15)) (hex_encode b'))
  end.

(** *** strings.ToUpper, strings.ReplaceAll *)

Definition ascii_upper (c : ascii) : ascii :=
  if in_range 97 122 c then byte_of (byte_val c - 32) else c.

Definition isASCII (s : string) : bool :=
  all_bytes (fun c => (byte_val c <? 128)%N) s.

(** [strings.ToUpper]: Go upper-cases an all-ASCII string byte by byte and
    sends any other string through [strings.Map(unicode.ToUpper, s)].  The
    Unicode case table is not part of this development; the second path is
    the parameter [unicode_upper]. *)
Definition ToUpper (unicode_upper : string -> string) (s : string) : string :=
  if isASCII s then map_bytes ascii_upper s else unicode_upper s.

(** [strings.ReplaceAll(s, "-", "")]. *)
Definition remove_dashes (s : string) : string :=
  filter_bytes (fun c => negb (Ascii.eqb c "-")) s.

(** *** encoding/base32, StdEncoding without padding *)

Module Base32.

Definition encodeStd : string := "ABCDEFGHIJKLMNOPQRSTUVWXYZ234567".

Definition char_of (v : N) : ascii :=
  match String.get (N.to_nat v) encodeStd with
  | Some c => c
  | None => "="%char
  end.

(** A group of five source bytes as one 40-bit number, big endian. *)
Definition group (b0 b1 b2 b3 b4 : ascii) : N :=
  N.lor (N.shiftl (byte_val b0) 32)
    (N.lor (N.shiftl (byte_val b1) 24)
       (N.lor (N.shiftl (byte_val b2) 16)
          (N.lor (N.shiftl (byte_val b3) 8) (byte_val b4)))).

(** The [i]-th of the eight 5-bit digits of a group. *)
Definition digit (g : N) (i : N) : ascii :=
  char_of (N.land (N.shiftr g (35 - 5 * i)) 31).

Definition digits (g : N) : string :=
  String (digit g 0) (String (digit g 1) (String (digit g 2) (String (digit g 3)
    (String (digit g 4) (String (digit g 5) (String (digit g 6) (String (digit g 7) ""))))))).

Definition zero : ascii := byte_of 0.

(** [EncodeToString]: full groups give eight characters; a final group
    of 1, 2, 3 or 4 bytes gives 2, 4, 5 or 7 characters (no padding). *)
Fixpoint EncodeToString (src : string) : string :=
  match src with
  | "" => ""
  | String b0 "" => take 2 (digits (group b0 zero zero zero zero))
  | String b0 (String b1 "") => take 4 (digits (group b0 b1 zero zero zero))
  | String b0 (String b1 (String b2 "")) => take 5 (digits (group b0 b1 b2 zero zero))
  | String b0 (String b1 (String b2 (String b3 ""))) =>
      take 7 (digits (group b0 b1 b2 b3 zero))
  | String b0 (String b1 (String b2 (String b3 (String b4 rest)))) =>
      digits (group b0 b1 b2 b3 b4) ++ EncodeToString rest
  end.

End Base32.


(** *** crypto/sha256 and crypto/hmac *)

Module SHA256.

Definition mask32 : N := 4294967295.
Definition w32 (x : N) : N := N.land x mask32.
Definition add32 (x y : N) : N := w32 (x + y).
Definition rotr (n x : N) : N := N.lor (N.shiftr x n) (w32 (N.shiftl x (32 - n))).
Definition not32 (x : N) : N := N.lxor x mask32.

Definition Ch (x y z : N) : N := N.lxor (N.land x y) (N.land (not32 x) z).
Definition Maj (x y z : N) : N :=
  N.lxor (N.land x y) (N.lxor (N.land x z) (N.land y z)).
Definition bsig0 (x : N) : N := N.lxor (rotr 2 x) (N.lxor (rotr 13 x) (rotr 22 x)).
Definition bsig1 (x : N) : N := N.lxor (rotr 6 x) (N.lxor (rotr 11 x) (rotr 25 x)).
Definition ssig0 (x : N) : N := N.lxor (rotr 7 x) (N.lxor (rotr 18 x) (N.shiftr x 3)).
Definition ssig1 (x : N) : N := N.lxor (rotr 17 x) (N.lxor (rotr 19 x) (N.shiftr x 10)).

(** The round constants and the initial state are not free choices: the
    former are the first 32 bits of the fractional parts of the cube
    roots of the first 64 primes, the latter those of the square roots of
    the first 8.  They are computed here from that description. *)
Definition is_prime (n : nat) : bool :=
  forallb (fun d => negb (Nat.eqb (Nat.modulo n d) 0)) (seq 2 (n - 2)).

Definition primes : list N := List.map N.of_nat (List.filter is_prime (seq 2 310)).

(** The integer cube root of [n], found bit by bit below bit [b]. *)
Fixpoint cube_root_from (b : nat) (n r : N) : N :=
  match b with
  | O => r
  | S b' =>
      let r' := N.lor r (N.shiftl 1 (N.of_nat b')) in
      cube_root_from b' n (if (r' * r' * r' <=? n)%N then r' else r)
  end.

Definition cube_root (n : N) : N := cube_root_from 40 n 0.

Definition K : list N :=
  Eval vm_compute in List.map (fun p => w32 (cube_root (p * 2 ^ 96)))%N primes.

Definition H0 : list N :=
  Eval vm_compute in List.map (fun p => w32 (N.sqrt (p * 2 ^ 64)))%N (firstn 8 primes).

(** Big-endian bytes of a number, [n] of them. *)
Fixpoint be_bytes (n : nat) (x : N) : string :=
  match n with
  | O => ""
  | S n' => String (byte_of (N.land (N.shiftr x (8 * N.of_nat n')) 255)) (be_bytes n' x)
  end.

(** The message followed by 0x80, zero bytes up to 56 modulo 64, and the
    bit length on eight bytes. *)
Definition pad (msg : string) : string :=
  let len := String.length msg in
  let zeros := ((119 - len mod 64) mod 64)%nat in
  msg ++ String (byte_of 128) (be_bytes zeros 0) ++ be_bytes 8 (8 * N.of_nat len).

(** The big-endian 32-bit words of a byte string (whole words only). *)
Fixpoint words (s : string) : list N :=
  match s with
  | String b0 (String b1 (String b2 (String b3 rest))) =>
      N.lor (N.shiftl (byte_val b0) 24)
        (N.lor (N.shiftl (byte_val b1) 16)
           (N.lor (N.shiftl (byte_val b2) 8) (byte_val b3))) :: words rest
  | _ => []
  end.

(** Message schedule: [rev_w] holds w(t-1), w(t-2), ... and is extended
    [n] times. *)
Fixpoint schedule (n : nat) (rev_w : list N) : list N :=
  match n with
  | O => rev_w
  | S n' =>
      let w :=
        add32 (add32 (ssig1 (nth 1 rev_w 0%N)) (nth 6 rev_w 0%N))
              (add32 (ssig0 (nth 14 rev_w 0%N)) (nth 15 rev_w 0%N)) in
      schedule n' (w :: rev_w)
  end.

Definition round (st : list N) (kw : N * N) : list N :=
  match st with
  | [a; b; c; d; e; f; g; h] =>
      let t1 := add32 (add32 (add32 h (bsig1 e)) (add32 (Ch e f g) (fst kw))) (snd kw) in
      let t2 := add32 (bsig0 a) (Maj a b c) in
      [add32 t1 t2; a; b; c; add32 d t1; e; f; g]
  | _ => st
  end.

Fixpoint zip (k w : list N) : list (N * N) :=
  match k, w with
  | x :: k', y :: w' => (x, y) :: zip k' w'
  | _, _ => []
  end.

Fixpoint add_state (h st : list N) : list N :=
  match h, st with
  | x :: h', y :: st' => add32 x y :: add_state h' st'
  | _, _ => []
  end.

Definition block (h : list N) (w16 : list N) : list N :=
  let w := rev (schedule 48 (rev w16)) in
  add_state h (fold_left round (zip K w) h).

(** The 16-word blocks of the padded message, in turn. *)
Fixpoint blocks (fuel : nat) (h : list N) (ws : list N) : list N :=
  match fuel, ws with
  | S fuel', _ :: _ => blocks fuel' (block h (firstn 16 ws)) (skipn 16 ws)
  | _, _ => h
  end.

Fixpoint concat_be32 (h : list N) : string :=
  match h with
  | [] => ""
  | x :: h' => be_bytes 4 x ++ concat_be32 h'
  end.

(** [sha256.Sum256]. *)
Definition Sum256 (msg : string) : string :=
  let ws := words (pad msg) in
  concat_be32 (blocks (List.length ws) H0 ws).

End SHA256.

Module HMAC.

Definition xor_byte (k : N) (c : ascii) : ascii := byte_of (N.lxor (byte_val c) k).

(** The key brought to the block size of 64 bytes. *)
Definition block_key (key : string) : string :=
  let k := if (64 <? String.length key)%nat then SHA256.Sum256 key else key in
  k ++ SHA256.be_bytes (64 - String.length k) 0.

(** [hmac.New(sha256.New, key)], [Write(msg)], [Sum(nil)]. *)
Definition Sum (key msg : string) : string :=
  let k := block_key key in
  SHA256.Sum256 (map_bytes (xor_byte 92) k ++
                 SHA256.Sum256 (map_bytes (xor_byte 54) k ++ msg)).

(** [hmac.Equal]: equality of the two byte strings (in constant time). *)
Definition Equal (mac1 mac2 : string) : bool := String.eqb mac1 mac2.

End HMAC.


(** *** encoding/base64, RawURLEncoding *)

Module Base64.

Definition encodeURL : string :=
  "ABCDEFGHIJKLMNOPQRSTUVWXYZabcdefghijklmnopqrstuvwxyz0123456789-_".

Definition char_of (v : N) : ascii :=
  match String.get (N.to_nat v) encodeURL with
  | Some c => c
  | None => "="%char
  end.

(** The decode map of the encoding: the 6-bit value of a character of
    the alphabet. *)
Definition value_of (c : ascii) : option N :=
  if in_range 65 90 c then Some (byte_val c - 65)%N
  else if in_range 97 122 c then Some (byte_val c - 71)%N
  else if in_range 48 57 c then Some (byte_val c + 4)%N
  else if Ascii.eqb c "-" then Some 62%N
  else if Ascii.eqb c "_" then Some 63%N
  else None.

Definition sextet (val : N) (shift : N) : ascii :=
  char_of (N.land (N.shiftr val shift) 63).

Definition octet (val : N) (shift : N) : ascii :=
  byte_of (N.land (N.shiftr val shift) 255).

Definition val3 (b0 b1 b2 : N) : N :=
  N.lor (N.shiftl b0 16) (N.lor (N.shiftl b1 8) b2).

Definition val4 (v0 v1 v2 v3 : N) : N :=
  N.lor (N.shiftl v0 18) (N.lor (N.shiftl v1 12) (N.lor (N.shiftl v2 6) v3)).

(** [EncodeToString]: three bytes give four characters; a final group of
    one or two bytes gives two or three characters (no padding). *)
Fixpoint EncodeToString (src : string) : string :=
  match src with
  | "" => ""
  | String b0 "" =>
      let val := val3 (byte_val b0) 0 0 in
      String (sextet val 18) (String (sextet val 12) "")
  | String b0 (String b1 "") =>
      let val := val3 (byte_val b0) (byte_val b1) 0 in
      String (sextet val 18) (String (sextet val 12) (String (sextet val 6) ""))
  | String b0 (String b1 (String b2 rest)) =>
      let val := val3 (byte_val b0) (byte_val b1) (byte_val b2) in
      String (sextet val 18) (String (sextet val 12)
        (String (sextet val 6) (String (sextet val 0) (EncodeToString rest))))
  end.

(** Decoding of a string free of line breaks, four characters at a
    time.  A final group of two or three characters gives one or two
    bytes, and its unused low bits are not looked at (the encoding is
    not [Strict]); a final group of one character is corrupt. *)
Fixpoint decode_quanta (src : string) : option string :=
  match src with
  | "" => Some ""
  | String c0 "" => None
  | String c0 (String c1 "") =>
      match value_of c0, value_of c1 with
      | Some v0, Some v1 =>
          let val := val4 v0 v1 0 0 in
          Some (String (octet val 16) "")
      | _, _ => None
      end
  | String c0 (String c1 (String c2 "")) =>
      match value_of c0, value_of c1, value_of c2 with
      | Some v0, Some v1, Some v2 =>
          let val := val4 v0 v1 v2 0 in
          Some (String (octet val 16) (String (octet val 8) ""))
      | _, _, _ => None
      end
  | String c0 (String c1 (String c2 (String c3 rest))) =>
      match value_of c0, value_of c1, value_of c2, value_of c3 with
      | Some v0, Some v1, Some v2, Some v3 =>
          let val := val4 v0 v1 v2 v3 in
          match decode_quanta rest with
          | Some out =>
              Some (String (octet val 16) (String (octet val 8) (String (octet val 0) out)))
          | None => None
          end
      | _, _, _, _ => None
      end
  end.

Definition is_newline (c : ascii) : bool :=
  Ascii.eqb c (byte_of 10) || Ascii.eqb c (byte_of 13).

(** [DecodeString]: carriage returns and line feeds are skipped, any
    other character outside the alphabet is corrupt input. *)
Definition DecodeString (s : string) : option string :=
  decode_quanta (filter_bytes (fun c => negb (is_newline c)) s).

End Base64.


(** *** unicode/utf8, unicode/utf16 *)

Module UTF8.
Open Scope N_scope.

Definition RuneError : N := 0xFFFD.
Definition MaxRune : N := 0x10FFFF.

Definition low6 (c : ascii) : N := N.land (byte_val c) 63.

(** [utf8.DecodeRune]: the first rune of [s] and its width in bytes;
    [(RuneError, 1)] for an invalid or truncated encoding and
    [(RuneError, 0)] for the empty string. *)
Definition DecodeRune (s : string) : N * nat :=
  match s with
  | "" => (RuneError, 0%nat)
  | String b0 s1 =>
      let x := byte_val b0 in
      if x <? 128 then (x, 1%nat)
      else if in_range 0xC2 0xDF b0 then
        match s1 with
        | String b1 _ =>
            if in_range 0x80 0xBF b1
            then (N.lor (N.shiftl (N.land x 31) 6) (low6 b1), 2%nat)
            else (RuneError, 1%nat)
        | _ => (RuneError, 1%nat)
        end
      else if in_range 0xE0 0xEF b0 then
        let lo := if x =? 0xE0 then 0xA0 else 0x80 in
        let hi := if x =? 0xED then 0x9F else 0xBF in
        match s1 with
        | String b1 (String b2 _) =>
            if in_range lo hi b1 && in_range 0x80 0xBF b2
            then (N.lor (N.shiftl (N.land x 15) 12)
                    (N.lor (N.shiftl (low6 b1) 6) (low6 b2)), 3%nat)
            else (RuneError, 1%nat)
        | _ => (RuneError, 1%nat)
        end
      else if in_range 0xF0 0xF4 b0 then
        let lo := if x =? 0xF0 then 0x90 else 0x80 in
        let hi := if x =? 0xF4 then 0x8F else 0xBF in
        match s1 with
        | String b1 (String b2 (String b3 _)) =>
            if in_range lo hi b1 && in_range 0x80 0xBF b2 && in_range 0x80 0xBF b3
            then (N.lor (N.shiftl (N.land x 7) 18)
                    (N.lor (N.shiftl (low6 b1) 12)
                       (N.lor (N.shiftl (low6 b2) 6) (low6 b3))), 4%nat)
            else (RuneError, 1%nat)
        | _ => (RuneError, 1%nat)
        end
      else (RuneError, 1%nat)
  end.

Definition cont_byte (r shift : N) : ascii :=
  byte_of (N.lor 0x80 (N.land (N.shiftr r shift) 63)).

Definition IsSurrogate (r : N) : bool := (0xD800 <=? r) && (r <? 0xE000).

Definition encode3 (r : N) : string :=
  String (byte_of (N.lor 0xE0 (N.shiftr r 12)))
    (String (cont_byte r 6) (String (cont_byte r 0) "")).

(** [utf8.EncodeRune]: surrogates and values beyond [MaxRune] are
    written as [RuneError]. *)
Definition EncodeRune (r : N) : string :=
  if r <=? 0x7F then String (byte_of r) ""
  else if r <=? 0x7FF then
    String (byte_of (N.lor 0xC0 (N.shiftr r 6))) (String (cont_byte r 0) "")
  else if (MaxRune <? r) || IsSurrogate r then encode3 RuneError
  else if r <=? 0xFFFF then encode3 r
  else
    String (byte_of (N.lor 0xF0 (N.shiftr r 18)))
      (String (cont_byte r 12) (String (cont_byte r 6) (String (cont_byte r 0) ""))).

(** [utf8.ValidString]. *)
Fixpoint ValidString (s : string) : bool :=
  match s with
  | "" => true
  | String b0 s1 =>
      match DecodeRune s with
      | (_, 2%nat) => match s1 with String _ s2 => ValidString s2 | _ => false end
      | (_, 3%nat) =>
          match s1 with String _ (String _ s3) => ValidString s3 | _ => false end
      | (_, 4%nat) =>
          match s1 with
          | String _ (String _ (String _ s4)) => ValidString s4
          | _ => false
          end
      | (_, _) => (byte_val b0 <? 128) && ValidString s1
      end
  end.

(** [utf16.DecodeRune]: the code point of a surrogate pair, [RuneError]
    when the two halves are not a pair. *)
Definition DecodeSurrogates (r1 r2 : N) : N :=
  if (0xD800 <=? r1) && (r1 <? 0xDC00) && (0xDC00 <=? r2) && (r2 <? 0xE000)
  then N.lor (N.shiftl (r1 - 0xD800) 10) (r2 - 0xDC00) + 0x10000
  else RuneError.

End UTF8.

(** *** encoding/json: the string and number syntax *)

Module JSON.
Import UTF8.
Open Scope N_scope.

Definition dquote : ascii := Ascii false true false false false true false false.
Definition backslash : ascii := Ascii false false true true true false true false.

Definition is_char (n : N) (c : ascii) : bool := byte_val c =? n.

(** [htmlSafeSet]: the ASCII bytes that are written as they are. *)
Definition htmlSafe (c : ascii) : bool :=
  in_range 0x20 0x7F c &&
  negb (is_char 0x22 c || is_char 0x5C c || is_char 0x3C c || is_char 0x3E c
        || is_char 0x26 c).

Definition u00 (c : ascii) : string :=
  String backslash
    (String "u" (String "0" (String "0"
       (String (hex_digit (N.shiftr (byte_val c) 4))
          (String (hex_digit (N.land (byte_val c) 15)) ""))))).

(** The encoding of one byte below [utf8.RuneSelf]. *)
Definition escape_ascii (c : ascii) : string :=
  if htmlSafe c then String c ""
  else if is_char 0x5C c || is_char 0x22 c then String backslash (String c "")
  else if is_char 8 c then String backslash "b"
  else if is_char 12 c then String backslash "f"
  else if is_char 10 c then String backslash "n"
  else if is_char 13 c then String backslash "r"
  else if is_char 9 c then String backslash "t"
  else u00 c.

(** The loop of [appendString] with [escapeHTML] set: what goes between
    the quotes.  Invalid UTF-8 is replaced by an escaped U+FFFD, and
    U+2028 and U+2029 are escaped. *)
Fixpoint encode_body (s : string) : string :=
  match s with
  | "" => ""
  | String b0 s1 =>
      if byte_val b0 <? 128 then escape_ascii b0 ++ encode_body s1
      else
        match DecodeRune s with
        | (_, 2%nat) =>
            match s1 with
            | String b1 s2 => String b0 (String b1 (encode_body s2))
            | _ => ""
            end
        | (c, 3%nat) =>
            match s1 with
            | String b1 (String b2 s3) =>
                if (c =? 0x2028) || (c =? 0x2029)
                then String backslash
                       (String "u" (String "2" (String "0" (String "2"
                          (String (hex_digit (N.land c 15)) (encode_body s3))))))
                else String b0 (String b1 (String b2 (encode_body s3)))
            | _ => ""
            end
        | (_, 4%nat) =>
            match s1 with
            | String b1 (String b2 (String b3 s4)) =>
                String b0 (String b1 (String b2 (String b3 (encode_body s4))))
            | _ => ""
            end
        | (_, _) =>
            String backslash (String "u" (String "f" (String "f" (String "f"
              (String "d" (encode_body s1))))))
        end
  end.

(** [appendString]: a Go string as a JSON string literal. *)
Definition encodeString (s : string) : string :=
  String dquote (encode_body s ++ String dquote "").

Definition hex_value (c : ascii) : option N :=
  if in_range 48 57 c then Some (byte_val c - 48)
  else if in_range 97 102 c then Some (byte_val c - 87)
  else if in_range 65 70 c then Some (byte_val c - 55)
  else None.

(** [getu4] on the four characters after a backslash and a u. *)
Definition getu4 (h1 h2 h3 h4 : ascii) : option N :=
  match hex_value h1, hex_value h2, hex_value h3, hex_value h4 with
  | Some v1, Some v2, Some v3, Some v4 => Some (((v1 * 16 + v2) * 16 + v3) * 16 + v4)
  | _, _, _, _ => None
  end.

(** The character a one-letter escape stands for. *)
Definition simple_escape (e : ascii) : option ascii :=
  if is_char 0x22 e || is_char 0x5C e || is_char 0x2F e then Some e
  else if is_char 0x62 e then Some (byte_of 8)
  else if is_char 0x66 e then Some (byte_of 12)
  else if is_char 0x6E e then Some (byte_of 10)
  else if is_char 0x72 e then Some (byte_of 13)
  else if is_char 0x74 e then Some (byte_of 9)
  else None.

Definition emit (out : string) (r : option (string * string)) : option (string * string) :=
  match r with
  | Some (s, rest) => Some (out ++ s, rest)
  | None => None
  end.

(** A string literal after its opening quote: the decoded string and
    what follows the closing quote.  The scanner refuses control
    characters and unknown escapes; [unquote] decodes escapes, joins
    surrogate pairs, and replaces lone surrogates and invalid UTF-8 by
    U+FFFD. *)
Fixpoint unquote_body (s : string) : option (string * string) :=
  match s with
  | "" => None
  | String c s1 =>
      if is_char 0x22 c then Some ("", s1)
      else if is_char 0x5C c then
        match s1 with
        | "" => None
        | String e s2 =>
            match simple_escape e with
            | Some d => emit (String d "") (unquote_body s2)
            | None =>
                if is_char 0x75 e then
                  match s2 with
                  | String h1 (String h2 (String h3 (String h4 s3))) =>
                      match getu4 h1 h2 h3 h4 with
                      | None => None
                      | Some rr =>
                          if IsSurrogate rr then
                            match s3 with
                            | String e1 (String e2
                                (String k1 (String k2 (String k3 (String k4 s4))))) =>
                                match (if is_char 0x5C e1 && is_char 0x75 e2
                                       then getu4 k1 k2 k3 k4 else None) with
                                | Some rr1 =>
                                    if DecodeSurrogates rr rr1 =? RuneError
                                    then emit (EncodeRune RuneError) (unquote_body s3)
                                    else emit (EncodeRune (DecodeSurrogates rr rr1))
                                           (unquote_body s4)
                                | None => emit (EncodeRune RuneError) (unquote_body s3)
                                end
                            | _ => emit (EncodeRune RuneError) (unquote_body s3)
                            end
                          else emit (EncodeRune rr) (unquote_body s3)
                      end
                  | _ => None
                  end
                else None
            end
        end
      else if byte_val c <? 32 then None
      else if byte_val c <? 128 then emit (String c "") (unquote_body s1)
      else
        match DecodeRune s with
        | (rr, 2%nat) =>
            match s1 with
            | String _ s2 => emit (EncodeRune rr) (unquote_body s2)
            | _ => None
            end
        | (rr, 3%nat) =>
            match s1 with
            | String _ (String _ s3) => emit (EncodeRune rr) (unquote_body s3)
            | _ => None
            end
        | (rr, 4%nat) =>
            match s1 with
            | String _ (String _ (String _ s4)) => emit (EncodeRune rr) (unquote_body s4)
            | _ => None
            end
        | (rr, _) => emit (EncodeRune rr) (unquote_body s1)
        end
  end.

Definition is_space (c : ascii) : bool :=
  is_char 0x20 c || is_char 9 c || is_char 13 c || is_char 10 c.

Fixpoint skip_ws (s : string) : string :=
  match s with
  | String c s' => if is_space c then skip_ws s' else s
  | "" => ""
  end.

Definition is_digit (c : ascii) : bool := in_range 48 57 c.

(** The longest prefix of digits, and the rest. *)
Fixpoint span_digits (s : string) : string * string :=
  match s with
  | String c s' =>
      if is_digit c then let '(ds, rest) := span_digits s' in (String c ds, rest)
      else ("", s)
  | "" => ("", "")
  end.

(** The fraction of a number literal, if there is one. *)
Definition scan_frac (s : string) : option (string * string) :=
  match s with
  | String c s1 =>
      if is_char 0x2E c then
        match span_digits s1 with
        | ("", _) => None
        | (ds, rest) => Some (String c ds, rest)
        end
      else Some ("", s)
  | "" => Some ("", s)
  end.

(** The exponent of a number literal, if there is one. *)
Definition scan_exp (s : string) : option (string * string) :=
  match s with
  | String c s1 =>
      if is_char 0x65 c || is_char 0x45 c then
        let '(sign, s2) :=
          match s1 with
          | String g s2 =>
              if is_char 0x2B g || is_char 0x2D g then (String g "", s2) else ("", s1)
          | "" => ("", s1)
          end in
        match span_digits s2 with
        | ("", _) => None
        | (ds, rest) => Some (String c (sign ++ ds), rest)
        end
      else Some ("", s)
  | "" => Some ("", s)
  end.

(** A number literal at the head of [s]: its text and the rest. *)
Definition scan_number (s : string) : option (string * string) :=
  let '(sign, s1) :=
    match s with
    | String c s1 => if is_char 0x2D c then (String c "", s1) else ("", s)
    | "" => ("", s)
    end in
  match s1 with
  | String d s2 =>
      let int_part :=
        if is_char 0x30 d then Some (String d "", s2)
        else if is_digit d then
          let '(ds, rest) := span_digits s2 in Some (String d ds, rest)
        else None in
      match int_part with
      | None => None
      | Some (ip, s3) =>
          match scan_frac s3 with
          | None => None
          | Some (fp, s4) =>
              match scan_exp s4 with
              | None => None
              | Some (ep, s5) => Some (sign ++ ip ++ fp ++ ep, s5)
              end
          end
      end
  | "" => None
  end.

(** [s] without the prefix [p], when it starts with it. *)
Fixpoint strip_prefix (p s : string) : option string :=
  match p, s with
  | "", _ => Some s
  | String a p', String b s' => if Ascii.eqb a b then strip_prefix p' s' else None
  | _, _ => None
  end.

Definition maxNestingDepth : nat := 100 * 100.

(** Any JSON value at the head of [s], skipped: what follows it.
    [depth] counts the objects and arrays that are open. *)
Fixpoint skip_value (fuel depth : nat) (s : string) : option string :=
  match fuel with
  | O => None
  | S fuel' =>
      match s with
      | "" => None
      | String c s1 =>
          if is_char 0x22 c then
            match unquote_body s1 with
            | Some (_, rest) => Some rest
            | None => None
            end
          else if is_char 0x7B c then
            if (maxNestingDepth <=? depth)%nat then None
            else
              match skip_ws s1 with
              | "" => None
              | String c2 r as s2 =>
                  if is_char 0x7D c2 then Some r
                  else skip_members fuel' (S depth) s2
              end
          else if is_char 0x5B c then
            if (maxNestingDepth <=? depth)%nat then None
            else
              match skip_ws s1 with
              | "" => None
              | String c2 r as s2 =>
                  if is_char 0x5D c2 then Some r
                  else skip_elements fuel' (S depth) s2
              end
          else if is_char 0x74 c then strip_prefix "rue" s1
          else if is_char 0x66 c then strip_prefix "alse" s1
          else if is_char 0x6E c then strip_prefix "ull" s1
          else
            match scan_number s with
            | Some (_, rest) => Some rest
            | None => None
            end
      end
  end

with skip_members (fuel depth : nat) (s : string) : option string :=
  match fuel with
  | O => None
  | S fuel' =>
      match s with
      | "" => None
      | String c s1 =>
          if is_char 0x22 c then
            match unquote_body s1 with
            | None => None
            | Some (_, s2) =>
                match skip_ws s2 with
                | "" => None
                | String c3 s3 =>
                    if is_char 0x3A c3 then
                      match skip_value fuel' depth (skip_ws s3) with
                      | None => None
                      | Some s4 =>
                          match skip_ws s4 with
                          | "" => None
                          | String c5 s5 =>
                              if is_char 0x2C c5 then skip_members fuel' depth (skip_ws s5)
                              else if is_char 0x7D c5 then Some s5
                              else None
                          end
                      end
                    else None
                end
            end
          else None
      end
  end

with skip_elements (fuel depth : nat) (s : string) : option string :=
  match fuel with
  | O => None
  | S fuel' =>
      match skip_value fuel' depth s with
      | None => None
      | Some s1 =>
          match skip_ws s1 with
          | "" => None
          | String c2 s2 =>
              if is_char 0x2C c2 then skip_elements fuel' depth (skip_ws s2)
              else if is_char 0x5D c2 then Some s2
              else None
          end
      end
  end.

End JSON.

(** *** strconv *)

Module strconv.

Definition in_int64 (z : Z) : bool := (- 2 ^ 63 <=? z)%Z && (z <? 2 ^ 63)%Z.

(** [strconv.FormatInt(z, 10)]. *)
Definition FormatInt (z : Z) : string := DecimalString.NilZero.string_of_int (Z.to_int z).

(** [strconv.ParseInt(s, 10, 64)]: an optional sign and decimal
    digits, within the range of int64. *)
Definition ParseInt (s : string) : option Z :=
  let '(neg, ds) :=
    match s with
    | String c s' =>
        if Ascii.eqb c "-" then (true, s')
        else if Ascii.eqb c "+" then (false, s')
        else (false, s)
    | "" => (false, s)
    end in
  match ds with
  | "" => None
  | _ =>
      match DecimalString.NilEmpty.uint_of_string ds with
      | None => None
      | Some d =>
          let n := Z.of_N (N.of_uint d) in
          let z := if neg then (- n)%Z else n in
          if in_int64 z then Some z else None
      end
  end.

End strconv.


(** *** strings.Split *)

(** [strings.Split(s, sep)] for a one-byte separator. *)
Fixpoint Split (sep : ascii) (s : string) : list string :=
  match s with
  | "" => [""]
  | String c s' =>
      if Ascii.eqb c sep then "" :: Split sep s'
      else
        match Split sep s' with
        | part :: parts => String c part :: parts
        | [] => [String c ""]
        end
  end.

(** ** Package auth: signed relay tokens *)

Module auth.
Import JSON.

(** [TokenClaims]: the claims in a signed token; [exp] is in Unix
    seconds and is an int64. *)
Record TokenClaims : Type := {
  SessionID : string;
  Role : string;
  ExpiresAt : Z
}.

(** [json.Marshal(claims)]: the fields in declaration order under
    their tags, without whitespace. *)
Definition Marshal (claims : TokenClaims) : string :=
  "{" ++ encodeString "sid" ++ ":" ++ encodeString (SessionID claims) ++
  "," ++ encodeString "role" ++ ":" ++ encodeString (Role claims) ++
  "," ++ encodeString "exp" ++ ":" ++ strconv.FormatInt (ExpiresAt claims) ++ "}".

Inductive field : Type := FSessionID | FRole | FExpiresAt.

(** The folding of object keys: ASCII letters in upper case, and the
    two runes whose simple case folding is an ASCII letter, U+017F
    (long s) and U+212A (Kelvin sign). *)
Fixpoint fold_key (key : string) : string :=
  match key with
  | "" => ""
  | String c0 key1 =>
      match key1 with
      | String c1 key2 =>
          if is_char 0xC5 c0 && is_char 0xBF c1 then String "S" (fold_key key2)
          else
            match key2 with
            | String c2 key3 =>
                if is_char 0xE2 c0 && is_char 0x84 c1 && is_char 0xAA c2
                then String "K" (fold_key key3)
                else String (ascii_upper c0) (fold_key key1)
            | "" => String (ascii_upper c0) (fold_key key1)
            end
      | "" => String (ascii_upper c0) ""
      end
  end.

(** The struct field an object key names: by its tag, else by its tag
    up to case folding. *)
Definition field_of_key (key : string) : option field :=
  if String.eqb key "sid" then Some FSessionID
  else if String.eqb key "role" then Some FRole
  else if String.eqb key "exp" then Some FExpiresAt
  else if String.eqb (fold_key key) "SID" then Some FSessionID
  else if String.eqb (fold_key key) "ROLE" then Some FRole
  else if String.eqb (fold_key key) "EXP" then Some FExpiresAt
  else None.

Definition set_field_string (f : field) (v : string) (c : TokenClaims) : TokenClaims :=
  match f with
  | FSessionID => {| SessionID := v; Role := Role c; ExpiresAt := ExpiresAt c |}
  | FRole => {| SessionID := SessionID c; Role := v; ExpiresAt := ExpiresAt c |}
  | FExpiresAt => c
  end.

(** The value of a member stored into the claims: a string into a
    string field, an integer literal into [exp], [null] into any field
    (no change), any value at all under an unknown key (skipped).  Any
    other combination is a type error. *)
Definition decode_value (fuel : nat) (f : option field) (s : string) (c : TokenClaims)
  : option (TokenClaims * string) :=
  match f with
  | None =>
      match skip_value fuel 1 s with
      | Some rest => Some (c, rest)
      | None => None
      end
  | Some FExpiresAt =>
      match scan_number s with
      | Some (lit, rest) =>
          match strconv.ParseInt lit with
          | Some z =>
              Some ({| SessionID := SessionID c; Role := Role c; ExpiresAt := z |}, rest)
          | None => None
          end
      | None =>
          match strip_prefix "null" s with
          | Some rest => Some (c, rest)
          | None => None
          end
      end
  | Some f =>
      match s with
      | String q s1 =>
          if is_char 0x22 q then
            match unquote_body s1 with
            | Some (v, rest) => Some (set_field_string f v c, rest)
            | None => None
            end
          else
            match strip_prefix "null" s with
            | Some rest => Some (c, rest)
            | None => None
            end
      | "" => None
      end
  end.

(** The members of an object, from the quote of the first key to the
    closing brace. *)
Fixpoint decode_members (fuel : nat) (s : string) (c : TokenClaims)
  : option (TokenClaims * string) :=
  match fuel with
  | O => None
  | S fuel' =>
      match s with
      | "" => None
      | String q s1 =>
          if is_char 0x22 q then
            match unquote_body s1 with
            | None => None
            | Some (key, s2) =>
                match skip_ws s2 with
                | "" => None
                | String c3 s3 =>
                    if is_char 0x3A c3 then
                      match decode_value fuel' (field_of_key key) (skip_ws s3) c with
                      | None => None
                      | Some (c', s4) =>
                          match skip_ws s4 with
                          | "" => None
                          | String c5 s5 =>
                              if is_char 0x2C c5 then decode_members fuel' (skip_ws s5) c'
                              else if is_char 0x7D c5 then Some (c', s5)
                              else None
                          end
                      end
                    else None
                end
            end
          else None
      end
  end.

Definition zero_claims : TokenClaims := {| SessionID := ""; Role := ""; ExpiresAt := 0 |}.

Definition at_end (c : TokenClaims) (rest : string) : option TokenClaims :=
  match skip_ws rest with
  | "" => Some c
  | _ => None
  end.

(** [json.Unmarshal(payload, &claims)] into zero-valued claims: [None]
    stands for a non-nil error.  The document is one JSON value; an
    object fills the fields, [null] leaves them alone, any other value
    is a type error.  Each step of the recursion consumes input, so the
    length of the input is fuel enough. *)
Definition Unmarshal (data : string) : option TokenClaims :=
  match skip_ws data with
  | "" => None
  | String c s1 as s =>
      if is_char 0x7B c then
        match skip_ws s1 with
        | "" => None
        | String c2 r as s2 =>
            if is_char 0x7D c2 then at_end zero_claims r
            else
              match decode_members (String.length data) s2 zero_claims with
              | Some (claims, rest) => at_end claims rest
              | None => None
              end
        end
      else
        match strip_prefix "null" s with
        | Some rest => at_end zero_claims rest
        | None => None
        end
  end.

(** [Signer]: token signing and verification under one secret. *)
Record Signer : Type := { secret : string }.

Definition NewSigner (secret : string) : Signer := {| secret := secret |}.

(** [Signer.Sign].  Marshalling these claims cannot fail. *)
Definition Sign (s : Signer) (claims : TokenClaims) : result string :=
  let payload := Marshal claims in
  let signature := HMAC.Sum (secret s) payload in
  Ok (Base64.EncodeToString payload ++ "." ++ Base64.EncodeToString signature).

Definition errFormat : error := ErrMsg "invalid token format".
Definition errPayload : error := ErrMsg "invalid token payload".
Definition errSignatureEncoding : error := ErrMsg "invalid token signature".
Definition errSignature : error := ErrMsg "invalid signature".
Definition errClaims : error := ErrMsg "invalid claims".
Definition errTokenExpired : error := ErrMsg "token expired".

(** [Signer.Verify], at the clock reading [now] in Unix seconds. *)
Definition Verify (s : Signer) (token : string) (now : Z) : result TokenClaims :=
  match Split "." token with
  | [part0; part1] =>
      match Base64.DecodeString part0 with
      | None => Err errPayload
      | Some payload =>
          match Base64.DecodeString part1 with
          | None => Err errSignatureEncoding
          | Some signature =>
              let expectedSig := HMAC.Sum (secret s) payload in
              if negb (HMAC.Equal signature expectedSig) then Err errSignature
              else
                match Unmarshal payload with
                | None => Err errClaims
                | Some claims =>
                    if (ExpiresAt claims <? now)%Z then Err errTokenExpired
                    else Ok claims
                end
          end
      end
  | _ => Err errFormat
  end.

(** [t.Unix()] of an instant in nanoseconds. *)
Definition Unix (t : Z) : Z := t / 1000000000.

(** [Signer.CreateRelayToken]. *)
Definition CreateRelayToken (s : Signer) (sessionID role : string) (ttl now : Z)
  : result string :=
  Sign s {| SessionID := sessionID; Role := role; ExpiresAt := Unix (now + ttl) |}.

End auth.


(** ** Package ratelimit: per-IP rate limiting *)

Module ratelimit.

Definition Second : Z := 1000000000.
Definition Minute : Z := 60 * Second.

(** A duration in nanoseconds, in seconds. *)
Definition seconds (d : Z) : Q := (inject_Z d / inject_Z Second)%Q.

(** Modelled from the spec: [rate.Limiter] of golang.org/x/time/rate is
    not part of the sources.  The spec describes it as a refilling
    token bucket with a rate in tokens per second and a capacity
    [burst]; [allow] is true exactly when the bucket holds at least one
    token, which it then takes.  Tokens are exact rationals here. *)
Record TokenBucket : Type := {
  tokens : Q;
  last : Z
}.

(** [rate.NewLimiter(r, b)]: a full bucket. *)
Definition NewBucket (burst : Z) (now : Z) : TokenBucket :=
  {| tokens := inject_Z burst; last := now |}.

(** The tokens of the bucket at [now]: what it held, plus the refill
    since [last], capped at [burst]. *)
Definition refill (rate : Q) (burst : Z) (b : TokenBucket) (now : Z) : Q :=
  let t := (tokens b + rate * seconds (Z.max 0 (now - last b)))%Q in
  if Qle_bool (inject_Z burst) t then inject_Z burst else t.

(** [rate.Limiter.Allow] at [now]. *)
Definition bucket_Allow (rate : Q) (burst : Z) (b : TokenBucket) (now : Z)
  : bool * TokenBucket :=
  let t := refill rate burst b now in
  if Qle_bool 1 t
  then (true, {| tokens := (t - 1)%Q; last := now |})
  else (false, {| tokens := t; last := now |}).

Record clientLimiter : Type := {
  limiter : TokenBucket;
  lastSeen : Z
}.

(** [Limiter]: one bucket per IP. *)
Record Limiter : Type := {
  limiters : gmap string clientLimiter;
  rate : Q;
  burst : Z;
  cleanup : Z
}.

Definition NewLimiter (r : Q) (burst : Z) : Limiter :=
  {| limiters := ∅; rate := r; burst := burst; cleanup := 3 * Minute |}.

Definition with_limiters (l : Limiter) (m : gmap string clientLimiter) : Limiter :=
  {| limiters := m; rate := rate l; burst := burst l; cleanup := cleanup l |}.

(** [Limiter.Allow]: find the client's bucket or create it, stamp it,
    and ask it. *)
Definition Allow (l : Limiter) (ip : string) (now : Z) : bool * Limiter :=
  let client :=
    match limiters l !! ip with
    | Some client => client
    | None => {| limiter := NewBucket (burst l) now; lastSeen := now |}
    end in
  let '(ok, b) := bucket_Allow (rate l) (burst l) (limiter client) now in
  (ok, with_limiters l (<[ip := {| limiter := b; lastSeen := now |}]> (limiters l))).

(** [Limiter.doCleanup]: drop the clients not seen since the threshold. *)
Definition doCleanup (l : Limiter) (now : Z) : Limiter :=
  let threshold := now - cleanup l in
  with_limiters l
    (filter (fun entry => ¬ (lastSeen (snd entry) < threshold)) (limiters l)).

(** [MultiLimiter]: one limiter for create, one for join. *)
Record MultiLimiter : Type := {
  create : Limiter;
  join : Limiter
}.

Definition NewMultiLimiter : MultiLimiter :=
  {| create := NewLimiter (10 / 60)%Q 3; join := NewLimiter (30 / 60)%Q 10 |}.

Definition AllowCreate (m : MultiLimiter) (ip : string) (now : Z) : bool * MultiLimiter :=
  let '(ok, l) := Allow (create m) ip now in (ok, {| create := l; join := join m |}).

Definition AllowJoin (m : MultiLimiter) (ip : string) (now : Z) : bool * MultiLimiter :=
  let '(ok, l) := Allow (join m) ip now in (ok, {| create := create m; join := l |}).

(** What happens to a limiter: a request of an IP, or a janitor tick. *)
Inductive event : Type :=
| Request (ip : string)
| Tick.

(** A limiter run through timed events; the log has one entry per
    request: its time, its IP and the answer. *)
Fixpoint run (l : Limiter) (trace : list (Z * event)) : list (Z * string * bool) :=
  match trace with
  | [] => []
  | (now, Request ip) :: trace' =>
      let '(ok, l') := Allow l ip now in (now, ip, ok) :: run l' trace'
  | (now, Tick) :: trace' => run (doCleanup l now) trace'
  end.

(** Event times never go back, starting from [from]. *)
Fixpoint ordered (from : Z) (trace : list (Z * event)) : Prop :=
  match trace with
  | [] => True
  | (now, _) :: trace' => from <= now /\ ordered now trace'
  end.

(** The requests of [ip] that were allowed at a time in the window of
    60 seconds that starts at [w]. *)
Definition allowed_in_window (w : Z) (ip : string) (log : list (Z * string * bool)) : nat :=
  List.length
    (List.filter
       (fun entry =>
          let '(t, ip', ok) := entry in
          ok && String.eqb ip' ip && (w <=? t) && (t <=? w + Minute))
       log).

End ratelimit.

(** ** Package session: the in-memory session store *)

Module session.

(** [Session]: a game session between host and joiner. *)
Record Session : Type := {
  ID : string;
  Code : string;
  HostToken : string;
  JoinToken : string;
  HostConnected : bool;
  JoinConnected : bool;
  CreatedAt : Z;
  ExpiresAt : Z
}.

(** [Store]: sessions keyed by id, and the code index (code -> id). *)
Record Store : Type := {
  sessions : gmap string Session;
  byCodes : gmap string string;
  ttl : Z
}.

Definition NewStore (ttl : Z) : Store :=
  {| sessions := ∅; byCodes := ∅; ttl := ttl |}.

(** [now.After(session.ExpiresAt)]. *)
Definition expired (now : Z) (session : Session) : bool := ExpiresAt session <? now.

(** [generateID(length)]: [length] random bytes, rendered in hex. *)
Definition generateID (length : nat) (entropy : string) : result (string * string) :=
  match rand_Read length entropy with
  | Err e => Err e
  | Ok (b, rest) => Ok (hex_encode b, rest)
  end.

Section WithUnicode.
Variable unicode_upper : string -> string.

(** [generateCode]: 8 random bytes, base32, the first 12 characters
    upper-cased and printed as XXXX-XXXX-XXXX. *)
Definition generateCode (entropy : string) : result (string * string) :=
  match rand_Read 8 entropy with
  | Err e => Err e
  | Ok (b, rest) =>
      let encoded := Base32.EncodeToString b in
      let encoded := ToUpper unicode_upper (slice 0 12 encoded) in
      Ok (slice 0 4 encoded ++ "-" ++ slice 4 8 encoded ++ "-" ++ slice 8 12 encoded,
          rest)
  end.

(** [Store.Create]. *)
Definition Create (s : Store) (now : Z) (entropy : string)
  : result (Session * Store * string) :=
  match generateID 16 entropy with
  | Err e => Err (ErrWrap "failed to generate session ID" e)
  | Ok (id, entropy) =>
  match generateCode entropy with
  | Err e => Err (ErrWrap "failed to generate join code" e)
  | Ok (code, entropy) =>
  match generateID 32 entropy with
  | Err e => Err (ErrWrap "failed to generate host token" e)
  | Ok (hostToken, entropy) =>
      let session :=
        {| ID := id; Code := code; HostToken := hostToken; JoinToken := "";
           HostConnected := false; JoinConnected := false;
           CreatedAt := now; ExpiresAt := now + ttl s |} in
      Ok (session,
          {| sessions := <[id := session]> (sessions s);
             byCodes := <[code := id]> (byCodes s);
             ttl := ttl s |},
          entropy)
  end end end.

End WithUnicode.

(** [Store.GetByID]. *)
Definition GetByID (s : Store) (id : string) (now : Z) : option Session :=
  match sessions s !! id with
  | None => None
  | Some session => if expired now session then None else Some session
  end.

(** [Store.GetByCode]. *)
Definition GetByCode (s : Store) (code : string) (now : Z) : option Session :=
  match byCodes s !! code with
  | None => None
  | Some id =>
      match sessions s !! id with
      | None => None
      | Some session => if expired now session then None else Some session
      end
  end.

Definition set_JoinToken (session : Session) (t : string) : Session :=
  {| ID := ID session; Code := Code session; HostToken := HostToken session;
     JoinToken := t;
     HostConnected := HostConnected session; JoinConnected := JoinConnected session;
     CreatedAt := CreatedAt session; ExpiresAt := ExpiresAt session |}.

Definition set_HostConnected (session : Session) (c : bool) : Session :=
  {| ID := ID session; Code := Code session; HostToken := HostToken session;
     JoinToken := JoinToken session;
     HostConnected := c; JoinConnected := JoinConnected session;
     CreatedAt := CreatedAt session; ExpiresAt := ExpiresAt session |}.

Definition set_JoinConnected (session : Session) (c : bool) : Session :=
  {| ID := ID session; Code := Code session; HostToken := HostToken session;
     JoinToken := JoinToken session;
     HostConnected := HostConnected session; JoinConnected := c;
     CreatedAt := CreatedAt session; ExpiresAt := ExpiresAt session |}.

Definition with_sessions (s : Store) (m : gmap string Session) : Store :=
  {| sessions := m; byCodes := byCodes s; ttl := ttl s |}.

Definition errNotFound : error := ErrMsg "session not found".
Definition errExpired : error := ErrMsg "session expired".
Definition errHasJoiner : error := ErrMsg "session already has a joiner".

(** [Store.Join]: mint the join token of the session a code names. *)
Definition Join (s : Store) (code : string) (now : Z) (entropy : string)
  : result (Session * Store * string) :=
  match byCodes s !! code with
  | None => Err errNotFound
  | Some id =>
  match sessions s !! id with
  | None => Err errExpired
  | Some session =>
      if expired now session then Err errExpired
      else if negb (String.eqb (JoinToken session) "") then Err errHasJoiner
      else
        match generateID 32 entropy with
        | Err e => Err (ErrWrap "failed to generate join token" e)
        | Ok (joinToken, entropy) =>
            let session := set_JoinToken session joinToken in
            Ok (session, with_sessions s (<[id := session]> (sessions s)), entropy)
        end
  end end.

(** [Store.SetHostConnected]. *)
Definition SetHostConnected (s : Store) (id : string) (connected : bool)
  : result Store :=
  match sessions s !! id with
  | None => Err errNotFound
  | Some session =>
      Ok (with_sessions s (<[id := set_HostConnected session connected]> (sessions s)))
  end.

(** [Store.SetJoinConnected]. *)
Definition SetJoinConnected (s : Store) (id : string) (connected : bool)
  : result Store :=
  match sessions s !! id with
  | None => Err errNotFound
  | Some session =>
      Ok (with_sessions s (<[id := set_JoinConnected session connected]> (sessions s)))
  end.

(** [Store.Delete]. *)
Definition Delete (s : Store) (id : string) : Store :=
  match sessions s !! id with
  | Some session =>
      {| sessions := delete id (sessions s);
         byCodes := delete (Code session) (byCodes s);
         ttl := ttl s |}
  | None => s
  end.

(** [Store.ValidateToken]. *)
Definition ValidateToken (s : Store) (sessionID token role : string) (now : Z) : bool :=
  match sessions s !! sessionID with
  | None => false
  | Some session =>
      if expired now session then false
      else if String.eqb role "host" then String.eqb (HostToken session) token
      else if String.eqb role "joiner" then String.eqb (JoinToken session) token
      else false
  end.

(** One iteration of the loop of [Store.cleanup]. *)
Definition cleanup_step (now : Z) (entry : string * Session) (s : Store) : Store :=
  let '(id, session) := entry in
  if expired now session
  then {| sessions := delete id (sessions s);
          byCodes := delete (Code session) (byCodes s);
          ttl := ttl s |}
  else s.

(** [Store.cleanup]: the janitor's tick, ranging over the sessions that
    are in the map when the loop starts. *)
Definition cleanup (s : Store) (now : Z) : Store :=
  foldr (cleanup_step now) s (map_to_list (sessions s)).

End session.


(** ** The signalling server: the HTTP handlers *)

Module server.
Import session.

Record Server : Type := {
  store : Store;
  signer : auth.Signer;
  limiter : ratelimit.MultiLimiter;
  tokenTTL : Z
}.

(** What a handler reads of a request: the method, the client address
    ([getClientIP]) and, for a request with a JSON body, the string
    field decoded from it ([None] when decoding fails). *)
Record Request : Type := {
  Method : string;
  ClientIP : string;
  BodyCode : option string
}.

Inductive body : Type :=
| ErrorText (msg : string)
| JoinReply (sessionId joinToken relayToken : string) (hostConnected : bool).

Record Response : Type := {
  StatusCode : Z;
  Body : body
}.

Definition StatusOK : Z := 200.
Definition StatusBadRequest : Z := 400.
Definition StatusNotFound : Z := 404.
Definition StatusMethodNotAllowed : Z := 405.
Definition StatusConflict : Z := 409.
Definition StatusTooManyRequests : Z := 429.
Definition StatusInternalServerError : Z := 500.

(** [http.Error(w, msg, code)]. *)
Definition Error (msg : string) (code : Z) : Response :=
  {| StatusCode := code; Body := ErrorText msg |}.

Definition with_limiter (s : Server) (m : ratelimit.MultiLimiter) : Server :=
  {| store := store s; signer := signer s; limiter := m; tokenTTL := tokenTTL s |}.

Definition with_store (s : Server) (st : Store) : Server :=
  {| store := st; signer := signer s; limiter := limiter s; tokenTTL := tokenTTL s |}.

Section WithUnicode.
Variable unicode_upper : string -> string.

(** The code of a join request brought to the form XXXX-XXXX-XXXX:
    upper case, dashes removed, regrouped when twelve bytes remain. *)
Definition normalizeCode (code : string) : string :=
  let code := ToUpper unicode_upper (remove_dashes code) in
  if (String.length code =? 12)%nat
  then slice 0 4 code ++ "-" ++ slice 4 8 code ++ "-" ++ slice 8 12 code
  else code.

(** [Server.handleJoin], POST /session/join. *)
Definition handleJoin (s : Server) (r : Request) (now : Z) (entropy : string)
  : Response * Server :=
  if negb (String.eqb (Method r) "POST")
  then (Error "Method not allowed" StatusMethodNotAllowed, s)
  else
    let '(allowed, lim) := ratelimit.AllowJoin (limiter s) (ClientIP r) now in
    let s := with_limiter s lim in
    if negb allowed then (Error "Rate limit exceeded" StatusTooManyRequests, s)
    else
      match BodyCode r with
      | None => (Error "Invalid request" StatusBadRequest, s)
      | Some reqCode =>
          let code := normalizeCode reqCode in
          match Join (store s) code now entropy with
          | Err _ => (Error "Invalid or expired code" StatusNotFound, s)
          | Ok (sess, st, _) =>
              let s := with_store s st in
              match auth.CreateRelayToken (signer s) (ID sess) "joiner"
                      (tokenTTL s) now with
              | Err _ => (Error "Failed to create token" StatusInternalServerError, s)
              | Ok relayToken =>
                  ({| StatusCode := StatusOK;
                      Body := JoinReply (ID sess) (JoinToken sess) relayToken
                                (HostConnected sess) |}, s)
              end
          end
      end.

End WithUnicode.

End server.


(** ** Package relay: pairing of host and joiner connections *)

Module relay.

(** A [net.Conn], by identity. *)
Definition conn : Type := nat.

(** [AuthMessage]: what a client sends to authenticate. *)
Record AuthMessage : Type := {
  SessionID : string;
  RelayToken : string;
  Role : string
}.

(** [PendingConnection]: a client waiting to be paired. *)
Record PendingConnection : Type := {
  Conn : conn;
  PRole : string;
  PSessionID : string;
  CreatedAt : Z
}.

(** [TokenValidator.Validate], at a clock reading: the session id and
    the role of a token, or an error. *)
Definition TokenValidator : Type := Z -> string -> result (string * string).

(** [Relay]: the pending table, keyed by session id. *)
Record Relay : Type := {
  pending : gmap string PendingConnection;
  validator : TokenValidator;
  pairTimeout : Z;
  maxDuration : Z
}.

Definition NewRelay (validator : TokenValidator) (pairTimeout maxDuration : Z) : Relay :=
  {| pending := ∅; validator := validator;
     pairTimeout := pairTimeout; maxDuration := maxDuration |}.

Definition with_pending (r : Relay) (m : gmap string PendingConnection) : Relay :=
  {| pending := m; validator := validator r;
     pairTimeout := pairTimeout r; maxDuration := maxDuration r |}.

(** What the relay does to sockets. *)
Inductive effect : Type :=
| SetDeadline (c : conn) (deadline : option Z)
| Write (c : conn) (data : string)
| Close (c : conn)
| Splice (sessionID : string) (hostConn joinerConn : conn).

(** How far [HandleConnection] got. *)
Inductive outcome : Type :=
| Rejected                                  (* it has returned *)
| Paired (sessionID role : string)          (* it runs [pairConnections] *)
| Waiting (sessionID role : string).        (* it runs [waitForPair] *)

Definition newline : string := String (byte_of 10) "".

(** [json.Marshal(AuthResponse{Success, Error})] and a line feed; the
    error is left out when empty. *)
Definition authResponse (success : bool) (errMsg : string) : string :=
  "{" ++ JSON.encodeString "success" ++ ":" ++ (if success then "true" else "false") ++
  (if String.eqb errMsg "" then ""
   else "," ++ JSON.encodeString "error" ++ ":" ++ JSON.encodeString errMsg) ++
  "}" ++ newline.

(** [Relay.sendAuthResponse]: one write on the socket. *)
Definition sendAuthResponse (c : conn) (success : bool) (errMsg : string) : effect :=
  Write c (authResponse success errMsg).

(** The handshake went wrong: the answer is sent and the deferred
    [conn.Close] runs; the relay is as it was. *)
Definition reject (r : Relay) (c : conn) (now : Z) (errMsg : string)
  : Relay * list effect * outcome :=
  (r, [SetDeadline c (Some (now + 10 * ratelimit.Second));
       sendAuthResponse c false errMsg; Close c], Rejected).

(** [Relay.HandleConnection], up to where it blocks.  [msg] is the
    decoded auth message ([None] when decoding fails) and [writable]
    tells whether the write of the success answer goes through. *)
Definition HandleConnection (r : Relay) (c : conn) (msg : option AuthMessage)
    (writable : bool) (now : Z) : Relay * list effect * outcome :=
  match msg with
  | None => reject r c now "Invalid auth message"
  | Some authMsg =>
      match validator r now (RelayToken authMsg) with
      | Err _ => reject r c now "Invalid token"
      | Ok (sessionID, role) =>
          if negb (String.eqb sessionID (SessionID authMsg))
             || negb (String.eqb role (Role authMsg))
          then reject r c now "Token mismatch"
          else
            let hello := [SetDeadline c (Some (now + 10 * ratelimit.Second));
                          sendAuthResponse c true ""] in
            if negb writable then (r, (hello ++ [Close c])%list, Rejected)
            else
              let hello := (hello ++ [SetDeadline c None])%list in
              (* the critical section *)
              match pending r !! sessionID with
              | Some p =>
                  if negb (String.eqb (PRole p) role) then
                    let '(hostConn, joinerConn) :=
                      if String.eqb role "host" then (c, Conn p) else (Conn p, c) in
                    (with_pending r (delete sessionID (pending r)),
                     (hello ++ [Splice sessionID hostConn joinerConn])%list,
                     Paired sessionID role)
                  else
                    (with_pending r
                       (<[sessionID := {| Conn := c; PRole := role;
                                          PSessionID := sessionID;
                                          CreatedAt := now |}]> (pending r)),
                     (hello ++ [Close (Conn p)])%list,
                     Waiting sessionID role)
              | None =>
                  (with_pending r
                     (<[sessionID := {| Conn := c; PRole := role;
                                        PSessionID := sessionID;
                                        CreatedAt := now |}]> (pending r)),
                   hello,
                   Waiting sessionID role)
              end
      end
  end.

(** One turn of the loop of [Relay.waitForPair] for the connection [c]
    parked under [sessionID]: [None] when it sleeps and goes on, else
    the relay it leaves behind; on return the deferred [conn.Close]
    of [HandleConnection] runs. *)
Definition waitForPair_turn (r : Relay) (c : conn) (sessionID : string)
    (now deadline : Z) : option (Relay * list effect) :=
  match pending r !! sessionID with
  | Some p =>
      if Nat.eqb (Conn p) c then
        if deadline <? now
        then Some (with_pending r (delete sessionID (pending r)), [Close c])
        else None
      else Some (r, [Close c])
  | None => Some (r, [Close c])
  end.

(** One iteration of the loop of [Relay.cleanup]. *)
Definition cleanup_step (threshold : Z) (entry : string * PendingConnection)
    (acc : Relay * list effect) : Relay * list effect :=
  let '(sessionID, p) := entry in
  let '(r, effects) := acc in
  if CreatedAt p <? threshold
  then (with_pending r (delete sessionID (pending r)), (effects ++ [Close (Conn p)])%list)
  else acc.

(** [Relay.cleanup]: stale pending connections are closed and dropped. *)
Definition cleanup (r : Relay) (now : Z) : Relay * list effect :=
  foldr (cleanup_step (now - pairTimeout r)) (r, []) (map_to_list (pending r)).

(** What reaches the relay. *)
Inductive event : Type :=
| Connect (c : conn) (msg : option AuthMessage) (writable : bool) (now : Z)
| Turn (c : conn) (sessionID : string) (now deadline : Z)
| Tick (now : Z).

(** The relay run through events: the relay at the end, everything it
    did, and the outcome of each connection in turn. *)
Fixpoint run (r : Relay) (trace : list event) : Relay * list effect * list outcome :=
  match trace with
  | [] => (r, [], [])
  | Connect c msg writable now :: trace' =>
      let '(r1, effects, out) := HandleConnection r c msg writable now in
      let '(r2, effects', outs) := run r1 trace' in
      (r2, (effects ++ effects')%list, out :: outs)
  | Turn c sessionID now deadline :: trace' =>
      match waitForPair_turn r c sessionID now deadline with
      | Some (r1, effects) =>
          let '(r2, effects', outs) := run r1 trace' in (r2, (effects ++ effects')%list, outs)
      | None => run r trace'
      end
  | Tick now :: trace' =>
      let '(r1, effects) := cleanup r now in
      let '(r2, effects', outs) := run r1 trace' in
      (r2, (effects ++ effects')%list, outs)
  end.

(** The splices of a session among the effects. *)
Definition splices (sessionID : string) (effects : list effect) : nat :=
  List.length
    (List.filter
       (fun e => match e with
                 | Splice sid _ _ => String.eqb sid sessionID
                 | _ => false
                 end) effects).

(** The connections of a session that got through the handshake. *)
Definition authenticated (sessionID : string) (outs : list outcome) : nat :=
  List.length
    (List.filter
       (fun o => match o with
                 | Paired sid _ | Waiting sid _ => String.eqb sid sessionID
                 | Rejected => false
                 end) outs).

End relay.

(** [tokenValidator.Validate] of the relay command: the local signer
    first, else the signalling server ([validateRemote], an HTTP call,
    here a parameter). *)
Definition tokenValidator_Validate (signer : auth.Signer)
    (validateRemote : string -> result (string * string)) : relay.TokenValidator :=
  fun now token =>
    match auth.Verify signer token (auth.Unix now) with
    | Ok claims => Ok (auth.SessionID claims, auth.Role claims)
    | Err _ => validateRemote token
    end.


(** ** Package bridge: the local game <-> relay connection *)

Module bridge.

(** [atomic.Int64]: additions wrap around. *)
Definition wrap64 (z : Z) : Z := (z + 2 ^ 63) mod 2 ^ 64 - 2 ^ 63.

(** [Stats]: the two byte counters. *)
Record Stats : Type := {
  BytesIn : Z;
  BytesOut : Z
}.

Definition add_BytesIn (s : Stats) (n : Z) : Stats :=
  {| BytesIn := wrap64 (BytesIn s + n); BytesOut := BytesOut s |}.

Definition add_BytesOut (s : Stats) (n : Z) : Stats :=
  {| BytesIn := BytesIn s; BytesOut := wrap64 (BytesOut s + n) |}.

(** The scratch buffer of a forwarding loop. *)
Definition bufSize : Z := 32 * 1024.

(** What one turn of a forwarding loop meets: whether the stop channel
    is closed; what [Read] returns, a count and maybe an error; how
    many bytes [Write] takes and whether it reports an error. *)
Record turn : Type := {
  stopped : bool;
  read_n : Z;
  read_err : bool;
  write_n : Z;
  write_err : bool
}.

(** A turn as sockets can produce it: [Read] fills at most the buffer,
    and [Write] takes at most what it is given, all of it when it
    reports no error. *)
Definition possible (t : turn) : Prop :=
  0 <= read_n t <= bufSize /\
  0 <= write_n t <= read_n t /\
  (write_err t = false -> write_n t = read_n t).

(** What a loop has done: the statistics, and the bytes its writes put
    on the far socket. *)
Record progress : Type := {
  stats : Stats;
  written : Z
}.

(** [Bridge.forwardToLocal]: relay to local socket, counted in
    [BytesIn].  The loop ends on a closed stop channel, a read error or
    a write error; it also ends when the script does. *)
Fixpoint forwardToLocal (p : progress) (script : list turn) : progress :=
  match script with
  | [] => p
  | t :: script' =>
      if stopped t then p
      else if read_err t then p
      else if 0 <? read_n t then
        let p' := {| stats := add_BytesIn (stats p) (read_n t);
                     written := written p + write_n t |} in
        if write_err t then p' else forwardToLocal p' script'
      else forwardToLocal p script'
  end.

(** [Bridge.forwardToRelay]: local socket to relay, counted in
    [BytesOut]. *)
Fixpoint forwardToRelay (p : progress) (script : list turn) : progress :=
  match script with
  | [] => p
  | t :: script' =>
      if stopped t then p
      else if read_err t then p
      else if 0 <? read_n t then
        let p' := {| stats := add_BytesOut (stats p) (read_n t);
                     written := written p + write_n t |} in
        if write_err t then p' else forwardToRelay p' script'
      else forwardToRelay p script'
  end.

Definition start : progress :=
  {| stats := {| BytesIn := 0; BytesOut := 0 |}; written := 0 |}.

(** The bytes the reads of a script hand to the loop before it ends. *)
Fixpoint bytes_read (script : list turn) : Z :=
  match script with
  | [] => 0
  | t :: script' =>
      if stopped t then 0
      else if read_err t then 0
      else if 0 <? read_n t then
        read_n t + (if write_err t then 0 else bytes_read script')
      else bytes_read script'
  end.

End bridge.


(** ** Predicates and sample inputs used by the statements below *)

(** Every byte, for properties that are checked by running through all
    of them. *)
Definition all_bytes_list : list ascii := map ascii_of_nat (seq 0 256).

Definition forall_bytes (p : ascii -> bool) : bool := forallb p all_bytes_list.

(** [c] with bit [k] flipped, for [k] below 8. *)
Definition flip (k : nat) (c : ascii) : ascii :=
  byte_of (N.lxor (byte_val c) (N.shiftl 1 (N.of_nat k))).

(** [s] with bit [k] of its byte number [i] flipped. *)
Fixpoint flip_bit (i k : nat) (s : string) : string :=
  match s with
  | "" => ""
  | String c s' =>
      match i with
      | O => String (flip k c) s'
      | S i' => String c (flip_bit i' k s')
      end
  end.

(** The quantities the bound on the rate limiter is proved with. *)
Module ratelimit_bound.
Import ratelimit.

(** The refill of [d] nanoseconds at [rt] tokens per second. *)
Definition gain (rt : Q) (d : Z) : Q := (rt * seconds d)%Q.

(** [rate * 60 + burst]. *)
Definition bound (rt : Q) (bst : Z) : Q := (rt * 60 + inject_Z bst)%Q.

(** What the client [ip] can still be allowed up to the end of the
    window that starts at [w]: the tokens of its bucket and the refill
    to come when the bucket was last used inside the window, the whole
    bound otherwise. *)
Definition potential (rt : Q) (bst : Z) (w : Z) (ip : string) (l : Limiter) : Q :=
  match limiters l !! ip with
  | Some c =>
      if w <=? lastSeen c
      then (tokens (limiter c) + gain rt (w + Minute - lastSeen c))%Q
      else bound rt bst
  | None => bound rt bst
  end.

(** The limiter has the given parameters, and the bucket of [ip], if
    there is one, is within its capacity and was last used at
    [lastSeen], not after [cur]. *)
Definition good (rt : Q) (bst : Z) (ip : string) (l : Limiter) (cur : Z) : Prop :=
  rate l = rt /\ burst l = bst /\ cleanup l = 3 * Minute /\
  forall c, limiters l !! ip = Some c ->
    (0 <= tokens (limiter c))%Q /\ (tokens (limiter c) <= inject_Z bst)%Q /\
    last (limiter c) = lastSeen c /\ lastSeen c <= cur.

Definition count (w : Z) (ip : string) (log : list (Z * string * bool)) : Q :=
  inject_Z (Z.of_nat (allowed_in_window w ip log)).

End ratelimit_bound.

(** Whether the relay holds a pending connection for a session: 1 or 0. *)
Definition pending_count (sessionID : string) (r : relay.Relay) : nat :=
  match relay.pending r !! sessionID with
  | Some _ => 1%nat
  | None => 0%nat
  end.

(** The effects with which [HandleConnection] greets an authenticated
    connection. *)
Definition hello (c : relay.conn) (now : Z) : list relay.effect :=
  [relay.SetDeadline c (Some (now + 10 * ratelimit.Second));
   relay.sendAuthResponse c true "";
   relay.SetDeadline c None].

(** ** Predicates and unfoldings used by the proofs *)

(** A byte that base64 decoding neither skips nor splits a token at. *)
Definition plain (c : ascii) : bool :=
  negb (Base64.is_newline c) && negb (Ascii.eqb c ".").

(** A byte other than the separator of a token. *)
Definition nodot (c : ascii) : bool := negb (Ascii.eqb c ".").

(** What [Verify] does once the token is split and decoded. *)
Definition check (s : auth.Signer) (payload signature : string) (now : Z)
  : result auth.TokenClaims :=
  if negb (HMAC.Equal signature (HMAC.Sum (auth.secret s) payload)) then Err auth.errSignature
  else
    match auth.Unmarshal payload with
    | None => Err auth.errClaims
    | Some claims =>
        if (auth.ExpiresAt claims <? now)%Z then Err auth.errTokenExpired else Ok claims
    end.

Module examples.
Import session.

(** A read of five bytes whose write fails outright. *)
Definition failed_write : list bridge.turn :=
  [{| bridge.stopped := false; bridge.read_n := 5; bridge.read_err := false;
      bridge.write_n := 0; bridge.write_err := true |}].

(** Two reads of five and seven bytes, both written in full. *)
Definition two_chunks : list bridge.turn :=
  [{| bridge.stopped := false; bridge.read_n := 5; bridge.read_err := false;
      bridge.write_n := 5; bridge.write_err := false |};
   {| bridge.stopped := false; bridge.read_n := 7; bridge.read_err := false;
      bridge.write_n := 7; bridge.write_err := false |}].

(** Five requests of one client at the same instant. *)
Definition burst_trace : list (Z * ratelimit.event) :=
  [(0, ratelimit.Request "10.0.0.1"); (0, ratelimit.Request "10.0.0.1");
   (0, ratelimit.Request "10.0.0.1"); (0, ratelimit.Request "10.0.0.1");
   (0, ratelimit.Request "10.0.0.1")].

(** Claims as the signalling server issues them, and the secret it
    falls back to. *)
Definition host_claims : auth.TokenClaims :=
  {| auth.SessionID := "30313233"; auth.Role := "host"; auth.ExpiresAt := 1700000000 |}.

Definition signer : auth.Signer := auth.NewSigner "changeme-in-production".

Definition host_token : string :=
  "eyJzaWQiOiIzMDMxMzIzMyIsInJvbGUiOiJob3N0IiwiZXhwIjoxNzAwMDAwMDAwfQ" ++ "." ++
  "k3u9zlGKa-8T5ywU1lFjt0ushCOEY8ydWRtND8yoOcE".

(** The same token with bit 1 of its last character flipped: the final
    E (0x45) becomes G (0x47). *)
Definition flipped_token : string := flip_bit 109 1 host_token.


Definition joiner_claims : auth.TokenClaims :=
  {| auth.SessionID := "30313233"; auth.Role := "joiner"; auth.ExpiresAt := 1700000000 |}.

Definition joiner_token : string :=
  Eval vm_compute in
    match auth.Sign signer joiner_claims with
    | Ok token => token
    | Err _ => ""
    end.

(** The validator of the relay command, with the signalling server out
    of reach. *)
Definition validator : relay.TokenValidator :=
  tokenValidator_Validate signer (fun _ => Err (ErrMsg "failed to contact signaling server")).

Definition the_relay : relay.Relay :=
  relay.NewRelay validator (30 * ratelimit.Second) (4 * 3600 * ratelimit.Second).

Definition host_hello : relay.AuthMessage :=
  {| relay.SessionID := "30313233"; relay.RelayToken := host_token; relay.Role := "host" |}.

Definition joiner_hello : relay.AuthMessage :=
  {| relay.SessionID := "30313233"; relay.RelayToken := joiner_token;
     relay.Role := "joiner" |}.

(** The host token presented with the role of a joiner. *)
Definition lying_hello : relay.AuthMessage :=
  {| relay.SessionID := "30313233"; relay.RelayToken := host_token;
     relay.Role := "joiner" |}.

(** The clock of the relay samples, in nanoseconds. *)
Definition t0 : Z := 1600000000 * ratelimit.Second.

(** Host, joiner, host, joiner: four connections of one session. *)
Definition four_connections : list relay.event :=
  [relay.Connect 1%nat (Some host_hello) true t0;
   relay.Connect 2%nat (Some joiner_hello) true t0;
   relay.Connect 3%nat (Some host_hello) true t0;
   relay.Connect 4%nat (Some joiner_hello) true t0].


(** The upper-casing of non-ASCII strings used in the samples (it is
    never reached: every sample is ASCII). *)
Definition no_unicode (s : string) : string := s.

(** A store holding one session that was created at time 0 with a TTL
    of 900 and is looked at at time 1000. *)
Definition stale_session : Session :=
  {| ID := "00ff"; Code := "AAAA-BBBB-CCCC"; HostToken := "aa"; JoinToken := "";
     HostConnected := false; JoinConnected := false;
     CreatedAt := 0; ExpiresAt := 900 |}.

Definition stale_store : Store :=
  {| sessions := {[ "00ff" := stale_session ]};
     byCodes := {[ "AAAA-BBBB-CCCC" := "00ff" ]};
     ttl := 900 |}.


(** A base32 character: A-Z or 2-7. *)
Definition is_b32 (c : ascii) : bool := in_range 65 90 c || in_range 50 55 c.

(** XXXX-XXXX-XXXX over the base32 alphabet. *)
Definition is_code (code : string) : bool :=
  match code with
  | String c0 (String c1 (String c2 (String c3 (String d1
    (String c4 (String c5 (String c6 (String c7 (String d2
    (String c8 (String c9 (String c10 (String c11 ""))))))))))))) =>
      Ascii.eqb d1 "-" && Ascii.eqb d2 "-" &&
      is_b32 c0 && is_b32 c1 && is_b32 c2 && is_b32 c3 &&
      is_b32 c4 && is_b32 c5 && is_b32 c6 && is_b32 c7 &&
      is_b32 c8 && is_b32 c9 && is_b32 c10 && is_b32 c11
  | _ => false
  end.

(** Entropy for two [Create] calls whose 16 id bytes differ and whose
    8 code bytes agree. *)
Definition entropy_a : string :=
  "aaaaaaaaaaaaaaaa" ++ "CODEBITS" ++ "hosttokenhosttokenhosttokenhostt".
Definition entropy_b : string :=
  "bbbbbbbbbbbbbbbb" ++ "CODEBITS" ++ "HOSTTOKENHOSTTOKENHOSTTOKENHOSTT".

(** A signalling server whose store holds one live session that nobody
    has joined yet, and a join request for its code. *)
Definition open_session : Session :=
  {| ID := "30313233"; Code := "AAAA-BBBB-CCCC"; HostToken := "aa"; JoinToken := "";
     HostConnected := true; JoinConnected := false;
     CreatedAt := t0; ExpiresAt := t0 + 15 * ratelimit.Minute |}.

Definition open_server : server.Server :=
  {| server.store :=
       {| sessions := {[ "30313233" := open_session ]};
          byCodes := {[ "AAAA-BBBB-CCCC" := "30313233" ]};
          ttl := 15 * ratelimit.Minute |};
     server.signer := signer;
     server.limiter := ratelimit.NewMultiLimiter;
     server.tokenTTL := 5 * ratelimit.Minute |}.

Definition join_request : server.Request :=
  {| server.Method := "POST"; server.ClientIP := "192.0.2.7";
     server.BodyCode := Some "aaaabbbbcccc" |}.

End examples.

(** ** The store under sequences of operations *)

Module store_ops.
Import session.

(** The calls a store receives. *)
Inductive op : Type :=
| OpCreate (now : Z) (entropy : string)
| OpJoin (code : string) (now : Z) (entropy : string)
| OpSetHostConnected (id : string) (connected : bool)
| OpSetJoinConnected (id : string) (connected : bool)
| OpDelete (id : string)
| OpCleanup (now : Z).

Section WithUnicode.
Variable unicode_upper : string -> string.

(** The store after a call; a call that returns an error has not
    written to it. *)
Definition apply (s : Store) (o : op) : Store :=
  match o with
  | OpCreate now entropy =>
      match Create unicode_upper s now entropy with
      | Ok (_, s', _) => s'
      | Err _ => s
      end
  | OpJoin code now entropy =>
      match Join s code now entropy with
      | Ok (_, s', _) => s'
      | Err _ => s
      end
  | OpSetHostConnected id connected =>
      match SetHostConnected s id connected with
      | Ok s' => s'
      | Err _ => s
      end
  | OpSetJoinConnected id connected =>
      match SetJoinConnected s id connected with
      | Ok s' => s'
      | Err _ => s
      end
  | OpDelete id => Delete s id
  | OpCleanup now => cleanup s now
  end.

Definition run (s : Store) (ops : list op) : Store := fold_left apply ops s.

(** The session id and the join code that [Create] draws from its
    random bytes; they do not depend on the store. *)
Definition drawn (entropy : string) : option (string * string) :=
  match generateID 16 entropy with
  | Err _ => None
  | Ok (id, entropy) =>
      match generateCode unicode_upper entropy with
      | Err _ => None
      | Ok (code, _) => Some (id, code)
      end
  end.

(** A call other than a [Create] that draws the session id [id] or the
    join code [code] anew. *)
Definition draws_apart (code id : string) (o : op) : bool :=
  match o with
  | OpCreate _ entropy =>
      match drawn entropy with
      | Some (id', code') => negb (String.eqb id' id) && negb (String.eqb code' code)
      | None => true
      end
  | _ => true
  end.

End WithUnicode.

(** A call that leaves the session [id] in the store when it expires at
    [expires]: not a [Delete] of it, and no tick of the janitor after
    that time. *)
Definition keeps (id : string) (expires : Z) (o : op) : bool :=
  match o with
  | OpDelete id' => negb (String.eqb id' id)
  | OpCleanup now => now <=? expires
  | _ => true
  end.

(** The code leads to nothing or to [id], and [id] to nothing or to a
    session that has the join token [joinToken] and expires at
    [expires]. *)
Definition joined (code id joinToken : string) (expires : Z) (s : Store) : Prop :=
  (byCodes s !! code = None \/ byCodes s !! code = Some id) /\
  (sessions s !! id = None \/
   exists x, sessions s !! id = Some x /\ JoinToken x = joinToken /\ ExpiresAt x = expires).

(** The code leads to [id], [id] to a session that has the join token
    [joinToken] and expires at [expires], and no other session of the
    store bears the code. *)
Definition still_joined (code id joinToken : string) (expires : Z) (s : Store) : Prop :=
  byCodes s !! code = Some id /\
  (exists x, sessions s !! id = Some x /\ JoinToken x = joinToken /\ ExpiresAt x = expires) /\
  (forall id' x, sessions s !! id' = Some x -> Code x = code -> id' = id).

(** A digit of [%x]. *)
Definition is_hex (c : ascii) : bool := in_range 48 57 c || in_range 97 102 c.

(** [n] hex digits. *)
Definition hex_of_length (n : nat) (s : string) : bool :=
  (String.length s =? n)%nat && all_bytes is_hex s.

(** What [Create] and [Join] put into a session stored under [id] by a
    store of lifetime [ttl]. *)
Definition session_ok (ttl : Z) (id : string) (sess : Session) : bool :=
  String.eqb (ID sess) id &&
  hex_of_length 32 id &&
  hex_of_length 64 (HostToken sess) &&
  (String.eqb (JoinToken sess) "" || hex_of_length 64 (JoinToken sess)) &&
  examples.is_code (Code sess) &&
  (ExpiresAt sess =? CreatedAt sess + ttl).

Definition well_formed (s : Store) : Prop :=
  forall id sess, sessions s !! id = Some sess -> session_ok (ttl s) id sess = true.

End store_ops.

(** ** Tokens as text *)

(** [strings.Count(s, sep)] for a one-byte separator. *)
Fixpoint count_byte (sep : ascii) (s : string) : nat :=
  match s with
  | "" => 0%nat
  | String c s' => ((if Ascii.eqb c sep then 1 else 0) + count_byte sep s')%nat
  end.


(** ** Strings through encoding/json *)



(** ** One bit of a token flipped *)

(** The low bits of the last character of the encoding of [n] bytes
    that carry no data: [RawURLEncoding] leaves four of them after a
    final group of one byte and two after a final group of two. *)
Definition spare_bits (n : nat) : N :=
  match Nat.modulo n 3 with
  | 1%nat => 4%N
  | 2%nat => 2%N
  | _ => 0%N
  end.

(** Flipping bit [k] of the character [c] gives a character of the
    alphabet whose value differs from that of [c] in its [u] low bits
    at most. *)
Definition spares (u : N) (k : nat) (c : ascii) : bool :=
  match Base64.value_of c, Base64.value_of (flip k c) with
  | Some v, Some v' => (N.shiftr v u =? N.shiftr v' u)%N
  | _, _ => false
  end.

(** Bit [k] of character [i] of the encoding of [src] is one the
    decoder does not read: the character is the last of the encoding
    and the flip touches its spare bits only. *)
Definition unread (src : string) (i k : nat) : bool :=
  let encoded := Base64.EncodeToString src in
  match String.get i encoded with
  | Some c =>
      (S i =? String.length encoded)%nat && spares (spare_bits (String.length src)) k c
  | None => false
  end.

(** The same for bit [k] of character [i] of the token that [Sign]
    makes of a payload and its signature; the dot between the two
    parts is always read. *)
Definition flip_unread (payload signature : string) (i k : nat) : bool :=
  let n := String.length (Base64.EncodeToString payload) in
  if (i <? n)%nat then unread payload i k
  else if (i =? n)%nat then false
  else unread signature (i - S n) k.
(** ** The relay: sockets and stale entries *)

(** The sockets an effect of the relay touches. *)
Definition conns_of (e : relay.effect) : list relay.conn :=
  match e with
  | relay.SetDeadline c _ | relay.Write c _ | relay.Close c => [c]
  | relay.Splice _ hostConn joinerConn => [hostConn; joinerConn]
  end.

(** [pending.CreatedAt.Before(threshold)] in [Relay.cleanup] at [now]. *)
Definition stale (r : relay.Relay) (now : Z) (p : relay.PendingConnection) : bool :=
  relay.CreatedAt p <? now - relay.pairTimeout r.



(** What reaches a relay that holds nothing but the connection [c],
    parked at [t1] under [sessionID], before the partner of [c] arrives
    at [t2]: turns of the wait loop of [c], whose deadline is no
    earlier than [pairTimeout] after [t1] (the loop takes it from a
    clock reading after the entry was made), and ticks of the janitor,
    all at clock readings up to [t2]. *)
Definition while_waiting (c : relay.conn) (sessionID : string) (t1 t2 pairTimeout : Z)
    (e : relay.event) : bool :=
  match e with
  | relay.Connect _ _ _ _ => false
  | relay.Turn c' sessionID' now deadline =>
      Nat.eqb c' c && String.eqb sessionID' sessionID &&
      (t1 + pairTimeout <=? deadline) && (now <=? t2)
  | relay.Tick now => now <=? t2
  end.
(** ** The signalling server: the other handlers *)

Module handlers.
Import session server.

Definition StatusUnauthorized : Z := 401.
Definition StatusForbidden : Z := 403.

(** What a handler writes after the status line: the text of an
    [http.Error], one of the JSON objects (by its fields), or nothing. *)
Inductive reply : Type :=
| PlainText (msg : string)
| CreateJSON (sessionId code hostToken relayToken : string) (expiresAt : Z)
| StatusJSON (sessionId : string) (hostConnected joinConnected : bool) (expiresAt : Z)
| ValidateJSON (sessionId role : string) (valid : bool)
| NoBody.

Record Answer : Type := {
  Status : Z;
  Reply : reply
}.

(** [http.Error(w, msg, code)]. *)
Definition httpError (msg : string) (code : Z) : Answer :=
  {| Status := code; Reply := PlainText msg |}.

(** [strings.TrimPrefix]. *)
Definition TrimPrefix (s prefix : string) : string :=
  if String.prefix prefix s then drop (String.length prefix) s else s.

(** What [handleSession] and the handlers behind it read of a request:
    method, path, the Authorization header ([Header.Get], empty when
    the header is absent) and, for a connect request, the role and the
    flag decoded from the body ([None] when decoding fails). *)
Record SessionRequest : Type := {
  SMethod : string;
  Path : string;
  Authorization : string;
  ConnectBody : option (string * bool)
}.

Section WithUnicode.
Variable unicode_upper : string -> string.

(** [Server.handleCreate], POST /session/create. *)
Definition handleCreate (s : Server) (r : Request) (now : Z) (entropy : string)
  : Answer * Server :=
  if negb (String.eqb (Method r) "POST")
  then (httpError "Method not allowed" StatusMethodNotAllowed, s)
  else
    let '(allowed, lim) := ratelimit.AllowCreate (limiter s) (ClientIP r) now in
    let s := with_limiter s lim in
    if negb allowed then (httpError "Rate limit exceeded" StatusTooManyRequests, s)
    else
      match Create unicode_upper (store s) now entropy with
      | Err _ => (httpError "Failed to create session" StatusInternalServerError, s)
      | Ok (sess, st, _) =>
          let s := with_store s st in
          match auth.CreateRelayToken (signer s) (ID sess) "host" (tokenTTL s) now with
          | Err _ => (httpError "Failed to create token" StatusInternalServerError, s)
          | Ok relayToken =>
              ({| Status := StatusOK;
                  Reply := CreateJSON (ID sess) (Code sess) (HostToken sess) relayToken
                             (auth.Unix (ExpiresAt sess)) |}, s)
          end
      end.

End WithUnicode.

(** [Server.handleStatus], GET /session/{id}/status. *)
Definition handleStatus (s : Server) (sessionID : string) (now : Z) : Answer :=
  match GetByID (store s) sessionID now with
  | None => httpError "Session not found" StatusNotFound
  | Some sess =>
      {| Status := StatusOK;
         Reply := StatusJSON (ID sess) (HostConnected sess) (JoinConnected sess)
                    (auth.Unix (ExpiresAt sess)) |}
  end.

(** [Server.handleConnect], POST /session/{id}/connect. *)
Definition handleConnect (s : Server) (body : option (string * bool)) (sessionID : string)
  : Answer * Server :=
  match body with
  | None => (httpError "Invalid request" StatusBadRequest, s)
  | Some (role, connected) =>
      let set :=
        if String.eqb role "host" then Some (SetHostConnected (store s) sessionID connected)
        else if String.eqb role "joiner"
        then Some (SetJoinConnected (store s) sessionID connected)
        else None in
      match set with
      | None => (httpError "Invalid role" StatusBadRequest, s)
      | Some (Err _) => (httpError "Session not found" StatusNotFound, s)
      | Some (Ok st) => ({| Status := StatusOK; Reply := NoBody |}, with_store s st)
      end
  end.

(** [Server.handleDelete], DELETE /session/{id}. *)
Definition handleDelete (s : Server) (authorization : string) (sessionID : string) (now : Z)
  : Answer * Server :=
  if String.eqb authorization ""
  then (httpError "Authorization required" StatusUnauthorized, s)
  else
    let token := TrimPrefix authorization "Bearer " in
    if negb (ValidateToken (store s) sessionID token "host" now)
    then (httpError "Invalid token" StatusForbidden, s)
    else ({| Status := StatusOK; Reply := NoBody |},
          with_store s (Delete (store s) sessionID)).

(** [Server.handleSession], the router of /session/. *)
Definition handleSession (s : Server) (r : SessionRequest) (now : Z) : Answer * Server :=
  match Split "/" (TrimPrefix (Path r) "/session/") with
  | [] => (httpError "Session ID required" StatusBadRequest, s)
  | sessionID :: rest =>
      if String.eqb sessionID ""
      then (httpError "Session ID required" StatusBadRequest, s)
      else
        let action := match rest with a :: _ => a | [] => "" end in
        if String.eqb (SMethod r) "GET" && String.eqb action "status"
        then (handleStatus s sessionID now, s)
        else if String.eqb (SMethod r) "POST" && String.eqb action "connect"
        then handleConnect s (ConnectBody r) sessionID
        else if String.eqb (SMethod r) "DELETE"
        then handleDelete s (Authorization r) sessionID now
        else (httpError "Not found" StatusNotFound, s)
  end.

(** [Server.handleValidate], POST /internal/validate; [body] is the
    token decoded from the request ([None] when decoding fails). *)
Definition handleValidate (s : Server) (method : string) (body : option string) (now : Z)
  : Answer :=
  if negb (String.eqb method "POST")
  then httpError "Method not allowed" StatusMethodNotAllowed
  else
    match body with
    | None => httpError "Invalid request" StatusBadRequest
    | Some token =>
        match auth.Verify (signer s) token (auth.Unix now) with
        | Err _ => httpError "Invalid token" StatusUnauthorized
        | Ok claims =>
            match GetByID (store s) (auth.SessionID claims) now with
            | None => httpError "Session not found" StatusNotFound
            | Some _ =>
                {| Status := StatusOK;
                   Reply := ValidateJSON (auth.SessionID claims) (auth.Role claims) true |}
            end
        end
    end.

End handlers.

(** ** The commands: settings from the environment *)

Module env.

(** [os.Getenv] in an environment, a map from names to values: the
    empty string for a variable that is not set. *)
Definition Getenv (e : gmap string string) (key : string) : string :=
  match e !! key with
  | Some val => val
  | None => ""
  end.

(** [getEnv]. *)
Definition getEnv (e : gmap string string) (key defaultVal : string) : string :=
  let val := Getenv e key in
  if negb (String.eqb val "") then val else defaultVal.

(** [getEnvInt]; [strconv.Atoi] is [ParseInt] in base 10 at the size of
    an int, 64 bits. *)
Definition getEnvInt (e : gmap string string) (key : string) (defaultVal : Z) : Z :=
  let val := Getenv e key in
  if negb (String.eqb val "") then
    match strconv.ParseInt val with
    | Some i => i
    | None => defaultVal
    end
  else defaultVal.

(** [getEnvBool]. *)
Definition getEnvBool (e : gmap string string) (key : string) (defaultVal : bool) : bool :=
  let val := Getenv e key in
  if negb (String.eqb val "")
  then String.eqb val "true" || String.eqb val "1" || String.eqb val "yes"
  else defaultVal.

End env.

(** ** The relay command: the remote check of a token *)

Module remote.

(** What [validateRemote] gets back from the signalling server: the
    status, and what [json.Decode] makes of the body, the fields
    sessionId, role and valid or an error. *)
Record response : Type := {
  RStatus : Z;
  Decoded : result (string * string * bool)
}.

(** [tokenValidator.validateRemote].  [post] is the request to
    /internal/validate with the token in its body: the error of
    [http.Post], or the response. *)
Definition validateRemote (post : string -> result response) (token : string)
  : result (string * string) :=
  match post token with
  | Err e => Err (ErrWrap "failed to contact signaling server" e)
  | Ok resp =>
      if negb (RStatus resp =? server.StatusOK)
      then Err (ErrMsg ("token validation failed: status " ++
                        strconv.FormatInt (RStatus resp)))
      else
        match Decoded resp with
        | Err e => Err (ErrWrap "failed to decode response" e)
        | Ok (sessionID, role, valid) =>
            if negb valid then Err (ErrMsg "token invalid") else Ok (sessionID, role)
        end
  end.

(** An answer of the signalling server as the relay reads it.  A JSON
    object is read by its field names, a missing field staying at its
    zero value; an empty body is the decoder's EOF.  The text of an
    [http.Error] is no JSON; the handlers send it with a status other
    than 200 only, where the body is not read. *)
Definition read (answer : handlers.Answer) : response :=
  {| RStatus := handlers.Status answer;
     Decoded :=
       match handlers.Reply answer with
       | handlers.ValidateJSON sessionID role valid => Ok (sessionID, role, valid)
       | handlers.CreateJSON sessionID _ _ _ _
       | handlers.StatusJSON sessionID _ _ _ => Ok (sessionID, "", false)
       | handlers.NoBody => Err (ErrMsg "EOF")
       | handlers.PlainText _ => Err (ErrMsg "invalid character")
       end |}.

End remote.

(** ** Codes as users type them *)

(** A byte in lower case. *)
Definition ascii_lower (c : ascii) : ascii :=
  if in_range 65 90 c then byte_of (byte_val c + 32) else c.

(** What matters of a base32 character to [normalizeCode]. *)
Definition b32_normal (c : ascii) : bool :=
  negb (Ascii.eqb c "-") && (byte_val c <? 128)%N && Ascii.eqb (ascii_upper c) c &&
  negb (Ascii.eqb (ascii_lower c) "-") && (byte_val (ascii_lower c) <? 128)%N &&
  Ascii.eqb (ascii_upper (ascii_lower c)) c.

(** ** The limiter, one client at a time *)

(** The entries of a limiter log that answer requests of [ip]. *)
Definition log_of (ip : string) (log : list (Z * string * bool)) : list (Z * string * bool) :=
  List.filter (fun entry => String.eqb (snd (fst entry)) ip) log.

(** The events of a trace that concern [ip]: its own requests, and the
    ticks of the janitor. *)
Definition trace_of (ip : string) (trace : list (Z * ratelimit.event))
  : list (Z * ratelimit.event) :=
  List.filter
    (fun e => match snd e with
              | ratelimit.Request ip' => String.eqb ip' ip
              | ratelimit.Tick => true
              end) trace.

(** Two limiters that hold the same record for [ip] and the same
    settings. *)
Definition agree (ip : string) (l1 l2 : ratelimit.Limiter) : Prop :=
  ratelimit.limiters l1 !! ip = ratelimit.limiters l2 !! ip /\
  ratelimit.rate l1 = ratelimit.rate l2 /\
  ratelimit.burst l1 = ratelimit.burst l2 /\
  ratelimit.cleanup l1 = ratelimit.cleanup l2.

(** ** Package bridge: the life cycle of a bridge *)

Module lifecycle.

(** [State], an int counted from [StateInit]. *)
Definition State : Type := Z.
Definition StateInit : State := 0.
Definition StateConnectingRelay : State := 3.
Definition StateConnected : State := 4.
Definition StateDisconnected : State := 5.
Definition StateError : State := 6.

(** A [net.Conn], by identity. *)
Definition conn : Type := nat.

(** [Bridge]: the state, the target address, the two sockets (nil or
    set), the last error of the statistics, whether a state-change
    callback is installed, and whether the stop channel is closed.  The
    byte counters of the statistics are those of [bridge.Stats]; the
    start time is not kept here. *)
Record Bridge : Type := {
  state : State;
  targetAddr : string;
  relayConn : option conn;
  localConn : option conn;
  LastError : string;
  onStateChange : bool;
  stopCh_closed : bool
}.

(** What a bridge does that others see: a call of the callback, the
    close of a socket. *)
Inductive effect : Type :=
| Notify (s : State)
| CloseConn (c : conn).

Definition NewBridge (targetAddr : string) : Bridge :=
  {| state := StateInit; targetAddr := targetAddr;
     relayConn := None; localConn := None; LastError := "";
     onStateChange := false; stopCh_closed := false |}.

(** [Bridge.SetStateChangeCallback]; [cb] tells whether the function
    passed is non-nil. *)
Definition SetStateChangeCallback (b : Bridge) (cb : bool) : Bridge :=
  {| state := state b; targetAddr := targetAddr b;
     relayConn := relayConn b; localConn := localConn b; LastError := LastError b;
     onStateChange := cb; stopCh_closed := stopCh_closed b |}.

Definition GetState (b : Bridge) : State := state b.

Definition with_state (b : Bridge) (s : State) : Bridge :=
  {| state := s; targetAddr := targetAddr b;
     relayConn := relayConn b; localConn := localConn b; LastError := LastError b;
     onStateChange := onStateChange b; stopCh_closed := stopCh_closed b |}.

(** [Bridge.setState]: the callback runs when the state has changed. *)
Definition setState (b : Bridge) (s : State) : Bridge * list effect :=
  (with_state b s,
   if negb (state b =? s) && onStateChange b then [Notify s] else []).

Definition close_of (c : option conn) : list effect :=
  match c with
  | Some c => [CloseConn c]
  | None => []
  end.

(** [Bridge.Close]. *)
Definition Close (b : Bridge) : Bridge * list effect :=
  if stopCh_closed b then (b, [])
  else
    ({| state := StateDisconnected; targetAddr := targetAddr b;
        relayConn := relayConn b; localConn := localConn b; LastError := LastError b;
        onStateChange := onStateChange b; stopCh_closed := true |},
     (close_of (localConn b) ++ close_of (relayConn b))%list).





(** [Bridge.ConnectRelay], up to the start of the two forwarding loops;
    [dial] is what dialling the game returns, a socket or the text of
    the error. *)
Definition ConnectRelay (b : Bridge) (relay : conn) (dial : string + conn)
  : Bridge * list effect * result unit :=
  let '(b1, notes) := setState b StateConnectingRelay in
  match dial with
  | inl err =>
      let b2 :=
        {| state := state b1; targetAddr := targetAddr b1;
           relayConn := relayConn b1; localConn := localConn b1;
           LastError := "failed to connect to game: " ++ err;
           onStateChange := onStateChange b1; stopCh_closed := stopCh_closed b1 |} in
      let '(b3, notes') := setState b2 StateError in
      (b3, (notes ++ notes')%list,
       Err (ErrWrap ("failed to connect to game at " ++ targetAddr b) (ErrMsg err)))
  | inr local =>
      let b2 :=
        {| state := state b1; targetAddr := targetAddr b1;
           relayConn := Some relay; localConn := Some local;
           LastError := LastError b1;
           onStateChange := onStateChange b1; stopCh_closed := stopCh_closed b1 |} in
      let '(b3, notes') := setState b2 StateConnected in
      (b3, (notes ++ notes')%list, Ok tt)
  end.

(** What a client does with its bridge, one call after another. *)
Inductive call : Type :=
| CallSetState (s : State)
| CallClose
| CallConnectRelay (relay : conn) (dial : string + conn)
| CallSetCallback (cb : bool).

Definition step (b : Bridge) (c : call) : Bridge * list effect :=
  match c with
  | CallSetState s => setState b s
  | CallClose => Close b
  | CallConnectRelay relay dial => fst (ConnectRelay b relay dial)
  | CallSetCallback cb => (SetStateChangeCallback b cb, [])
  end.

Fixpoint run (b : Bridge) (calls : list call) : Bridge * list effect :=
  match calls with
  | [] => (b, [])
  | c :: calls' =>
      let '(b1, effects) := step b c in
      let '(b2, effects') := run b1 calls' in
      (b2, (effects ++ effects')%list)
  end.

(** How often a socket is closed among the effects. *)
Definition closes (c : conn) (effects : list effect) : nat :=
  List.length
    (List.filter (fun e => match e with CloseConn c' => Nat.eqb c' c | _ => false end)
       effects).

(** The states the callback has been told, in order. *)
Definition notified (effects : list effect) : list State :=
  flat_map (fun e => match e with Notify s => [s] | _ => [] end) effects.

(** The states of a list that differ from the one before them, [prev]
    being before the first. *)
Fixpoint changes (prev : State) (states : list State) : list State :=
  match states with
  | [] => []
  | s :: states' => if prev =? s then changes s states' else s :: changes s states'
  end.

End lifecycle.

(** ** Further sample inputs *)

Module samples.
Import session.

(** A session is created, then joined under its code. *)
Definition some_calls : list store_ops.op :=
  [store_ops.OpCreate 0 examples.entropy_a;
   store_ops.OpJoin "INHU-IRKC-JFKF" 1 examples.entropy_b].

(** The relay of the samples with the host of session 30313233 waiting
    on socket 1. *)
Definition waiting_host : relay.PendingConnection :=
  {| relay.Conn := 1%nat; relay.PRole := "host"; relay.PSessionID := "30313233";
     relay.CreatedAt := examples.t0 |}.

Definition waiting_relay : relay.Relay :=
  relay.with_pending examples.the_relay {[ "30313233" := waiting_host ]}.

(** DELETE /session/30313233/status with the host token of the sample
    server. *)
Definition delete_via_status : handlers.SessionRequest :=
  {| handlers.SMethod := "DELETE"; handlers.Path := "/session/30313233/status";
     handlers.Authorization := "Bearer aa"; handlers.ConnectBody := None |}.

(** The exchange of a relay with the sample server at the sample time. *)
Definition post_to_open_server (token : string) : result remote.response :=
  Ok (remote.read (handlers.handleValidate examples.open_server "POST" (Some token)
                     examples.t0)).



(** What reaches the relay while the host of session 30313233, on
    socket 1 and parked at the sample time, waits for a second: turns
    of its wait loop, which ends 30 seconds after it was parked, and a
    tick of the janitor. *)
Definition host_waits : list relay.event :=
  [relay.Turn 1%nat "30313233" examples.t0 (examples.t0 + 30 * ratelimit.Second);
   relay.Turn 1%nat "30313233" (examples.t0 + 100 * 1000000)
     (examples.t0 + 30 * ratelimit.Second);
   relay.Tick (examples.t0 + 500 * 1000000);
   relay.Turn 1%nat "30313233" (examples.t0 + 900 * 1000000)
     (examples.t0 + 30 * ratelimit.Second)].

(** What the store of the sample server receives after the first join
    on the code AAAA-BBBB-CCCC, in the minute that follows: the joiner
    is marked connected, the janitor ticks, another session is created,
    the code is tried again, and a session that is not there is
    deleted. *)
Definition after_join : list store_ops.op :=
  [store_ops.OpSetJoinConnected "30313233" true;
   store_ops.OpCleanup (examples.t0 + 60 * ratelimit.Second);
   store_ops.OpCreate (examples.t0 + 61 * ratelimit.Second) examples.entropy_a;
   store_ops.OpJoin "AAAA-BBBB-CCCC" (examples.t0 + 62 * ratelimit.Second) examples.entropy_b;
   store_ops.OpDelete "00ff"].

End samples.

(** * Properties *)

(** ** Byte strings and entropy *)

Module gobytes_facts.
Lemma take_length n s : (n <= String.length s)%nat -> String.length (take n s) = n.
Proof.
  revert s. induction n as [|n IH]; intros [|c s] H; simpl in *; try reflexivity; try lia.
  rewrite IH by lia. reflexivity.
Qed.

Lemma drop_length n s : String.length (drop n s) = (String.length s - n)%nat.
Proof.
  revert s. induction n as [|n IH]; intros [|c s]; simpl; try reflexivity; try lia.
  apply IH.
Qed.

Lemma drop_drop n m s : drop n (drop m s) = drop (m + n) s.
Proof.
  revert s. induction m as [|m IH]; intros s; simpl; [reflexivity|].
  destruct s as [|c s]; [destruct n; reflexivity|]. apply IH.
Qed.

Lemma length8 s : String.length s = 8%nat ->
  exists b0 b1 b2 b3 b4 b5 b6 b7,
    s = String b0 (String b1 (String b2 (String b3
          (String b4 (String b5 (String b6 (String b7 ""))))))).
Proof.
  intros H.
  do 8 (destruct s as [|? s]; [discriminate H|]).
  destruct s; [|discriminate H]. repeat eexists.
Qed.

Lemma hex_encode_length b : String.length (hex_encode b) = (2 * String.length b)%nat.
Proof. induction b; simpl; [reflexivity|]. rewrite IHb. lia. Qed.

Lemma rand_Read_ok n entropy v rest :
  rand_Read n entropy = Ok (v, rest) ->
  (n <= String.length entropy)%nat /\ v = take n entropy /\ rest = drop n entropy.
Proof.
  unfold rand_Read. destruct (n <=? String.length entropy)%nat eqn:E; [|discriminate].
  intros [= <- <-]. apply Nat.leb_le in E. auto.
Qed.
End gobytes_facts.

Module bits_facts.
Open Scope N_scope.

Lemma byte_val_lt c : byte_val c < 256.
Proof. apply N_ascii_bounded. Qed.

Lemma byte_of_val c : byte_of (byte_val c) = c.
Proof. apply ascii_N_embedding. Qed.

Lemma byte_val_of n : n < 256 -> byte_val (byte_of n) = n.
Proof. apply N_ascii_embedding. Qed.

(** Or-ing a shifted value with one that fits below the shift adds. *)
Lemma lor_shiftl_add a k b : b < 2 ^ k -> N.lor (N.shiftl a k) b = a * 2 ^ k + b.
Proof.
  intros Hb.
  assert (Hland : N.land (N.shiftl a k) b = 0).
  { apply N.bits_inj_0. intros n. rewrite N.land_spec.
    destruct (N.lt_ge_cases n k) as [Hn|Hn].
    - rewrite N.shiftl_spec_low by exact Hn. reflexivity.
    - assert (Hbit : N.testbit b n = false).
      { destruct (N.eq_dec b 0) as [->|Hnz]; [apply N.bits_0|].
        apply N.bits_above_log2. apply N.log2_lt_pow2; [lia|].
        eapply N.lt_le_trans; [exact Hb|]. apply N.pow_le_mono_r; lia. }
      rewrite Hbit. apply andb_false_r. }
  rewrite <- N.lxor_lor by exact Hland.
  rewrite <- N.add_nocarry_lxor by exact Hland.
  rewrite N.shiftl_mul_pow2. reflexivity.
Qed.

Lemma land_shiftr_63 x k : N.land (N.shiftr x k) 63 = (x / 2 ^ k) mod 64.
Proof. rewrite N.shiftr_div_pow2. change 63 with (N.ones 6). apply N.land_ones. Qed.

Lemma land_shiftr_255 x k : N.land (N.shiftr x k) 255 = (x / 2 ^ k) mod 256.
Proof. rewrite N.shiftr_div_pow2. change 255 with (N.ones 8). apply N.land_ones. Qed.

(** A property of all numbers below a bound, checked by running through them. *)
Lemma below_forallb (p : N -> bool) (n : nat) :
  forallb p (map N.of_nat (seq 0 n)) = true ->
  forall v, v < N.of_nat n -> p v = true.
Proof.
  intros H v Hv. rewrite forallb_forall in H. apply H.
  apply in_map_iff. exists (N.to_nat v). split; [apply N2Nat.id|].
  apply in_seq. lia.
Qed.
End bits_facts.

Module base64_facts.
Import bits_facts Base64.
Open Scope N_scope.

Lemma val3_arith b0 b1 b2 :
  b1 < 256 -> b2 < 256 -> val3 b0 b1 b2 = b0 * 65536 + b1 * 256 + b2.
Proof.
  intros H1 H2. unfold val3.
  rewrite (lor_shiftl_add b1 8 b2) by (change (2 ^ 8) with 256; change (2 ^ 6) with 64; change (2 ^ 12) with 4096; change (2 ^ 16) with 65536; lia).
  rewrite lor_shiftl_add by (change (2 ^ 8) with 256; change (2 ^ 6) with 64; change (2 ^ 12) with 4096; change (2 ^ 16) with 65536; change (2 ^ 18) with 262144; lia).
  change (2 ^ 8) with 256; change (2 ^ 6) with 64; change (2 ^ 12) with 4096;
  change (2 ^ 16) with 65536; change (2 ^ 18) with 262144. lia.
Qed.

Lemma val4_arith v0 v1 v2 v3 :
  v1 < 64 -> v2 < 64 -> v3 < 64 ->
  val4 v0 v1 v2 v3 = v0 * 262144 + v1 * 4096 + v2 * 64 + v3.
Proof.
  intros H1 H2 H3. unfold val4.
  rewrite (lor_shiftl_add v2 6 v3) by (change (2 ^ 8) with 256; change (2 ^ 6) with 64; change (2 ^ 12) with 4096; change (2 ^ 16) with 65536; lia).
  rewrite (lor_shiftl_add v1 12) by (change (2 ^ 8) with 256; change (2 ^ 6) with 64; change (2 ^ 12) with 4096; change (2 ^ 16) with 65536; lia).
  rewrite lor_shiftl_add by (change (2 ^ 8) with 256; change (2 ^ 6) with 64; change (2 ^ 12) with 4096; change (2 ^ 16) with 65536; change (2 ^ 18) with 262144; lia).
  change (2 ^ 8) with 256; change (2 ^ 6) with 64; change (2 ^ 12) with 4096;
  change (2 ^ 16) with 65536; change (2 ^ 18) with 262144. lia.
Qed.

Lemma value_of_char_of v : v < 64 -> value_of (char_of v) = Some v.
Proof.
  intros Hv.
  apply (below_forallb
           (fun v => match value_of (char_of v) with
                     | Some v' => v =? v'
                     | None => false
                     end) 64 eq_refl) in Hv.
  destruct (value_of (char_of v)) as [v'|]; [|discriminate].
  apply N.eqb_eq in Hv. congruence.
Qed.

Lemma value_of_sextet val k : value_of (sextet val k) = Some ((val / 2 ^ k) mod 64).
Proof.
  unfold sextet. rewrite land_shiftr_63. apply value_of_char_of.
  apply N.mod_lt. discriminate.
Qed.

(** Characters of the alphabet are neither line breaks nor dots. *)
Lemma value_of_plain c v :
  value_of c = Some v -> is_newline c = false /\ Ascii.eqb c "." = false.
Proof.
  destruct c as [[] [] [] [] [] [] [] []]; vm_compute; intros H; try discriminate H;
    split; reflexivity.
Qed.
End base64_facts.
Module base64_roundtrip.
Import gobytes_facts bits_facts Base64 base64_facts.
Open Scope N_scope.

Lemma string_ind3 (P : string -> Prop) :
  P "" ->
  (forall a, P (String a "")) ->
  (forall a b, P (String a (String b ""))) ->
  (forall a b c s, P s -> P (String a (String b (String c s)))) ->
  forall s, P s.
Proof.
  intros H0 H1 H2 H3 s.
  assert (H : P s /\ (forall a, P (String a s)) /\ (forall a b, P (String a (String b s)))).
  { induction s as [|c s (IH0 & IH1 & IH2)].
    - auto.
    - split; [apply IH1|]. split; [intros a; apply IH2|].
      intros a b. apply H3. exact IH0. }
  apply H.
Qed.

Ltac pow2 :=
  change (2 ^ 0) with 1 in *; change (2 ^ 6) with 64 in *;
  change (2 ^ 8) with 256 in *; change (2 ^ 12) with 4096 in *;
  change (2 ^ 16) with 65536 in *; change (2 ^ 18) with 262144 in *.

Ltac divmod_lia := zify; Z.to_euclidean_division_equations; lia.

Lemma octet_eq val k c : (val / 2 ^ k) mod 256 = byte_val c -> octet val k = c.
Proof.
  intros H. unfold octet. rewrite land_shiftr_255, H. apply byte_of_val.
Qed.

Lemma sextets_sum val :
  val < 16777216 ->
  (val / 262144) mod 64 * 262144 + (val / 4096) mod 64 * 4096 +
  (val / 64) mod 64 * 64 + val mod 64 = val.
Proof. intros H. divmod_lia. Qed.

Lemma octets_val b0 b1 b2 :
  b0 < 256 -> b1 < 256 -> b2 < 256 ->
  let val := b0 * 65536 + b1 * 256 + b2 in
  val < 16777216 /\
  (val / 65536) mod 256 = b0 /\ (val / 256) mod 256 = b1 /\ (val / 1) mod 256 = b2.
Proof. intros H0 H1 H2 val. subst val. repeat split; divmod_lia. Qed.

Lemma quantum3 b0 b1 b2 :
  let val := val3 (byte_val b0) (byte_val b1) (byte_val b2) in
  let val' := val4 ((val / 2 ^ 18) mod 64) ((val / 2 ^ 12) mod 64)
                   ((val / 2 ^ 6) mod 64) ((val / 2 ^ 0) mod 64) in
  octet val' 16 = b0 /\ octet val' 8 = b1 /\ octet val' 0 = b2.
Proof.
  intros val val'. subst val'.
  destruct (octets_val _ _ _ (byte_val_lt b0) (byte_val_lt b1) (byte_val_lt b2))
    as (Hlt & E0 & E1 & E2).
  rewrite val4_arith by (apply N.mod_lt; discriminate).
  unfold val. rewrite val3_arith by apply byte_val_lt. pow2.
  rewrite N.div_1_r, sextets_sum by exact Hlt.
  repeat split; apply octet_eq; pow2; assumption.
Qed.

Lemma quantum2 b0 b1 :
  let val := val3 (byte_val b0) (byte_val b1) 0 in
  let val' := val4 ((val / 2 ^ 18) mod 64) ((val / 2 ^ 12) mod 64)
                   ((val / 2 ^ 6) mod 64) 0 in
  octet val' 16 = b0 /\ octet val' 8 = b1.
Proof.
  intros val val'. subst val'.
  destruct (octets_val _ _ 0 (byte_val_lt b0) (byte_val_lt b1) eq_refl)
    as (Hlt & E0 & E1 & _).
  rewrite val4_arith by (try (apply N.mod_lt; discriminate); reflexivity).
  unfold val. rewrite val3_arith by (try apply byte_val_lt; reflexivity). pow2.
  set (v := byte_val b0 * 65536 + byte_val b1 * 256 + 0) in *.
  assert (Hz : v mod 64 = 0).
  { unfold v. replace (byte_val b0 * 65536 + byte_val b1 * 256 + 0)
      with ((byte_val b0 * 1024 + byte_val b1 * 4) * 64) by lia.
    apply N.Div0.mod_mul. }
  assert (Hs : (v / 262144) mod 64 * 262144 + (v / 4096) mod 64 * 4096 +
               (v / 64) mod 64 * 64 + 0 = v)
    by (rewrite <- Hz at 1; apply sextets_sum; exact Hlt).
  rewrite Hs.
  repeat split; apply octet_eq; pow2; assumption.
Qed.

Lemma quantum1 b0 :
  let val := val3 (byte_val b0) 0 0 in
  let val' := val4 ((val / 2 ^ 18) mod 64) ((val / 2 ^ 12) mod 64) 0 0 in
  octet val' 16 = b0.
Proof.
  intros val val'. subst val'.
  destruct (octets_val _ 0 0 (byte_val_lt b0) eq_refl eq_refl) as (Hlt & E0 & _ & _).
  rewrite val4_arith by (try (apply N.mod_lt; discriminate); reflexivity).
  unfold val. rewrite val3_arith by reflexivity. pow2.
  set (v := byte_val b0 * 65536 + 0 * 256 + 0) in *.
  assert (Hz6 : (v / 64) mod 64 = 0).
  { unfold v. replace (byte_val b0 * 65536 + 0 * 256 + 0)
      with ((byte_val b0 * 16) * 64 * 64) by lia.
    rewrite N.div_mul by discriminate. apply N.Div0.mod_mul. }
  assert (Hz : v mod 64 = 0).
  { unfold v. replace (byte_val b0 * 65536 + 0 * 256 + 0)
      with ((byte_val b0 * 1024) * 64) by lia.
    apply N.Div0.mod_mul. }
  assert (Hs : (v / 262144) mod 64 * 262144 + (v / 4096) mod 64 * 4096 +
               0 * 64 + 0 = v)
    by (rewrite <- Hz at 2; rewrite <- Hz6 at 1; apply sextets_sum; exact Hlt).
  rewrite Hs.
  apply octet_eq; pow2; assumption.
Qed.

Lemma decode_quanta_encode src : decode_quanta (EncodeToString src) = Some src.
Proof.
  induction src as [|a|a b|a b c s IH] using string_ind3;
    cbn [EncodeToString decode_quanta]; rewrite ?value_of_sextet.
  - reflexivity.
  - rewrite (quantum1 a). reflexivity.
  - destruct (quantum2 a b) as (-> & ->). reflexivity.
  - rewrite IH. destruct (quantum3 a b c) as (-> & -> & ->). reflexivity.
Qed.

Lemma sextet_plain val k : plain (sextet val k) = true.
Proof.
  destruct (value_of_plain _ _ (value_of_sextet val k)) as (H1 & H2).
  unfold plain. rewrite H1, H2. reflexivity.
Qed.

Lemma encode_plain src : all_bytes plain (EncodeToString src) = true.
Proof.
  induction src as [|a|a b|a b c s IH] using string_ind3;
    cbn [EncodeToString all_bytes]; rewrite ?sextet_plain, ?IH; reflexivity.
Qed.

Lemma filter_plain s :
  all_bytes plain s = true -> filter_bytes (fun c => negb (is_newline c)) s = s.
Proof.
  induction s as [|c s IH]; cbn [all_bytes filter_bytes]; [reflexivity|].
  intros H. apply andb_prop in H as [Hc Hs]. unfold plain in Hc.
  apply andb_prop in Hc as [Hc _]. rewrite Hc, IH by exact Hs. reflexivity.
Qed.

(** [DecodeString] undoes [EncodeToString]. *)
Lemma DecodeString_EncodeToString src : DecodeString (EncodeToString src) = Some src.
Proof.
  unfold DecodeString. rewrite filter_plain by apply encode_plain.
  apply decode_quanta_encode.
Qed.
End base64_roundtrip.
Module utf8_facts.
Import bits_facts UTF8 base64_facts base64_roundtrip.
Open Scope N_scope.

Lemma in_all_bytes_list b : In b all_bytes_list.
Proof.
  unfold all_bytes_list. apply in_map_iff. exists (nat_of_ascii b).
  split; [apply ascii_nat_embedding|]. apply in_seq.
  pose proof (nat_ascii_bounded b). lia.
Qed.

Lemma forall_bytes_spec p : forall_bytes p = true -> forall b, p b = true.
Proof.
  unfold forall_bytes. rewrite forallb_forall. intros H b. apply H, in_all_bytes_list.
Qed.

Lemma in_range_spec lo hi c :
  in_range lo hi c = true <-> lo <= byte_val c /\ byte_val c <= hi.
Proof.
  unfold in_range. rewrite andb_true_iff, !N.leb_le. reflexivity.
Qed.

(** Encoding the rune decoded from a well-formed sequence gives the
    sequence back: checked on every sequence of two and of three bytes. *)
Lemma encode_decode2 b0 b1 :
  in_range 0xC2 0xDF b0 = true -> in_range 0x80 0xBF b1 = true ->
  let s := String b0 (String b1 "") in
  EncodeRune (fst (DecodeRune s)) = s.
Proof.
  intros H0 H1 s.
  assert (C : forall_bytes (fun b0 =>
    if in_range 0xC2 0xDF b0 then
      forall_bytes (fun b1 =>
        if in_range 0x80 0xBF b1 then
          String.eqb (EncodeRune (fst (DecodeRune (String b0 (String b1 "")))))
            (String b0 (String b1 ""))
        else true)
    else true) = true) by (vm_compute; reflexivity).
  pose proof (forall_bytes_spec _ C b0) as C0. cbv beta in C0. rewrite H0 in C0.
  pose proof (forall_bytes_spec _ C0 b1) as C1. cbv beta in C1. rewrite H1 in C1.
  apply String.eqb_eq. exact C1.
Qed.

Lemma encode_decode3 b0 b1 b2 c :
  in_range 0xE0 0xEF b0 = true -> in_range 0x80 0xBF b1 = true ->
  in_range 0x80 0xBF b2 = true ->
  let s := String b0 (String b1 (String b2 "")) in
  DecodeRune s = (c, 3%nat) -> EncodeRune c = s.
Proof.
  intros H0 H1 H2 s Hd.
  assert (C : forall_bytes (fun b0 =>
    if in_range 0xE0 0xEF b0 then
      forall_bytes (fun b1 =>
        if in_range 0x80 0xBF b1 then
          forall_bytes (fun b2 =>
            if in_range 0x80 0xBF b2 then
              match DecodeRune (String b0 (String b1 (String b2 ""))) with
              | (c, 3%nat) =>
                  String.eqb (EncodeRune c) (String b0 (String b1 (String b2 "")))
              | _ => true
              end
            else true)
        else true)
    else true) = true) by (vm_compute; reflexivity).
  pose proof (forall_bytes_spec _ C b0) as C0. cbv beta in C0. rewrite H0 in C0.
  pose proof (forall_bytes_spec _ C0 b1) as C1. cbv beta in C1. rewrite H1 in C1.
  pose proof (forall_bytes_spec _ C1 b2) as C2. cbv beta in C2. rewrite H2 in C2.
  fold s in C2. rewrite Hd in C2. apply String.eqb_eq. exact C2.
Qed.

(** The bit fields of a lead byte of four and of a continuation byte. *)
Lemma lead4_bits b :
  in_range 0xF0 0xF4 b = true ->
  N.land (byte_val b) 7 = byte_val b - 0xF0 /\
  byte_of (N.lor 0xF0 (byte_val b - 0xF0)) = b.
Proof.
  intros H.
  assert (C : forall_bytes (fun b =>
    if in_range 0xF0 0xF4 b then
      (N.land (byte_val b) 7 =? byte_val b - 0xF0) &&
      Ascii.eqb (byte_of (N.lor 0xF0 (byte_val b - 0xF0))) b
    else true) = true) by (vm_compute; reflexivity).
  pose proof (forall_bytes_spec _ C b) as C0. cbv beta in C0. rewrite H in C0.
  apply andb_prop in C0 as [C1 C2].
  split; [apply N.eqb_eq, C1 | apply Ascii.eqb_eq, C2].
Qed.

Lemma cont_bits b :
  in_range 0x80 0xBF b = true ->
  low6 b = byte_val b - 0x80 /\
  byte_of (N.lor 0x80 (byte_val b - 0x80)) = b.
Proof.
  intros H.
  assert (C : forall_bytes (fun b =>
    if in_range 0x80 0xBF b then
      (low6 b =? byte_val b - 0x80) &&
      Ascii.eqb (byte_of (N.lor 0x80 (byte_val b - 0x80))) b
    else true) = true) by (vm_compute; reflexivity).
  pose proof (forall_bytes_spec _ C b) as C0. cbv beta in C0. rewrite H in C0.
  apply andb_prop in C0 as [C1 C2].
  split; [apply N.eqb_eq, C1 | apply Ascii.eqb_eq, C2].
Qed.

Lemma cont_byte_field r k b :
  in_range 0x80 0xBF b = true ->
  (r / 2 ^ k) mod 64 = byte_val b - 0x80 ->
  cont_byte r k = b.
Proof.
  intros Hb H. unfold cont_byte. rewrite land_shiftr_63, H.
  apply (cont_bits b Hb).
Qed.

Lemma encode_decode4 b0 b1 b2 b3 c :
  let s := String b0 (String b1 (String b2 (String b3 ""))) in
  DecodeRune s = (c, 4%nat) -> EncodeRune c = s.
Proof.
  intros s. unfold s, DecodeRune.
  destruct (byte_val b0 <? 128) eqn:E0; [intros [= _ H]; discriminate H|].
  destruct (in_range 0xC2 0xDF b0) eqn:E2.
  { destruct (in_range 0x80 0xBF b1); intros [= _ H]; discriminate H. }
  destruct (in_range 0xE0 0xEF b0) eqn:E3.
  { destruct (_ && _); intros [= _ H]; discriminate H. }
  destruct (in_range 0xF0 0xF4 b0) eqn:E4; [|intros [= _ H]; discriminate H].
  destruct (_ && _ && _) eqn:Ec; [|intros [= _ H]; discriminate H].
  intros [= <-].
  apply andb_prop in Ec as [Ec Hb3]. apply andb_prop in Ec as [Hb1 Hb2].
  assert (Hc1 : in_range 0x80 0xBF b1 = true).
  { apply in_range_spec in Hb1. apply in_range_spec.
    destruct (byte_val b0 =? 0xF0), (byte_val b0 =? 0xF4); lia. }
  destruct (lead4_bits b0 E4) as (La & Lb).
  destruct (cont_bits b1 Hc1) as (L1 & _).
  destruct (cont_bits b2 Hb2) as (L2 & _).
  destruct (cont_bits b3 Hb3) as (L3 & _).
  apply in_range_spec in E4, Hc1, Hb2, Hb3, Hb1.
  rewrite La, L1, L2, L3.
  set (A := byte_val b0 - 0xF0). set (B := byte_val b1 - 0x80).
  set (C := byte_val b2 - 0x80). set (D := byte_val b3 - 0x80).
  change (N.lor (N.shiftl A 18) (N.lor (N.shiftl B 12) (N.lor (N.shiftl C 6) D)))
    with (Base64.val4 A B C D).
  rewrite val4_arith by (unfold B, C, D; lia).
  set (r := A * 262144 + B * 4096 + C * 64 + D).
  assert (Hlo : 0x10000 <= r).
  { unfold r, A, B, C, D.
    destruct (N.eqb_spec (byte_val b0) 0xF0) as [e|e]; lia. }
  assert (Hhi : r <= 0x10FFFF).
  { unfold r, A, B, C, D.
    destruct (N.eqb_spec (byte_val b0) 0xF0) as [e|e];
      destruct (N.eqb_spec (byte_val b0) 0xF4) as [e'|e']; lia. }
  unfold EncodeRune, IsSurrogate, MaxRune.
  destruct (N.leb_spec r 0x7F); [lia|].
  destruct (N.leb_spec r 0x7FF); [lia|].
  destruct (N.ltb_spec 0x10FFFF r); [lia|].
  destruct (N.leb_spec 0xD800 r); [|lia].
  destruct (N.ltb_spec r 0xE000); [lia|].
  destruct (N.leb_spec r 0xFFFF); [lia|]. cbn [andb orb].
  assert (HA : N.shiftr r 18 = A).
  { rewrite N.shiftr_div_pow2. unfold r, A, B, C, D. pow2. divmod_lia. }
  rewrite HA. replace (byte_of (N.lor 240 A)) with b0 by (symmetry; exact Lb).
  rewrite (cont_byte_field r 12 b1), (cont_byte_field r 6 b2), (cont_byte_field r 0 b3);
    try reflexivity; try (apply in_range_spec; assumption);
    unfold r, A, B, C, D; pow2; divmod_lia.
Qed.
End utf8_facts.
Module json_facts.
Import gobytes_facts bits_facts UTF8 JSON utf8_facts.
Open Scope N_scope.

Lemma append_assoc (a b c : string) : (a ++ b) ++ c = a ++ (b ++ c).
Proof. induction a as [|x a IH]; [reflexivity|]. cbn. rewrite <- IH. reflexivity. Qed.

Lemma append_nil_r (a : string) : a ++ "" = a.
Proof. induction a as [|x a IH]; [reflexivity|]. cbn. rewrite <- IH at 2. reflexivity. Qed.

Lemma DecodeRune_ascii b0 s1 :
  (byte_val b0 <? 128) = true -> DecodeRune (String b0 s1) = (byte_val b0, 1%nat).
Proof. intros H. unfold DecodeRune. rewrite H. reflexivity. Qed.

Lemma DecodeRune_inv b0 s1 c n :
  (byte_val b0 <? 128) = false ->
  DecodeRune (String b0 s1) = (c, n) ->
  n = 1%nat \/
  (n = 2%nat /\ exists b1 s2, s1 = String b1 s2 /\
     in_range 0xC2 0xDF b0 = true /\ in_range 0x80 0xBF b1 = true) \/
  (n = 3%nat /\ exists b1 b2 s3, s1 = String b1 (String b2 s3) /\
     in_range 0xC2 0xDF b0 = false /\ in_range 0xE0 0xEF b0 = true /\
     in_range 0x80 0xBF b1 = true /\ in_range 0x80 0xBF b2 = true) \/
  (n = 4%nat /\ exists b1 b2 b3 s4, s1 = String b1 (String b2 (String b3 s4)) /\
     in_range 0xC2 0xDF b0 = false /\ in_range 0xE0 0xEF b0 = false /\
     in_range 0xF0 0xF4 b0 = true).
Proof.
  intros E0. unfold DecodeRune. rewrite E0.
  destruct (in_range 0xC2 0xDF b0) eqn:E2.
  { destruct s1 as [|b1 s2]; [intros [= _ <-]; auto|].
    destruct (in_range 0x80 0xBF b1) eqn:E; intros [= _ <-]; [|auto].
    right. left. split; [reflexivity|]. eauto. }
  destruct (in_range 0xE0 0xEF b0) eqn:E3.
  { destruct s1 as [|b1 [|b2 s3]]; try (intros [= _ <-]; auto; fail).
    destruct (_ && _) eqn:E; intros [= _ <-]; [|auto].
    right. right. left. split; [reflexivity|]. exists b1, b2, s3.
    apply andb_prop in E as [E1 Eb2]. repeat split; try assumption.
    apply in_range_spec in E1. apply in_range_spec.
    destruct (byte_val b0 =? 0xE0), (byte_val b0 =? 0xED); lia. }
  destruct (in_range 0xF0 0xF4 b0) eqn:E4; [|intros [= _ <-]; auto].
  destruct s1 as [|b1 [|b2 [|b3 s4]]]; try (intros [= _ <-]; auto; fail).
  destruct (_ && _ && _) eqn:E; intros [= _ <-]; [|auto].
  right. right. right. split; [reflexivity|]. exists b1, b2, b3, s4. auto.
Qed.

(** The rune at the head of a string depends on its encoding only. *)
Lemma DecodeRune_2 b0 b1 t t' :
  in_range 0xC2 0xDF b0 = true ->
  DecodeRune (String b0 (String b1 t)) = DecodeRune (String b0 (String b1 t')).
Proof. intros H. unfold DecodeRune. rewrite H. reflexivity. Qed.

Lemma DecodeRune_3 b0 b1 b2 t t' :
  in_range 0xC2 0xDF b0 = false -> in_range 0xE0 0xEF b0 = true ->
  DecodeRune (String b0 (String b1 (String b2 t))) =
  DecodeRune (String b0 (String b1 (String b2 t'))).
Proof. intros H H'. unfold DecodeRune. rewrite H, H'. reflexivity. Qed.

Lemma DecodeRune_4 b0 b1 b2 b3 t t' :
  in_range 0xC2 0xDF b0 = false -> in_range 0xE0 0xEF b0 = false ->
  DecodeRune (String b0 (String b1 (String b2 (String b3 t)))) =
  DecodeRune (String b0 (String b1 (String b2 (String b3 t')))).
Proof. intros H H'. unfold DecodeRune. rewrite H, H'. reflexivity. Qed.

(** One escaped ASCII byte is read back as that byte. *)
Lemma unquote_escape_ascii b tail :
  (byte_val b <? 128) = true ->
  unquote_body (escape_ascii b ++ tail) = emit (String b "") (unquote_body tail).
Proof.
  destruct b as [[] [] [] [] [] [] [] []]; intros H;
    try (vm_compute in H; discriminate H); reflexivity.
Qed.

Lemma unquote_body_high b0 s1 :
  (byte_val b0 <? 128) = false ->
  unquote_body (String b0 s1) =
    match DecodeRune (String b0 s1) with
    | (rr, 2%nat) =>
        match s1 with
        | String _ s2 => emit (EncodeRune rr) (unquote_body s2)
        | _ => None
        end
    | (rr, 3%nat) =>
        match s1 with
        | String _ (String _ s3) => emit (EncodeRune rr) (unquote_body s3)
        | _ => None
        end
    | (rr, 4%nat) =>
        match s1 with
        | String _ (String _ (String _ s4)) => emit (EncodeRune rr) (unquote_body s4)
        | _ => None
        end
    | (rr, _) => emit (EncodeRune rr) (unquote_body s1)
    end.
Proof.
  intros E0. apply N.ltb_ge in E0 as Hge.
  cbn [unquote_body]. unfold is_char.
  destruct (N.eqb_spec (byte_val b0) 34); [lia|].
  destruct (N.eqb_spec (byte_val b0) 92); [lia|].
  destruct (N.ltb_spec (byte_val b0) 32); [lia|].
  rewrite E0. reflexivity.
Qed.

Lemma unquote_u h1 h2 h3 h4 rr rest :
  getu4 h1 h2 h3 h4 = Some rr -> IsSurrogate rr = false ->
  unquote_body (String backslash (String "u"
    (String h1 (String h2 (String h3 (String h4 rest)))))) =
  emit (EncodeRune rr) (unquote_body rest).
Proof.
  intros Hg Hs.
  change (unquote_body (String backslash (String "u"
            (String h1 (String h2 (String h3 (String h4 rest)))))))
    with (match getu4 h1 h2 h3 h4 with
          | None => None
          | Some rr =>
              if IsSurrogate rr then
                match rest with
                | String e1 (String e2
                    (String k1 (String k2 (String k3 (String k4 s4))))) =>
                    match (if is_char 0x5C e1 && is_char 0x75 e2
                           then getu4 k1 k2 k3 k4 else None) with
                    | Some rr1 =>
                        if DecodeSurrogates rr rr1 =? RuneError
                        then emit (EncodeRune RuneError) (unquote_body rest)
                        else emit (EncodeRune (DecodeSurrogates rr rr1))
                               (unquote_body s4)
                    | None => emit (EncodeRune RuneError) (unquote_body rest)
                    end
                | _ => emit (EncodeRune RuneError) (unquote_body rest)
                end
              else emit (EncodeRune rr) (unquote_body rest)
          end).
  rewrite Hg, Hs. reflexivity.
Qed.

Lemma emit_Some out s rest : emit out (Some (s, rest)) = Some (out ++ s, rest).
Proof. reflexivity. Qed.

(** What [encode_body] writes for a valid string, followed by a quote,
    is read back by [unquote_body] as that string. *)
Lemma unquote_encode_body_len n : forall s tail,
  (String.length s <= n)%nat ->
  ValidString s = true ->
  unquote_body (encode_body s ++ String dquote tail) = Some (s, tail).
Proof.
  induction n as [|n IH]; intros [|b0 s1] tail Hlen Hv;
    try reflexivity; cbn [String.length] in Hlen; [lia|].
  destruct (byte_val b0 <? 128) eqn:E0.
  - (* one ASCII byte *)
    cbn [ValidString] in Hv. rewrite (DecodeRune_ascii _ _ E0), E0 in Hv.
    cbn [andb] in Hv.
    cbn [encode_body]. rewrite E0, append_assoc, unquote_escape_ascii by exact E0.
    rewrite IH by (try lia; exact Hv). reflexivity.
  - destruct (DecodeRune (String b0 s1)) as [c k] eqn:Ed.
    destruct (DecodeRune_inv _ _ _ _ E0 Ed)
      as [->|[(-> & b1 & s2 & -> & L0 & L1)
             |[(-> & b1 & b2 & s3 & -> & L0 & L0' & L1 & L2)
              |(-> & b1 & b2 & b3 & s4 & -> & L0 & L0' & L0'')]]].
    + (* invalid *)
      cbn [ValidString] in Hv. rewrite Ed, E0 in Hv. discriminate Hv.
    + (* two bytes *)
      cbn [ValidString] in Hv. rewrite Ed in Hv.
      cbn [encode_body]. rewrite E0, Ed. cbn [String.append].
      rewrite unquote_body_high by exact E0.
      rewrite (DecodeRune_2 b0 b1 _ s2 L0), Ed.
      rewrite IH by (try (cbn [String.length] in Hlen; lia); exact Hv).
      rewrite emit_Some. rewrite (DecodeRune_2 b0 b1 s2 "" L0) in Ed.
      pose proof (encode_decode2 b0 b1 L0 L1) as He. cbv zeta in He.
      rewrite Ed in He. cbn [fst] in He. rewrite He. reflexivity.
    + (* three bytes *)
      cbn [ValidString] in Hv. rewrite Ed in Hv.
      cbn [encode_body]. rewrite E0, Ed.
      pose proof Ed as Ed'. rewrite (DecodeRune_3 b0 b1 b2 s3 "" L0 L0') in Ed'.
      pose proof (encode_decode3 b0 b1 b2 c L0' L1 L2 Ed') as He.
      destruct ((c =? 0x2028) || (c =? 0x2029)) eqn:Esep.
      * (* U+2028 and U+2029 are escaped *)
        cbn [String.append].
        assert (Hc : c = 0x2028 \/ c = 0x2029).
        { apply orb_prop in Esep as [E|E]; apply N.eqb_eq in E; auto. }
        destruct Hc as [-> | ->]; vm_compute in He; injection He as <- <- <-.
        -- rewrite (unquote_u "2" "0" "2" "8" 0x2028 _ eq_refl eq_refl).
           rewrite IH by (try (cbn [String.length] in Hlen; lia); exact Hv).
           reflexivity.
        -- rewrite (unquote_u "2" "0" "2" "9" 0x2029 _ eq_refl eq_refl).
           rewrite IH by (try (cbn [String.length] in Hlen; lia); exact Hv).
           reflexivity.
      * cbn [String.append].
        rewrite unquote_body_high by exact E0.
        rewrite (DecodeRune_3 b0 b1 b2 _ s3 L0 L0'), Ed.
        rewrite IH by (try (cbn [String.length] in Hlen; lia); exact Hv).
        rewrite emit_Some, He. reflexivity.
    + (* four bytes *)
      cbn [ValidString] in Hv. rewrite Ed in Hv.
      cbn [encode_body]. rewrite E0, Ed. cbn [String.append].
      rewrite unquote_body_high by exact E0.
      rewrite (DecodeRune_4 b0 b1 b2 b3 _ s4 L0 L0'), Ed.
      rewrite IH by (try (cbn [String.length] in Hlen; lia); exact Hv).
      rewrite emit_Some. rewrite (DecodeRune_4 b0 b1 b2 b3 s4 "" L0 L0') in Ed.
      rewrite (encode_decode4 b0 b1 b2 b3 c Ed). reflexivity.
Qed.

Lemma unquote_encode_body s tail :
  ValidString s = true ->
  unquote_body (encode_body s ++ String dquote tail) = Some (s, tail).
Proof. apply (unquote_encode_body_len (String.length s)). lia. Qed.
End json_facts.
Module strconv_facts.
Import JSON strconv.

Lemma span_digits_uint d c tail :
  is_digit c = false ->
  span_digits (DecimalString.NilEmpty.string_of_uint d ++ String c tail)
    = (DecimalString.NilEmpty.string_of_uint d, String c tail).
Proof.
  intros Hc. induction d; cbn [DecimalString.NilEmpty.string_of_uint String.append span_digits];
    try (rewrite Hc; reflexivity);
    rewrite IHd; reflexivity.
Qed.

Lemma nzhead_not_D0 d u : nzhead d <> D0 u.
Proof. induction d; cbn [nzhead]; try discriminate. exact IHd. Qed.

(** The digits of a positive number: not empty, no leading zero. *)
Lemma to_uint_head p :
  exists c ds, DecimalString.NilEmpty.string_of_uint (Pos.to_uint p) = String c ds /\
    is_digit c = true /\ is_char 0x30 c = false /\ is_char 0x2D c = false /\
    Ascii.eqb c "-" = false /\ Ascii.eqb c "+" = false /\
    exists d', ds = DecimalString.NilEmpty.string_of_uint d'.
Proof.
  pose proof (DecimalPos.Unsigned.to_of (Pos.to_uint p)) as H.
  rewrite DecimalPos.Unsigned.of_to in H. cbn [N.to_uint] in H.
  pose proof (DecimalPos.Unsigned.to_uint_nonzero p) as Hnz.
  unfold unorm in H.
  destruct (Pos.to_uint p) as [|d|d|d|d|d|d|d|d|d|d] eqn:E;
    cbn [nzhead] in H;
    try (eexists _, _; split; [reflexivity|]; repeat split; eauto; fail).
  - discriminate H.
  - exfalso. destruct (nzhead d) eqn:En; try discriminate H.
    + injection H as ->. apply Hnz. reflexivity.
    + apply (nzhead_not_D0 _ _ En).
Qed.

Lemma NilZero_pos p :
  DecimalString.NilZero.string_of_uint (Pos.to_uint p)
    = DecimalString.NilEmpty.string_of_uint (Pos.to_uint p).
Proof.
  pose proof (DecimalPos.Unsigned.to_uint_nonnil p).
  destruct (Pos.to_uint p); [contradiction|reflexivity..].
Qed.

Lemma scan_tail c tail :
  is_char 0x2E c = false -> is_char 0x65 c = false -> is_char 0x45 c = false ->
  scan_frac (String c tail) = Some ("", String c tail) /\
  scan_exp (String c tail) = Some ("", String c tail).
Proof.
  intros H1 H2 H3. unfold scan_frac, scan_exp. rewrite H1, H2, H3. auto.
Qed.

Lemma scan_number_digits p c tail :
  is_digit c = false ->
  is_char 0x2E c = false -> is_char 0x65 c = false -> is_char 0x45 c = false ->
  let ds := DecimalString.NilEmpty.string_of_uint (Pos.to_uint p) in
  scan_number (ds ++ String c tail) = Some (ds, String c tail) /\
  scan_number (String "-" ds ++ String c tail) = Some (String "-" ds, String c tail).
Proof.
  intros Hd H1 H2 H3 ds. destruct (scan_tail c tail H1 H2 H3) as (Hf & He).
  destruct (to_uint_head p) as (d0 & ds' & E & Hdig & Hz & Hm & _ & _ & d' & ->).
  subst ds. rewrite E.
  split.
  - unfold scan_number. cbn [String.append]. rewrite Hm, Hz, Hdig.
    rewrite (span_digits_uint d' c tail Hd), Hf, He.
    cbn [String.append]. rewrite !json_facts.append_nil_r. reflexivity.
  - unfold scan_number. cbn [String.append].
    change (is_char 45 "-") with true. cbv iota beta. rewrite Hz, Hdig.
    rewrite (span_digits_uint d' c tail Hd), Hf, He.
    cbn [String.append]. rewrite !json_facts.append_nil_r. reflexivity.
Qed.

(** A printed int64 followed by a closing character is scanned as one
    number literal. *)
Lemma scan_number_FormatInt z c tail :
  is_digit c = false ->
  is_char 0x2E c = false -> is_char 0x65 c = false -> is_char 0x45 c = false ->
  scan_number (FormatInt z ++ String c tail) = Some (FormatInt z, String c tail).
Proof.
  intros Hd H1 H2 H3. unfold FormatInt. destruct z as [|p|p]; cbn [Z.to_int].
  - destruct (scan_tail c tail H1 H2 H3) as (Hf & He).
    change (DecimalString.NilZero.string_of_int (Decimal.Pos (D0 Nil))) with "0".
    unfold scan_number. cbn [String.append].
    change (is_char 45 "0") with false. cbv iota beta.
    change (is_char 48 "0") with true. cbv iota beta.
    rewrite Hf, He. reflexivity.
  - cbn [DecimalString.NilZero.string_of_int]. rewrite NilZero_pos.
    apply scan_number_digits; assumption.
  - cbn [DecimalString.NilZero.string_of_int]. rewrite NilZero_pos.
    apply scan_number_digits; assumption.
Qed.

Lemma ParseInt_digits p :
  let ds := DecimalString.NilEmpty.string_of_uint (Pos.to_uint p) in
  (in_int64 (Z.pos p) = true -> ParseInt ds = Some (Z.pos p)) /\
  (in_int64 (Z.neg p) = true -> ParseInt (String "-" ds) = Some (Z.neg p)).
Proof.
  intros ds.
  assert (Hu : DecimalString.NilEmpty.uint_of_string ds = Some (Pos.to_uint p))
    by apply DecimalString.NilEmpty.usu.
  assert (Hn : N.of_uint (Pos.to_uint p) = N.pos p)
    by apply DecimalPos.Unsigned.of_to.
  destruct (to_uint_head p) as (d0 & ds' & E & _ & _ & _ & Hm & Hp & _).
  fold ds in E. split; intros Hr; unfold ParseInt.
  - rewrite E, Hm, Hp, <- E, Hu, Hn. cbn [Z.of_N]. rewrite Hr. reflexivity.
  - rewrite Ascii.eqb_refl, E, <- E, Hu, Hn. cbn [Z.of_N].
    change (- Z.pos p)%Z with (Z.neg p). rewrite Hr. reflexivity.
Qed.

(** [ParseInt] reads back what [FormatInt] prints of an int64. *)
Lemma ParseInt_FormatInt z : in_int64 z = true -> ParseInt (FormatInt z) = Some z.
Proof.
  intros Hr. unfold FormatInt. destruct z as [|p|p]; cbn [Z.to_int].
  - reflexivity.
  - cbn [DecimalString.NilZero.string_of_int]. rewrite NilZero_pos.
    apply ParseInt_digits. exact Hr.
  - cbn [DecimalString.NilZero.string_of_int]. rewrite NilZero_pos.
    apply ParseInt_digits. exact Hr.
Qed.
End strconv_facts.
(** ** Signed tokens *)

Module auth_facts.
Import gobytes_facts UTF8 JSON strconv auth json_facts strconv_facts.

Lemma length_append (a b : string) :
  String.length (a ++ b) = (String.length a + String.length b)%nat.
Proof. induction a as [|x a IH]; [reflexivity|]. cbn. rewrite IH. reflexivity. Qed.

Lemma skip_ws_stop c rest : is_space c = false -> skip_ws (String c rest) = String c rest.
Proof. intros H. cbn [skip_ws]. rewrite H. reflexivity. Qed.

(** A member with a string value, followed by a comma. *)
Lemma decode_member_string fuel key f v rest c0 :
  ValidString key = true -> ValidString v = true ->
  field_of_key key = Some f -> f <> FExpiresAt ->
  decode_members (S fuel)
    (String dquote (encode_body key ++ String dquote (String ":"
       (String dquote (encode_body v ++ String dquote (String "," rest)))))) c0
  = decode_members fuel (skip_ws rest) (set_field_string f v c0).
Proof.
  intros Hk Hv Hf Hne. cbn [decode_members].
  change (is_char 34 dquote) with true. cbv iota.
  rewrite (unquote_encode_body key _ Hk).
  rewrite (skip_ws_stop ":") by reflexivity.
  change (is_char 58 ":") with true. cbv iota.
  rewrite (skip_ws_stop dquote) by reflexivity. rewrite Hf.
  assert (Hd : decode_value fuel (Some f)
                 (String dquote (encode_body v ++ String dquote (String "," rest))) c0
               = Some (set_field_string f v c0, String "," rest)).
  { destruct f; [| |contradiction]; cbn [decode_value];
      change (is_char 34 dquote) with true; cbv iota;
      rewrite (unquote_encode_body v _ Hv); reflexivity. }
  rewrite Hd. rewrite (skip_ws_stop ",") by reflexivity.
  change (is_char 44 ",") with true. reflexivity.
Qed.

(** The last member, [exp], followed by the closing brace. *)
Lemma decode_member_exp fuel z c0 :
  in_int64 z = true ->
  decode_members (S fuel)
    (String dquote (encode_body "exp" ++ String dquote (String ":"
       (FormatInt z ++ "}")))) c0
  = Some ({| SessionID := SessionID c0; Role := Role c0; ExpiresAt := z |}, "").
Proof.
  intros Hz. cbn [decode_members].
  change (is_char 34 dquote) with true. cbv iota.
  rewrite (unquote_encode_body "exp" _ eq_refl).
  rewrite (skip_ws_stop ":") by reflexivity.
  change (is_char 58 ":") with true. cbv iota.
  change (field_of_key "exp") with (Some FExpiresAt).
  assert (Hs : scan_number (FormatInt z ++ "}") = Some (FormatInt z, "}"))
    by (apply scan_number_FormatInt; reflexivity).
  assert (Hw : skip_ws (FormatInt z ++ "}") = FormatInt z ++ "}").
  { destruct (FormatInt z ++ "}") as [|d t] eqn:E; [reflexivity|].
    apply skip_ws_stop.
    destruct (is_space d) eqn:Esp; [|reflexivity].
    unfold scan_number in Hs.
    destruct d as [[] [] [] [] [] [] [] []]; try discriminate Esp;
      vm_compute in Hs; discriminate Hs. }
  rewrite Hw. cbn [decode_value]. rewrite Hs, (ParseInt_FormatInt z Hz).
  rewrite (skip_ws_stop "}") by reflexivity.
  change (is_char 44 "}") with false. change (is_char 125 "}") with true. reflexivity.
Qed.

(** [Unmarshal] reads back what [Marshal] writes, provided the two
    strings are valid UTF-8 and the expiry is an int64. *)
Lemma Unmarshal_Marshal c :
  ValidString (SessionID c) = true -> ValidString (Role c) = true ->
  in_int64 (ExpiresAt c) = true ->
  Unmarshal (Marshal c) = Some c.
Proof.
  intros Hsid Hrole Hexp.
  assert (Hm : Marshal c =
    String "{" (String dquote (encode_body "sid" ++ String dquote (String ":"
      (String dquote (encode_body (SessionID c) ++ String dquote (String ","
        (String dquote (encode_body "role" ++ String dquote (String ":"
          (String dquote (encode_body (Role c) ++ String dquote (String ","
            (String dquote (encode_body "exp" ++ String dquote (String ":"
              (FormatInt (ExpiresAt c) ++ "}"))))))))))))))))).
  { unfold Marshal, encodeString. cbn [String.append].
    rewrite !append_assoc. reflexivity. }
  unfold Unmarshal.
  assert (Hlen : (3 <= String.length (Marshal c))%nat).
  { rewrite Hm. cbn [String.length]. rewrite length_append.
    change (String.length (encode_body "sid")) with 3%nat. lia. }
  destruct (String.length (Marshal c)) as [|[|[|fuel]]]; try lia.
  rewrite Hm. rewrite (skip_ws_stop "{") by reflexivity.
  change (is_char 123 "{") with true. cbv iota.
  rewrite (skip_ws_stop dquote) by reflexivity.
  change (is_char 125 dquote) with false. cbv iota.
  rewrite (decode_member_string _ "sid" FSessionID) by (try reflexivity; try discriminate; assumption).
  rewrite (skip_ws_stop dquote) by reflexivity.
  rewrite (decode_member_string _ "role" FRole) by (try reflexivity; try discriminate; assumption).
  rewrite (skip_ws_stop dquote) by reflexivity.
  rewrite decode_member_exp by exact Hexp.
  destruct c; reflexivity.
Qed.

Lemma Split_nonempty sep s : Split sep s <> [].
Proof.
  destruct s as [|c s]; cbn [Split]; [discriminate|].
  destruct (Ascii.eqb c sep); [discriminate|]. destruct (Split sep s); discriminate.
Qed.

Lemma Split_nodot s : all_bytes nodot s = true -> Split "." s = [s].
Proof.
  induction s as [|c s IH]; [reflexivity|]. cbn [all_bytes Split]. intros H.
  apply andb_prop in H as [Hc Hs]. unfold nodot in Hc.
  apply negb_true_iff in Hc. rewrite Hc, (IH Hs). reflexivity.
Qed.

Lemma Split_app a b :
  all_bytes nodot a = true -> Split "." (a ++ String "." b) = a :: Split "." b.
Proof.
  induction a as [|c a IH]; [reflexivity|]. cbn [all_bytes Split String.append].
  intros H. apply andb_prop in H as [Hc Hs]. unfold nodot in Hc.
  apply negb_true_iff in Hc. rewrite Hc, (IH Hs). reflexivity.
Qed.

Lemma all_bytes_impl (p q : ascii -> bool) s :
  (forall c, p c = true -> q c = true) ->
  all_bytes p s = true -> all_bytes q s = true.
Proof.
  intros Hpq. induction s as [|c s IH]; [reflexivity|]. cbn [all_bytes].
  intros H. apply andb_prop in H as [Hc Hs]. rewrite (Hpq c Hc), (IH Hs). reflexivity.
Qed.

Lemma encode_nodot src : all_bytes nodot (Base64.EncodeToString src) = true.
Proof.
  apply (all_bytes_impl plain); [|apply base64_roundtrip.encode_plain].
  intros c Hc. unfold plain in Hc. apply andb_prop in Hc as [_ Hc].
  exact Hc.
Qed.

Lemma Verify_parts s token now p q payload signature :
  Split "." token = [p; q] ->
  Base64.DecodeString p = Some payload ->
  Base64.DecodeString q = Some signature ->
  Verify s token now = check s payload signature now.
Proof. intros Hs Hp Hq. unfold Verify, check. rewrite Hs, Hp, Hq. reflexivity. Qed.

Lemma Verify_Ok_inv s token now claims :
  Verify s token now = Ok claims ->
  exists p q payload,
    Split "." token = [p; q] /\
    Base64.DecodeString p = Some payload /\
    Base64.DecodeString q = Some (HMAC.Sum (secret s) payload).
Proof.
  unfold Verify.
  destruct (Split "." token) as [|p [|q [|r l]]]; try discriminate.
  destruct (Base64.DecodeString p) as [payload|] eqn:Ep; [|discriminate].
  destruct (Base64.DecodeString q) as [signature|] eqn:Eq; [|discriminate].
  destruct (HMAC.Equal signature (HMAC.Sum (secret s) payload)) eqn:E;
    cbn [negb]; [|discriminate].
  intros _. apply String.eqb_eq in E. subst signature.
  exists p, q, payload. repeat split; assumption.
Qed.

Lemma Sign_token s claims :
  Sign s claims =
    Ok (Base64.EncodeToString (Marshal claims) ++
        String "." (Base64.EncodeToString (HMAC.Sum (secret s) (Marshal claims)))).
Proof. reflexivity. Qed.

(** A token as issued verifies to whatever its payload unmarshals to. *)
Lemma Verify_signed s claims now :
  Verify s (Base64.EncodeToString (Marshal claims) ++
            String "." (Base64.EncodeToString (HMAC.Sum (secret s) (Marshal claims)))) now
  = check s (Marshal claims) (HMAC.Sum (secret s) (Marshal claims)) now.
Proof.
  eapply Verify_parts.
  - rewrite Split_app by apply encode_nodot.
    rewrite Split_nodot by apply encode_nodot. reflexivity.
  - apply base64_roundtrip.DecodeString_EncodeToString.
  - apply base64_roundtrip.DecodeString_EncodeToString.
Qed.
End auth_facts.
Module token_facts.
Import gobytes_facts UTF8 JSON strconv auth json_facts auth_facts.

Lemma Split_sep_app a b :
  Split "." (a ++ String "." b) = (Split "." a ++ Split "." b)%list.
Proof.
  induction a as [|c a IH]; [reflexivity|]. cbn [String.append Split].
  destruct (Ascii.eqb c "."); rewrite IH; [reflexivity|].
  destruct (Split "." a) as [|part parts] eqn:E; [|reflexivity].
  exfalso. exact (Split_nonempty _ _ E).
Qed.

Lemma Split_single s x : Split "." s = [x] -> x = s /\ all_bytes nodot s = true.
Proof.
  revert x. induction s as [|c s IH]; intros x; cbn [Split all_bytes].
  - intros [= <-]. auto.
  - unfold nodot at 1. destruct (Ascii.eqb c ".").
    + intros [= _ H]. exfalso. exact (Split_nonempty _ _ H).
    + destruct (Split "." s) as [|part parts] eqn:E; [intros [= <-]|].
      * exfalso. exact (Split_nonempty _ _ E).
      * intros [= <- ->]. destruct (IH part eq_refl) as (-> & ->). auto.
Qed.

Lemma all_bytes_app p a b :
  all_bytes p (a ++ b) = all_bytes p a && all_bytes p b.
Proof.
  induction a as [|c a IH]; [reflexivity|]. cbn [String.append all_bytes].
  rewrite IH. apply andb_assoc.
Qed.

Lemma flip_bit_app i k a b :
  flip_bit i k (a ++ b) =
    if (i <? String.length a)%nat then flip_bit i k a ++ b
    else a ++ flip_bit (i - String.length a) k b.
Proof.
  revert i. induction a as [|c a IH]; intros i.
  - cbn [String.append String.length]. rewrite Nat.sub_0_r. reflexivity.
  - destruct i as [|i]; [reflexivity|].
    cbn [String.append flip_bit String.length]. rewrite IH.
    change (S i <? S (String.length a))%nat with (i <? String.length a)%nat.
    destruct (i <? String.length a)%nat; reflexivity.
Qed.

Lemma flip_dot k : (k < 8)%nat -> nodot (flip k ".") = true.
Proof.
  intros H. do 8 (destruct k as [|k]; [reflexivity|]). lia.
Qed.

Lemma Verify_format s token now :
  List.length (Split "." token) <> 2%nat -> Verify s token now = Err errFormat.
Proof.
  unfold Verify. destruct (Split "." token) as [|p [|q [|r l]]]; cbn; intros H;
    try reflexivity. contradiction.
Qed.
End token_facts.

(** * The hash against its published test vectors *)

Module sha_facts.

Example Sum256_abc :
  hex_encode (SHA256.Sum256 "abc") =
    "ba7816bf8f01cfea414140de5dae2223b00361a396177a9cb410ff61f20015ad".
Proof. vm_compute. reflexivity. Qed.

Example Sum256_empty :
  hex_encode (SHA256.Sum256 "") =
    "e3b0c44298fc1c149afbf4c8996fb92427ae41e4649b934ca495991b7852b855".
Proof. vm_compute. reflexivity. Qed.

Example HMAC_rfc4231_case2 :
  hex_encode (HMAC.Sum "Jefe" "what do ya want for nothing?") =
    "5bdcc146bf60754e6a042426089575c75a003f089d2739839dec58b964ec3843".
Proof. vm_compute. reflexivity. Qed.

End sha_facts.


(** ** The session store *)

Module session_facts.
Import session examples gobytes_facts.

Lemma expired_true now session : expired now session = true <-> ExpiresAt session < now.
Proof. unfold expired. apply Z.ltb_lt. Qed.

Lemma expired_false now session : expired now session = false <-> now <= ExpiresAt session.
Proof. unfold expired. rewrite Z.ltb_ge. reflexivity. Qed.

(** The janitor only ever deletes. *)
Lemma cleanup_fold_sessions_None now l s id :
  sessions s !! id = None ->
  sessions (foldr (cleanup_step now) s l) !! id = None.
Proof.
  intros Hs. induction l as [|[id' session'] l IH]; simpl; [exact Hs|].
  destruct (expired now session'); simpl; [|exact IH].
  destruct (decide (id' = id)) as [->|Hne].
  - apply lookup_delete_eq.
  - rewrite lookup_delete_ne by exact Hne. exact IH.
Qed.

Lemma cleanup_fold_byCodes_None now l s code :
  byCodes s !! code = None ->
  byCodes (foldr (cleanup_step now) s l) !! code = None.
Proof.
  intros Hs. induction l as [|[id' session'] l IH]; simpl; [exact Hs|].
  destruct (expired now session'); simpl; [|exact IH].
  destruct (decide (Code session' = code)) as [->|Hne].
  - apply lookup_delete_eq.
  - rewrite lookup_delete_ne by exact Hne. exact IH.
Qed.

(** An expired entry the loop ranges over is gone afterwards, together
    with the index entry of its code. *)
Lemma cleanup_fold_removes now l s id session :
  (id, session) ∈ l -> expired now session = true ->
  sessions (foldr (cleanup_step now) s l) !! id = None /\
  byCodes (foldr (cleanup_step now) s l) !! Code session = None.
Proof.
  intros Hin Hexp. induction l as [|[id' session'] l IH]; [inversion Hin|].
  apply elem_of_cons in Hin as [Heq|Hin].
  - inversion Heq; subst id' session'. simpl. rewrite Hexp. simpl.
    split; apply lookup_delete_eq.
  - specialize (IH Hin) as [IH1 IH2]. simpl.
    destruct (expired now session'); simpl; [|split; assumption].
    split.
    + destruct (decide (id' = id)) as [->|Hne];
        [apply lookup_delete_eq | rewrite lookup_delete_ne by exact Hne; exact IH1].
    + destruct (decide (Code session' = Code session)) as [->|Hne];
        [apply lookup_delete_eq | rewrite lookup_delete_ne by exact Hne; exact IH2].
Qed.

Lemma cleanup_removes s now id session :
  sessions s !! id = Some session -> ExpiresAt session < now ->
  sessions (cleanup s now) !! id = None /\
  byCodes (cleanup s now) !! Code session = None.
Proof.
  intros Hs Hexp. unfold cleanup.
  apply cleanup_fold_removes.
  - apply elem_of_map_to_list. exact Hs.
  - apply expired_true. exact Hexp.
Qed.


Lemma b32_char_facts x :
  let c := Base32.char_of (N.land x 31) in
  is_b32 c = true /\ (byte_val c <? 128)%N = true /\ ascii_upper c = c.
Proof.
  assert (H : (N.land x 31 < 32)%N).
  { change 31%N with (N.ones 5). rewrite N.land_ones. apply N.mod_lt. discriminate. }
  remember (N.land x 31) as v eqn:E. clear E x.
  assert (E : (v = 0 \/ v = 1 \/ v = 2 \/ v = 3 \/ v = 4 \/ v = 5 \/ v = 6 \/ v = 7 \/
          v = 8 \/ v = 9 \/ v = 10 \/ v = 11 \/ v = 12 \/ v = 13 \/ v = 14 \/ v = 15 \/
          v = 16 \/ v = 17 \/ v = 18 \/ v = 19 \/ v = 20 \/ v = 21 \/ v = 22 \/ v = 23 \/
          v = 24 \/ v = 25 \/ v = 26 \/ v = 27 \/ v = 28 \/ v = 29 \/ v = 30 \/ v = 31)%N) by lia.
  repeat (destruct E as [E|E]; [subst v; vm_compute; auto|]).
  subst v; vm_compute; auto.
Qed.

Lemma digit_facts g i :
  is_b32 (Base32.digit g i) = true /\
  (byte_val (Base32.digit g i) <? 128)%N = true /\
  ascii_upper (Base32.digit g i) = Base32.digit g i.
Proof. apply b32_char_facts. Qed.

Lemma generateID_ok n entropy v rest :
  generateID n entropy = Ok (v, rest) ->
  (n <= String.length entropy)%nat /\ v = hex_encode (take n entropy) /\ rest = drop n entropy.
Proof.
  unfold generateID. destruct (rand_Read n entropy) as [[b r]|] eqn:E; [|discriminate].
  apply rand_Read_ok in E as (? & Hb & Hr). intros [= <- <-]. subst. auto.
Qed.

Lemma generateCode_ok u entropy code rest :
  generateCode u entropy = Ok (code, rest) ->
  (8 <= String.length entropy)%nat /\ rest = drop 8 entropy /\ is_code code = true.
Proof.
  unfold generateCode. destruct (rand_Read 8 entropy) as [[b r]|] eqn:E; [|discriminate].
  apply rand_Read_ok in E as (Hlen & Hb & Hr).
  intros [= <- <-]. split; [exact Hlen|]. split; [exact Hr|]. clear Hr. subst b.
  destruct (length8 (take 8 entropy)) as (b0 & b1 & b2 & b3 & b4 & b5 & b6 & b7 & ->).
  { apply take_length. exact Hlen. }
  assert (D := digit_facts).
  unfold ToUpper, slice, isASCII.
  cbn [Base32.EncodeToString]. unfold Base32.digits.
  cbv [String.append take substring Nat.sub all_bytes].
  rewrite !(proj1 (proj2 (D _ _))). cbn [andb map_bytes].
  rewrite !(proj2 (proj2 (D _ _))).
  cbv [substring Nat.sub String.append is_code].
  rewrite !Ascii.eqb_refl. cbn [andb].
  rewrite !(proj1 (D _ _)). reflexivity.
Qed.

Lemma Create_ok u s now entropy sess s' rest :
  Create u s now entropy = Ok (sess, s', rest) ->
  (56 <= String.length entropy)%nat /\ rest = drop 56 entropy /\
  generateID 16 entropy = Ok (ID sess, drop 16 entropy) /\
  generateCode u (drop 16 entropy) = Ok (Code sess, drop 24 entropy) /\
  generateID 32 (drop 24 entropy) = Ok (HostToken sess, drop 56 entropy) /\
  JoinToken sess = "" /\ ExpiresAt sess = now + ttl s /\
  sessions s' = <[ID sess := sess]> (sessions s) /\
  byCodes s' = <[Code sess := ID sess]> (byCodes s).
Proof.
  unfold Create.
  destruct (generateID 16 entropy) as [[id e1]|] eqn:E1; [|discriminate].
  destruct (generateCode u e1) as [[code e2]|] eqn:E2; [|discriminate].
  destruct (generateID 32 e2) as [[tok e3]|] eqn:E3; [|discriminate].
  intros [= <- <- <-]. cbn [ID Code HostToken JoinToken ExpiresAt sessions byCodes].
  pose proof (generateID_ok _ _ _ _ E1) as (L1 & _ & R1).
  pose proof (generateCode_ok _ _ _ _ E2) as (L2 & R2 & _).
  pose proof (generateID_ok _ _ _ _ E3) as (L3 & _ & R3).
  subst e1. rewrite drop_drop in R2. cbn [Nat.add] in R2. subst e2.
  rewrite drop_drop in R3. cbn [Nat.add] in R3. subst e3.
  rewrite !drop_length in *.
  repeat split; try reflexivity; try assumption. lia.
Qed.

Lemma Join_first s code id sess now entropy :
  byCodes s !! code = Some id ->
  sessions s !! id = Some sess ->
  now <= ExpiresAt sess ->
  JoinToken sess = "" ->
  (32 <= String.length entropy)%nat ->
  let joinToken := hex_encode (take 32 entropy) in
  Join s code now entropy =
    Ok (set_JoinToken sess joinToken,
        with_sessions s (<[id := set_JoinToken sess joinToken]> (sessions s)),
        drop 32 entropy) /\
  String.length joinToken = 64%nat.
Proof.
  intros Hc Hs Hlive Hjt Hlen joinToken. unfold Join.
  rewrite Hc, Hs. apply expired_false in Hlive. rewrite Hlive, Hjt.
  cbn [String.eqb negb]. unfold generateID, rand_Read.
  apply Nat.leb_le in Hlen as Hlen'. rewrite Hlen'. split; [reflexivity|].
  unfold joinToken. rewrite hex_encode_length, take_length by exact Hlen. reflexivity.
Qed.

Lemma Join_again s code id sess now entropy :
  byCodes s !! code = Some id ->
  sessions s !! id = Some sess ->
  now <= ExpiresAt sess ->
  JoinToken sess <> "" ->
  Join s code now entropy = Err errHasJoiner.
Proof.
  intros Hc Hs Hlive Hjt. unfold Join.
  rewrite Hc, Hs. apply expired_false in Hlive. rewrite Hlive.
  destruct (String.eqb (JoinToken sess) "") eqn:E; [|reflexivity].
  apply String.eqb_eq in E. contradiction.
Qed.

(** A session fresh from [Create] has the empty join token, which
    [ValidateToken] then accepts for the role "joiner". *)
Lemma Create_then_empty_join_token u s now entropy sess s' rest t :
  Create u s now entropy = Ok (sess, s', rest) ->
  t <= ExpiresAt sess ->
  ValidateToken s' (ID sess) "" "joiner" t = true.
Proof.
  intros Hc Ht. apply Create_ok in Hc as (_ & _ & _ & _ & _ & Hj & _ & Hs & _).
  unfold ValidateToken. rewrite Hs, lookup_insert_eq.
  apply expired_false in Ht. rewrite Ht, Hj. reflexivity.
Qed.

End session_facts.

(** C6, as stated, fails: at time 1000 the session that expired at 900 is
    invisible to [GetByID], yet [SetHostConnected] does not answer
    "session not found": it succeeds and flips the flag of the expired
    record. *)
Lemma C6_setter_ignores_expiry :
  session.sessions examples.stale_store !! "00ff" = Some examples.stale_session /\
  session.ExpiresAt examples.stale_session < 1000 /\
  session.GetByID examples.stale_store "00ff" 1000 = None /\
  session.SetHostConnected examples.stale_store "00ff" true <> Err session.errNotFound /\
  exists s', session.SetHostConnected examples.stale_store "00ff" true = Ok s' /\
             session.HostConnected <$> session.sessions s' !! "00ff" = Some true.
Proof.
  split; [reflexivity|]. split; [reflexivity|]. split; [reflexivity|].
  split; [discriminate|].
  eexists. split; reflexivity.
Qed.

(** C6, amended: once the expiry instant of a stored session has passed,
    [GetByID], [GetByCode], [Join] and [ValidateToken] answer as for an
    absent session; [SetHostConnected] and [SetJoinConnected] do not look
    at the expiry and still update the record; the next [cleanup] removes
    the record and the index entry of its code. *)
Theorem C6_expired_session_lookups
    (s : session.Store) (id : string) (sess : session.Session) (now : Z) :
  session.sessions s !! id = Some sess ->
  session.ExpiresAt sess < now ->
  session.GetByID s id now = None /\
  (forall code, session.byCodes s !! code = Some id ->
     session.GetByCode s code now = None /\
     forall entropy, session.Join s code now entropy = Err session.errExpired) /\
  (forall token role, session.ValidateToken s id token role now = false) /\
  (forall c, session.SetHostConnected s id c =
     Ok (session.with_sessions s (<[id := session.set_HostConnected sess c]> (session.sessions s)))) /\
  (forall c, session.SetJoinConnected s id c =
     Ok (session.with_sessions s (<[id := session.set_JoinConnected sess c]> (session.sessions s)))) /\
  session.sessions (session.cleanup s now) !! id = None /\
  session.byCodes (session.cleanup s now) !! session.Code sess = None.
Proof.
  intros Hs Hexp.
  assert (He : session.expired now sess = true) by (apply session_facts.expired_true; exact Hexp).
  split; [unfold session.GetByID; rewrite Hs, He; reflexivity|].
  split.
  { intros code Hc. split.
    - unfold session.GetByCode. rewrite Hc, Hs, He. reflexivity.
    - intros entropy. unfold session.Join. rewrite Hc, Hs, He. reflexivity. }
  split; [intros; unfold session.ValidateToken; rewrite Hs, He; reflexivity|].
  split; [intros; unfold session.SetHostConnected; rewrite Hs; reflexivity|].
  split; [intros; unfold session.SetJoinConnected; rewrite Hs; reflexivity|].
  apply session_facts.cleanup_removes; assumption.
Qed.

Lemma C6_expired_session_lookups_witness :
  session.GetByID examples.stale_store "00ff" 1000 = None /\
  session.sessions (session.cleanup examples.stale_store 1000) !! "00ff" = None.
Proof.
  destruct (C6_expired_session_lookups examples.stale_store "00ff"
              examples.stale_session 1000) as (H1 & _ & _ & _ & _ & H2 & _).
  - reflexivity.
  - reflexivity.
  - split; [exact H1 | exact H2].
Defined.

(** C10: for a stored, unexpired session whose join token has not been
    minted (the field still holds the empty string [Create] put there),
    [ValidateToken id t "joiner"] is true exactly when [t] is empty. *)
Theorem C10_empty_joiner_token_accepted
    (s : session.Store) (id : string) (sess : session.Session) (now : Z) (t : string) :
  session.sessions s !! id = Some sess ->
  now <= session.ExpiresAt sess ->
  session.JoinToken sess = "" ->
  session.ValidateToken s id t "joiner" now = true <-> t = "".
Proof.
  intros Hs Hlive Hjt.
  unfold session.ValidateToken. rewrite Hs.
  apply session_facts.expired_false in Hlive. rewrite Hlive, Hjt. simpl.
  destruct t; simpl; split; intros H; try reflexivity; discriminate.
Qed.

Lemma C10_empty_joiner_token_accepted_witness :
  session.ValidateToken examples.stale_store "00ff" "" "joiner" 500 = true <-> "" = "".
Proof.
  apply (C10_empty_joiner_token_accepted examples.stale_store "00ff"
           examples.stale_session 500 "").
  - reflexivity.
  - vm_compute. discriminate.
  - reflexivity.
Defined.



(** ** Strings that are not valid UTF-8 *)

Module replace_facts.
Import gobytes_facts bits_facts UTF8 JSON utf8_facts json_facts strconv auth auth_facts.
Open Scope N_scope.








End replace_facts.




(** ** One bit of an encoding flipped *)

Module flip_facts.
Import gobytes_facts bits_facts Base64 base64_facts base64_roundtrip utf8_facts.
Open Scope N_scope.

Lemma flip_changes k c : (k < 8)%nat -> flip k c <> c.
Proof.
  intros Hk.
  assert (H : forall_bytes
                (fun c => forallb (fun k => negb (Ascii.eqb (flip k c) c)) (seq 0 8)) = true)
    by (vm_compute; reflexivity).
  pose proof (forall_bytes_spec _ H c) as Hc. cbv beta in Hc.
  rewrite forallb_forall in Hc. specialize (Hc k ltac:(apply in_seq; lia)).
  apply negb_true_iff, Ascii.eqb_neq in Hc. exact Hc.
Qed.

Lemma char_of_value c v : value_of c = Some v -> char_of v = c /\ v < 64.
Proof.
  assert (H : forall_bytes
                (fun c => match value_of c with
                          | Some v => Ascii.eqb (char_of v) c && (v <? 64)
                          | None => true
                          end) = true)
    by (vm_compute; reflexivity).
  pose proof (forall_bytes_spec _ H c) as Hc. cbv beta in Hc.
  intros E. rewrite E in Hc. apply andb_prop in Hc as [H1 H2].
  apply Ascii.eqb_eq in H1. apply N.ltb_lt in H2. auto.
Qed.

Lemma value_of_inj c c' v : value_of c = Some v -> value_of c' = Some v -> c = c'.
Proof.
  intros H H'. apply char_of_value in H as [<- _]. apply char_of_value in H' as [<- _].
  reflexivity.
Qed.

(** A flipped character has another value, if it has one. *)
Lemma flip_value k c v w :
  (k < 8)%nat -> value_of c = Some v -> value_of (flip k c) = Some w -> v <> w.
Proof.
  intros Hk Hv Hw ->. apply (flip_changes k c Hk). symmetry.
  exact (value_of_inj _ _ _ Hv Hw).
Qed.

Lemma string_ind4 (P : string -> Prop) :
  P "" ->
  (forall a, P (String a "")) ->
  (forall a b, P (String a (String b ""))) ->
  (forall a b c, P (String a (String b (String c "")))) ->
  (forall a b c d s, P s -> P (String a (String b (String c (String d s))))) ->
  forall s, P s.
Proof.
  intros H0 H1 H2 H3 H4 s.
  assert (H : P s /\ (forall a, P (String a s)) /\ (forall a b, P (String a (String b s))) /\
              (forall a b c, P (String a (String b (String c s))))).
  { induction s as [|d s (IH0 & IH1 & IH2 & IH3)].
    - auto.
    - split; [apply IH1|]. split; [intros a; apply IH2|].
      split; [intros a b; apply IH3|].
      intros a b c. apply H4. exact IH0. }
  apply H.
Qed.

(** Three characters for every four bytes, rounded down. *)
Lemma decode_quanta_length s : forall out,
  decode_quanta s = Some out ->
  (4 * String.length out <= 3 * String.length s <= 4 * String.length out + 2)%nat.
Proof.
  induction s as [|a|a b|a b c|a b c d s IH] using string_ind4; intros out;
    cbn [decode_quanta].
  - intros [= <-]. cbn. lia.
  - discriminate.
  - destruct (value_of a), (value_of b); try discriminate. intros [= <-]. cbn. lia.
  - destruct (value_of a), (value_of b), (value_of c); try discriminate.
    intros [= <-]. cbn. lia.
  - destruct (value_of a), (value_of b), (value_of c), (value_of d); try discriminate.
    destruct (decode_quanta s) as [out'|]; [|discriminate].
    intros [= <-]. specialize (IH out' eq_refl). cbn [String.length]. lia.
Qed.

Lemma octet_byte val k : octet val k = byte_of ((val / 2 ^ k) mod 256).
Proof. unfold octet. rewrite land_shiftr_255. reflexivity. Qed.

Lemma byte_of_inj m n : m < 256 -> n < 256 -> byte_of m = byte_of n -> m = n.
Proof.
  intros Hm Hn E. apply (f_equal byte_val) in E.
  rewrite !byte_val_of in E by assumption. exact E.
Qed.

Lemma octet_inj val val' k :
  octet val k = octet val' k -> (val / 2 ^ k) mod 256 = (val' / 2 ^ k) mod 256.
Proof.
  rewrite !octet_byte. apply byte_of_inj; apply N.mod_lt; discriminate.
Qed.

(** The three bytes of a group, from its four values. *)
Lemma val4_octets v0 v1 v2 v3 :
  v0 < 64 -> v1 < 64 -> v2 < 64 -> v3 < 64 ->
  octet (val4 v0 v1 v2 v3) 16 = byte_of (4 * v0 + v1 / 16) /\
  octet (val4 v0 v1 v2 v3) 8 = byte_of (16 * (v1 mod 16) + v2 / 4) /\
  octet (val4 v0 v1 v2 v3) 0 = byte_of (64 * (v2 mod 4) + v3).
Proof.
  intros H0 H1 H2 H3. rewrite !octet_byte, val4_arith by assumption. pow2.
  pose proof (N.div_mod v1 16 ltac:(discriminate)) as E1.
  pose proof (N.mod_lt v1 16 ltac:(discriminate)) as L1.
  pose proof (N.div_mod v2 4 ltac:(discriminate)) as E2.
  pose proof (N.mod_lt v2 4 ltac:(discriminate)) as L2.
  set (a := v1 / 16) in *. set (b := v1 mod 16) in *.
  set (c := v2 / 4) in *. set (d := v2 mod 4) in *.
  set (val := v0 * 262144 + v1 * 4096 + v2 * 64 + v3).
  assert (Q16 : val / 65536 = 4 * v0 + a).
  { symmetry. apply (N.div_unique val 65536 _ (b * 4096 + v2 * 64 + v3)); subst val; lia. }
  assert (Q8 : val / 256 = 256 * (4 * v0 + a) + (16 * b + c)).
  { symmetry. apply (N.div_unique val 256 _ (d * 64 + v3)); subst val; lia. }
  rewrite N.div_1_r, Q16, Q8.
  repeat split; f_equal.
  - apply N.mod_small. lia.
  - symmetry. apply (N.mod_unique _ 256 (4 * v0 + a)); lia.
  - symmetry. apply (N.mod_unique val 256 (256 * (4 * v0 + a) + (16 * b + c))); subst val; lia.
Qed.

Ltac split_value v :=
  let a := fresh "a" in
  let b := fresh "b" in
  let c := fresh "c" in
  let d := fresh "d" in
  pose proof (N.div_mod v 16 ltac:(discriminate));
  pose proof (N.mod_lt v 16 ltac:(discriminate));
  pose proof (N.div_mod v 4 ltac:(discriminate));
  pose proof (N.mod_lt v 4 ltac:(discriminate));
  set (a := v / 16) in *; set (b := v mod 16) in *;
  set (c := v / 4) in *; set (d := v mod 4) in *;
  clearbody a b c d.

(** The bytes of a full group tell its four values. *)
Lemma octets4 v0 v1 v2 v3 w0 w1 w2 w3 :
  v0 < 64 -> v1 < 64 -> v2 < 64 -> v3 < 64 -> w0 < 64 -> w1 < 64 -> w2 < 64 -> w3 < 64 ->
  octet (val4 v0 v1 v2 v3) 16 = octet (val4 w0 w1 w2 w3) 16 ->
  octet (val4 v0 v1 v2 v3) 8 = octet (val4 w0 w1 w2 w3) 8 ->
  octet (val4 v0 v1 v2 v3) 0 = octet (val4 w0 w1 w2 w3) 0 ->
  v0 = w0 /\ v1 = w1 /\ v2 = w2 /\ v3 = w3.
Proof.
  intros V0 V1 V2 V3 W0 W1 W2 W3.
  destruct (val4_octets v0 v1 v2 v3 V0 V1 V2 V3) as (-> & -> & ->).
  destruct (val4_octets w0 w1 w2 w3 W0 W1 W2 W3) as (-> & -> & ->).
  split_value v1. split_value v2. split_value w1. split_value w2.
  intros E16 E8 E0. apply byte_of_inj in E16, E8, E0; lia.
Qed.

(** The two bytes of a final group of three characters tell the first
    two values and the four high bits of the third. *)
Lemma octets3 v0 v1 v2 w0 w1 w2 :
  v0 < 64 -> v1 < 64 -> v2 < 64 -> w0 < 64 -> w1 < 64 -> w2 < 64 ->
  (octet (val4 v0 v1 v2 0) 16 = octet (val4 w0 w1 w2 0) 16 /\
   octet (val4 v0 v1 v2 0) 8 = octet (val4 w0 w1 w2 0) 8) <->
  (v0 = w0 /\ v1 = w1 /\ N.shiftr v2 2 = N.shiftr w2 2).
Proof.
  intros V0 V1 V2 W0 W1 W2. rewrite !N.shiftr_div_pow2. change (2 ^ 2) with 4.
  destruct (val4_octets v0 v1 v2 0 V0 V1 V2 eq_refl) as (-> & -> & _).
  destruct (val4_octets w0 w1 w2 0 W0 W1 W2 eq_refl) as (-> & -> & _).
  split.
  - split_value v1. split_value v2. split_value w1. split_value w2.
    intros [E16 E8]. apply byte_of_inj in E16, E8; lia.
  - intros (-> & -> & ->). auto.
Qed.

(** The byte of a final group of two characters tells the first value
    and the two high bits of the second. *)
Lemma octets2 v0 v1 w0 w1 :
  v0 < 64 -> v1 < 64 -> w0 < 64 -> w1 < 64 ->
  octet (val4 v0 v1 0 0) 16 = octet (val4 w0 w1 0 0) 16 <->
  (v0 = w0 /\ N.shiftr v1 4 = N.shiftr w1 4).
Proof.
  intros V0 V1 W0 W1. rewrite !N.shiftr_div_pow2. change (2 ^ 4) with 16.
  destruct (val4_octets v0 v1 0 0 V0 V1 eq_refl eq_refl) as (-> & _ & _).
  destruct (val4_octets w0 w1 0 0 W0 W1 eq_refl eq_refl) as (-> & _ & _).
  split.
  - split_value v1. split_value w1.
    intros E16. apply byte_of_inj in E16; lia.
  - intros (-> & ->). auto.
Qed.

Lemma spare_bits_next n : spare_bits (S (S (S n))) = spare_bits n.
Proof.
  unfold spare_bits. replace (S (S (S n))) with (n + 1 * 3)%nat by lia.
  rewrite Nat.Div0.mod_add. reflexivity.
Qed.

Section OneFlip.
Variable k : nat.
Hypothesis Hk : (k < 8)%nat.

(** No flip spares all six bits of a character. *)
Lemma spares_0 c : spares 0 k c = false.
Proof.
  unfold spares. destruct (value_of c) as [v|] eqn:Ev; [|reflexivity].
  destruct (value_of (flip k c)) as [w|] eqn:Ew; [|reflexivity].
  rewrite !N.shiftr_0_r. apply N.eqb_neq. exact (flip_value k c v w Hk Ev Ew).
Qed.

Ltac bound :=
  match goal with
  | H : value_of _ = Some ?v |- ?v < 64 => exact (proj2 (char_of_value _ _ H))
  end.

(** Decoding a string with one bit flipped gives the same bytes
    exactly when the bit is a spare bit of the last character. *)
Lemma quanta_flip X : forall src i,
  decode_quanta X = Some src -> (i < String.length X)%nat ->
  (decode_quanta (flip_bit i k X) = Some src <->
   exists c, String.get i X = Some c /\ S i = String.length X /\
             spares (spare_bits (String.length src)) k c = true).
Proof.
  induction X as [|c0|c0 c1|c0 c1 c2|c0 c1 c2 c3 X IH] using string_ind4;
    intros src i Hd Hi; cbn [String.length] in Hi.
  - lia.
  - discriminate Hd.
  - cbn [decode_quanta] in Hd.
    destruct (value_of c0) as [v0|] eqn:E0; [|discriminate].
    destruct (value_of c1) as [v1|] eqn:E1; [|discriminate].
    injection Hd as <-. change (spare_bits _) with 4.
    destruct i as [|[|i]]; [| |lia]; cbn [flip_bit decode_quanta String.get String.length].
    + rewrite E1. split.
      * destruct (value_of (flip k c0)) as [w|] eqn:Ew; [|discriminate].
        intros [= H]. apply octets2 in H as [H _]; try bound.
        exfalso. exact (flip_value k c0 v0 w Hk E0 Ew (eq_sym H)).
      * intros (c & _ & Hl & _). discriminate Hl.
    + rewrite E0. unfold spares. split.
      * destruct (value_of (flip k c1)) as [w|] eqn:Ew; [|discriminate].
        intros [= H]. apply octets2 in H as [_ H]; try bound.
        exists c1. rewrite E1, Ew, H, N.eqb_refl. auto.
      * intros (c & [= <-] & _ & Hs). rewrite E1 in Hs.
        destruct (value_of (flip k c1)) as [w|] eqn:Ew; [|discriminate].
        apply N.eqb_eq in Hs. do 2 f_equal. apply octets2; try bound. auto.
  - cbn [decode_quanta] in Hd.
    destruct (value_of c0) as [v0|] eqn:E0; [|discriminate].
    destruct (value_of c1) as [v1|] eqn:E1; [|discriminate].
    destruct (value_of c2) as [v2|] eqn:E2; [|discriminate].
    injection Hd as <-. change (spare_bits _) with 2.
    destruct i as [|[|[|i]]]; [| | |lia];
      cbn [flip_bit decode_quanta String.get String.length].
    + rewrite E1, E2. split.
      * destruct (value_of (flip k c0)) as [w|] eqn:Ew; [|discriminate].
        intros [= H H']. destruct (proj1 (octets3 w v1 v2 v0 v1 v2 ltac:(bound) ltac:(bound)
                                           ltac:(bound) ltac:(bound) ltac:(bound) ltac:(bound))
                                     (conj H H')) as (Hw & _).
        exfalso. exact (flip_value k c0 v0 w Hk E0 Ew (eq_sym Hw)).
      * intros (c & _ & Hl & _). discriminate Hl.
    + rewrite E0, E2. split.
      * destruct (value_of (flip k c1)) as [w|] eqn:Ew; [|discriminate].
        intros [= H H']. destruct (proj1 (octets3 v0 w v2 v0 v1 v2 ltac:(bound) ltac:(bound)
                                           ltac:(bound) ltac:(bound) ltac:(bound) ltac:(bound))
                                     (conj H H')) as (_ & Hw & _).
        exfalso. exact (flip_value k c1 v1 w Hk E1 Ew (eq_sym Hw)).
      * intros (c & _ & Hl & _). discriminate Hl.
    + rewrite E0, E1. unfold spares. split.
      * destruct (value_of (flip k c2)) as [w|] eqn:Ew; [|discriminate].
        intros [= H H']. destruct (proj1 (octets3 v0 v1 w v0 v1 v2 ltac:(bound) ltac:(bound)
                                           ltac:(bound) ltac:(bound) ltac:(bound) ltac:(bound))
                                     (conj H H')) as (_ & _ & Hw).
        exists c2. rewrite E2, Ew, Hw, N.eqb_refl. auto.
      * intros (c & [= <-] & _ & Hs). rewrite E2 in Hs.
        destruct (value_of (flip k c2)) as [w|] eqn:Ew; [|discriminate].
        apply N.eqb_eq in Hs.
        destruct (proj2 (octets3 v0 v1 w v0 v1 v2 ltac:(bound) ltac:(bound)
                           ltac:(bound) ltac:(bound) ltac:(bound) ltac:(bound))
                    (conj eq_refl (conj eq_refl (eq_sym Hs)))) as [-> ->].
        reflexivity.
  - cbn [decode_quanta] in Hd.
    destruct (value_of c0) as [v0|] eqn:E0; [|discriminate].
    destruct (value_of c1) as [v1|] eqn:E1; [|discriminate].
    destruct (value_of c2) as [v2|] eqn:E2; [|discriminate].
    destruct (value_of c3) as [v3|] eqn:E3; [|discriminate].
    destruct (decode_quanta X) as [out|] eqn:EX; [|discriminate].
    injection Hd as <-. cbn [String.length]. rewrite spare_bits_next.
    assert (Hlast : forall c j, (j < 4)%nat ->
              ~ (S j = S (S (S (S (String.length X)))) /\
                 spares (spare_bits (String.length out)) k c = true)).
    { intros c j Hj [Hl Hs]. assert (HX : X = "") by (destruct X; [reflexivity|cbn in Hl; lia]).
      subst X. injection EX as <-. cbn [String.length] in Hs.
      change (spare_bits 0) with 0 in Hs. rewrite spares_0 in Hs. discriminate. }
    destruct i as [|[|[|[|i]]]]; cbn [flip_bit decode_quanta String.get].
    + rewrite E1, E2, E3, EX. split.
      * destruct (value_of (flip k c0)) as [w|] eqn:Ew; [|discriminate].
        intros [= H H' H'']. destruct (octets4 w v1 v2 v3 v0 v1 v2 v3) as (Hw & _);
          try bound; try assumption.
        exfalso. exact (flip_value k c0 v0 w Hk E0 Ew (eq_sym Hw)).
      * intros (c & _ & Hl & Hs). exfalso. apply (Hlast c 0%nat); [lia|auto].
    + rewrite E0, E2, E3, EX. split.
      * destruct (value_of (flip k c1)) as [w|] eqn:Ew; [|discriminate].
        intros [= H H' H'']. destruct (octets4 v0 w v2 v3 v0 v1 v2 v3) as (_ & Hw & _);
          try bound; try assumption.
        exfalso. exact (flip_value k c1 v1 w Hk E1 Ew (eq_sym Hw)).
      * intros (c & _ & Hl & Hs). exfalso. apply (Hlast c 1%nat); [lia|auto].
    + rewrite E0, E1, E3, EX. split.
      * destruct (value_of (flip k c2)) as [w|] eqn:Ew; [|discriminate].
        intros [= H H' H'']. destruct (octets4 v0 v1 w v3 v0 v1 v2 v3) as (_ & _ & Hw & _);
          try bound; try assumption.
        exfalso. exact (flip_value k c2 v2 w Hk E2 Ew (eq_sym Hw)).
      * intros (c & _ & Hl & Hs). exfalso. apply (Hlast c 2%nat); [lia|auto].
    + rewrite E0, E1, E2, EX. split.
      * destruct (value_of (flip k c3)) as [w|] eqn:Ew; [|discriminate].
        intros [= H H' H'']. destruct (octets4 v0 v1 v2 w v0 v1 v2 v3) as (_ & _ & _ & Hw);
          try bound; try assumption.
        exfalso. exact (flip_value k c3 v3 w Hk E3 Ew (eq_sym Hw)).
      * intros (c & _ & Hl & Hs). exfalso. apply (Hlast c 3%nat); [lia|auto].
    + rewrite E0, E1, E2, E3.
      specialize (IH out i eq_refl ltac:(lia)).
      destruct (decode_quanta (flip_bit i k X)) as [out'|] eqn:Ef.
      * split.
        -- intros [= ->]. destruct (proj1 IH eq_refl) as (c & Hc & Hl & Hs).
           exists c. split; [exact Hc|]. split; [lia|exact Hs].
        -- intros (c & Hc & Hl & Hs).
           assert (E : Some out' = Some out)
             by (apply IH; exists c; split; [exact Hc|]; split; [lia|exact Hs]).
           injection E as ->. reflexivity.
      * split; [discriminate|]. intros (c & Hc & Hl & Hs).
        assert (E : None = Some out)
          by (apply IH; exists c; split; [exact Hc|]; split; [lia|exact Hs]).
        discriminate E.
Qed.

(** A character of the alphabet flipped into a line break is skipped
    by the decoder; any other flip leaves the string as long as it was. *)
Lemma filter_flip X : forall i,
  all_bytes plain X = true -> (i < String.length X)%nat ->
  exists c, String.get i X = Some c /\
    if is_newline (flip k c)
    then S (String.length (filter_bytes (fun c => negb (is_newline c)) (flip_bit i k X)))
         = String.length X
    else filter_bytes (fun c => negb (is_newline c)) (flip_bit i k X) = flip_bit i k X.
Proof.
  induction X as [|c0 X IH]; intros i Hp Hi; cbn [String.length] in Hi; [lia|].
  cbn [all_bytes] in Hp. apply andb_prop in Hp as [Hc HX].
  destruct i as [|i]; cbn [flip_bit String.get filter_bytes].
  - exists c0. split; [reflexivity|].
    rewrite (filter_plain X HX).
    destruct (is_newline (flip k c0)); cbn [negb String.length]; reflexivity.
  - destruct (IH i HX ltac:(lia)) as (c & Hget & H). exists c. split; [exact Hget|].
    unfold plain in Hc. apply andb_prop in Hc as [Hc _]. rewrite Hc.
    destruct (is_newline (flip k c)); cbn [String.length]; [lia|rewrite H; reflexivity].
Qed.

(** The decoder returns the bytes that were encoded exactly for the
    flips of spare bits of the last character. *)
Lemma decode_flip src i :
  (i < String.length (EncodeToString src))%nat ->
  DecodeString (flip_bit i k (EncodeToString src)) = Some src <-> unread src i k = true.
Proof.
  intros Hi.
  pose proof (decode_quanta_encode src) as Hd.
  pose proof (quanta_flip _ src i Hd Hi) as Hq.
  assert (Hu : unread src i k = true <->
               exists c, String.get i (EncodeToString src) = Some c /\
                         S i = String.length (EncodeToString src) /\
                         spares (spare_bits (String.length src)) k c = true).
  { unfold unread. cbv zeta. destruct (String.get i (EncodeToString src)) as [c|]; split.
    - intros H. apply andb_prop in H as [H1 H2]. apply Nat.eqb_eq in H1. exists c. auto.
    - intros (c' & [= <-] & H1 & H2). apply Nat.eqb_eq in H1. rewrite H1, H2. reflexivity.
    - discriminate.
    - intros (c' & H & _). discriminate H. }
  rewrite Hu, <- Hq. unfold DecodeString.
  destruct (filter_flip (EncodeToString src) i (encode_plain src) Hi) as (c & Hget & Hf).
  destruct (is_newline (flip k c)) eqn:En; [|rewrite Hf; reflexivity].
  split.
  - intros H. apply decode_quanta_length in H. apply decode_quanta_length in Hd. lia.
  - intros H. apply Hq in H as (c' & Hc' & _ & Hs). rewrite Hget in Hc'. injection Hc' as <-.
    unfold spares in Hs. destruct (value_of c); [|discriminate].
    destruct (value_of (flip k c)) as [w|] eqn:Ew; [|discriminate].
    apply value_of_plain in Ew as [Ew _]. congruence.
Qed.

Lemma flip_bit_changes s : forall i, (i < String.length s)%nat -> flip_bit i k s <> s.
Proof.
  induction s as [|c s IH]; intros i Hi; cbn [String.length] in Hi; [lia|].
  destruct i as [|i]; cbn [flip_bit].
  - intros [= E]. exact (flip_changes k c Hk E).
  - intros [= E]. exact (IH i ltac:(lia) E).
Qed.

End OneFlip.

(** What decodes has no dot in it. *)
Lemma decode_quanta_values X : forall out,
  decode_quanta X = Some out -> all_bytes nodot X = true.
Proof.
  assert (V : forall c v, value_of c = Some v -> nodot c = true).
  { intros c v H. apply value_of_plain in H as [_ H]. unfold nodot. rewrite H. reflexivity. }
  induction X as [|a|a b|a b c|a b c d X IH] using string_ind4; intros out;
    cbn [decode_quanta all_bytes].
  - reflexivity.
  - discriminate.
  - destruct (value_of a) eqn:Ea; [|discriminate]. destruct (value_of b) eqn:Eb; [|discriminate].
    rewrite (V _ _ Ea), (V _ _ Eb). reflexivity.
  - destruct (value_of a) eqn:Ea; [|discriminate]. destruct (value_of b) eqn:Eb; [|discriminate].
    destruct (value_of c) eqn:Ec; [|discriminate].
    rewrite (V _ _ Ea), (V _ _ Eb), (V _ _ Ec). reflexivity.
  - destruct (value_of a) eqn:Ea; [|discriminate]. destruct (value_of b) eqn:Eb; [|discriminate].
    destruct (value_of c) eqn:Ec; [|discriminate]. destruct (value_of d) eqn:Ed; [|discriminate].
    destruct (decode_quanta X) as [out'|]; [|discriminate].
    rewrite (V _ _ Ea), (V _ _ Eb), (V _ _ Ec), (V _ _ Ed), (IH out' eq_refl). reflexivity.
Qed.

Lemma DecodeString_nodot X out : DecodeString X = Some out -> all_bytes nodot X = true.
Proof.
  unfold DecodeString. intros H. apply decode_quanta_values in H.
  induction X as [|c X IH]; [reflexivity|]. cbn [filter_bytes all_bytes] in *.
  destruct (is_newline c) eqn:En; cbn [negb] in H.
  - rewrite (IH H), andb_true_r. unfold nodot.
    destruct c as [[] [] [] [] [] [] [] []]; try discriminate En; reflexivity.
  - cbn [all_bytes] in H. apply andb_prop in H as [Hc HX]. rewrite Hc, (IH HX). reflexivity.
Qed.

End flip_facts.

(** C4, as stated, fails: flipping bit 1 of the last character of an
    issued token (E becomes G) changes only bits that base64 decoding
    does not look at, and the mutated token verifies. *)
Lemma C4_bit_flip_accepted :
  auth.Sign examples.signer examples.host_claims = Ok examples.host_token /\
  auth.Verify examples.signer examples.host_token 1600000000 = Ok examples.host_claims /\
  examples.flipped_token = flip_bit 109 1 examples.host_token /\
  examples.flipped_token <> examples.host_token /\
  auth.Verify examples.signer examples.flipped_token 1600000000 = Ok examples.host_claims.
Proof.
  split; [vm_compute; reflexivity|]. split; [vm_compute; reflexivity|].
  split; [reflexivity|]. split; [vm_compute; discriminate|].
  vm_compute; reflexivity.
Qed.

(** C4, amended: a token [t] issued by [Sign] with one bit flipped is
    another string, and [Verify] treats it exactly as it treats [t]
    when the flip is one the base64 decoder does not read: the bit
    lies in the last character of the payload part or of the signature
    part, and the flipped character is again in the alphabet and
    differs in value only in the low bits that carry no data, four
    after a final group of one byte and two after a final group of
    two.  Every other flip, the dot included, is refused as malformed,
    undecodable or wrongly signed, unless the flipped payload part
    decodes to other bytes that have the same HMAC under the secret. *)
Theorem C4_one_bit_mutation
    (secret : string) (claims : auth.TokenClaims) (now : Z) (t : string) (i k : nat) :
  auth.Sign (auth.NewSigner secret) claims = Ok t ->
  (i < String.length t)%nat -> (k < 8)%nat ->
  let payload := auth.Marshal claims in
  let signature := HMAC.Sum secret payload in
  let t' := flip_bit i k t in
  t' <> t /\
  (flip_unread payload signature i k = true ->
   (S i = String.length (Base64.EncodeToString payload) \/ S i = String.length t) /\
   auth.Verify (auth.NewSigner secret) t' now = auth.Verify (auth.NewSigner secret) t now) /\
  (flip_unread payload signature i k = false ->
   (exists e, auth.Verify (auth.NewSigner secret) t' now = Err e /\
      (e = auth.errFormat \/ e = auth.errPayload \/
       e = auth.errSignatureEncoding \/ e = auth.errSignature)) \/
   (exists part payload',
      Split "." t' = [part; Base64.EncodeToString signature] /\
      Base64.DecodeString part = Some payload' /\
      payload' <> payload /\
      HMAC.Sum secret payload' = signature)).
Proof.
  intros Hsign Hi Hk payload sig t'. subst t'.
  split; [exact (flip_facts.flip_bit_changes k Hk t i Hi)|].
  assert (Et : Base64.EncodeToString payload ++
               String "." (Base64.EncodeToString sig) = t)
    by (subst payload sig; rewrite auth_facts.Sign_token in Hsign;
        change (auth.secret (auth.NewSigner secret)) with secret in Hsign; congruence).
  clear Hsign. subst t.
  set (P := Base64.EncodeToString payload) in *.
  set (S := Base64.EncodeToString sig) in *.
  assert (HP : all_bytes nodot P = true) by apply auth_facts.encode_nodot.
  assert (HS : all_bytes nodot S = true) by apply auth_facts.encode_nodot.
  assert (DP : Base64.DecodeString P = Some payload)
    by apply base64_roundtrip.DecodeString_EncodeToString.
  assert (DS : Base64.DecodeString S = Some sig)
    by apply base64_roundtrip.DecodeString_EncodeToString.
  assert (Ht : auth.Verify (auth.NewSigner secret) (P ++ String "." S) now
               = check (auth.NewSigner secret) payload sig now)
    by apply auth_facts.Verify_signed.
  rewrite auth_facts.length_append in Hi. cbn [String.length] in Hi.
  rewrite auth_facts.length_append. cbn [String.length].
  unfold flip_unread. cbv zeta. fold P.
  rewrite token_facts.flip_bit_app.
  destruct (i <? String.length P)%nat eqn:Ei.
  - (* the flip is in the payload part *)
    apply Nat.ltb_lt in Ei.
    pose proof (flip_facts.decode_flip k Hk payload i Ei) as Hflip. fold P in Hflip.
    split.
    + intros Hu. split.
      { left. unfold unread in Hu. cbv zeta in Hu. fold P in Hu.
        destruct (String.get i P); [|discriminate].
        apply andb_prop in Hu as [Hu _]. apply Nat.eqb_eq in Hu. exact Hu. }
      apply Hflip in Hu.
      assert (Hsp : Split "." (flip_bit i k P ++ String "." S) = [flip_bit i k P; S]).
      { rewrite auth_facts.Split_app by exact (flip_facts.DecodeString_nodot _ _ Hu).
        rewrite auth_facts.Split_nodot by exact HS. reflexivity. }
      rewrite (auth_facts.Verify_parts _ _ _ _ _ _ _ Hsp Hu DS), Ht. reflexivity.
    + intros Hu.
      destruct (Split "." (flip_bit i k P)) as [|x [|y l]] eqn:Ex.
      * exfalso. exact (auth_facts.Split_nonempty _ _ Ex).
      * apply token_facts.Split_single in Ex as (-> & HP').
        assert (Hsp : Split "." (flip_bit i k P ++ String "." S) = [flip_bit i k P; S]).
        { rewrite auth_facts.Split_app by exact HP'.
          rewrite auth_facts.Split_nodot by exact HS. reflexivity. }
        destruct (Base64.DecodeString (flip_bit i k P)) as [payload'|] eqn:Ed.
        -- assert (Hne : payload' <> payload).
           { intros ->. rewrite (proj1 Hflip eq_refl) in Hu. discriminate Hu. }
           destruct (string_dec sig (HMAC.Sum secret payload')) as [Em|Em].
           ++ right. exists (flip_bit i k P), payload'. auto.
           ++ left. exists auth.errSignature. split; [|auto].
              rewrite (auth_facts.Verify_parts _ _ _ _ _ _ _ Hsp Ed DS).
              unfold check. cbn [auth.secret auth.NewSigner].
              unfold HMAC.Equal. apply String.eqb_neq in Em. rewrite Em. reflexivity.
        -- left. exists auth.errPayload. split; [|auto].
           unfold auth.Verify. rewrite Hsp, Ed. reflexivity.
      * left. exists auth.errFormat. split; [|auto].
        apply token_facts.Verify_format. rewrite token_facts.Split_sep_app, Ex.
        rewrite auth_facts.Split_nodot by exact HS. cbn. rewrite length_app. cbn. lia.
  - (* the flip is at the dot or in the signature part *)
    apply Nat.ltb_ge in Ei.
    destruct (i - String.length P)%nat as [|j] eqn:Ej; cbn [flip_bit].
    + (* the dot itself *)
      assert (Ein : (i =? String.length P)%nat = true) by (apply Nat.eqb_eq; lia).
      rewrite Ein. split; [discriminate|]. intros _.
      left. exists auth.errFormat. split; [|auto].
      apply token_facts.Verify_format. rewrite auth_facts.Split_nodot; [cbn; lia|].
      rewrite token_facts.all_bytes_app. cbn [all_bytes].
      rewrite HP, HS, (token_facts.flip_dot k Hk). reflexivity.
    + assert (Ein : (i =? String.length P)%nat = false) by (apply Nat.eqb_neq; lia).
      rewrite Ein.
      assert (Ej' : (i - Datatypes.S (String.length P))%nat = j) by lia. rewrite Ej'.
      assert (Hj : (j < String.length S)%nat) by lia.
      pose proof (flip_facts.decode_flip k Hk sig j Hj) as Hflip. fold S in Hflip.
      split.
      * intros Hu. split.
        { right. unfold unread in Hu. cbv zeta in Hu. fold S in Hu.
          destruct (String.get j S); [|discriminate].
          apply andb_prop in Hu as [Hu _]. apply Nat.eqb_eq in Hu. lia. }
        apply Hflip in Hu.
        assert (Hsp : Split "." (P ++ String "." (flip_bit j k S)) = [P; flip_bit j k S]).
        { rewrite auth_facts.Split_app by exact HP.
          rewrite auth_facts.Split_nodot by exact (flip_facts.DecodeString_nodot _ _ Hu).
          reflexivity. }
        rewrite (auth_facts.Verify_parts _ _ _ _ _ _ _ Hsp DP Hu), Ht. reflexivity.
      * intros Hu. left.
        destruct (Split "." (flip_bit j k S)) as [|x [|y l]] eqn:Ex.
        -- exfalso. exact (auth_facts.Split_nonempty _ _ Ex).
        -- apply token_facts.Split_single in Ex as (-> & HS').
           assert (Hsp : Split "." (P ++ String "." (flip_bit j k S)) = [P; flip_bit j k S]).
           { rewrite auth_facts.Split_app by exact HP.
             rewrite auth_facts.Split_nodot by exact HS'. reflexivity. }
           destruct (Base64.DecodeString (flip_bit j k S)) as [sig'|] eqn:Ed.
           ++ assert (Hne : sig' <> sig).
              { intros ->. rewrite (proj1 Hflip eq_refl) in Hu. discriminate Hu. }
              exists auth.errSignature. split; [|auto].
              rewrite (auth_facts.Verify_parts _ _ _ _ _ _ _ Hsp DP Ed).
              unfold check. cbn [auth.secret auth.NewSigner]. fold sig.
              unfold HMAC.Equal. apply String.eqb_neq in Hne. rewrite Hne. reflexivity.
           ++ exists auth.errSignatureEncoding. split; [|auto].
              unfold auth.Verify. rewrite Hsp, DP, Ed. reflexivity.
        -- exists auth.errFormat. split; [|auto].
           apply token_facts.Verify_format. rewrite auth_facts.Split_app by exact HP.
           rewrite Ex. cbn. lia.
Qed.

Lemma C4_one_bit_mutation_witness :
  flip_unread (auth.Marshal examples.host_claims)
    (HMAC.Sum "changeme-in-production" (auth.Marshal examples.host_claims)) 109 1 = true /\
  flip_bit 109 1 examples.host_token <> examples.host_token /\
  auth.Verify examples.signer (flip_bit 109 1 examples.host_token) 1600000000
    = auth.Verify examples.signer examples.host_token 1600000000 /\
  flip_unread (auth.Marshal examples.host_claims)
    (HMAC.Sum "changeme-in-production" (auth.Marshal examples.host_claims)) 109 0 = false /\
  exists e, auth.Verify examples.signer (flip_bit 109 0 examples.host_token) 1600000000
            = Err e.
Proof.
  assert (Hs : auth.Sign (auth.NewSigner "changeme-in-production") examples.host_claims
               = Ok examples.host_token) by (vm_compute; reflexivity).
  assert (Hl : (109 < String.length examples.host_token)%nat) by (vm_compute; lia).
  split; [vm_compute; reflexivity|].
  destruct (C4_one_bit_mutation "changeme-in-production" examples.host_claims 1600000000
              examples.host_token 109 1 Hs Hl ltac:(lia)) as (Hne & Hsame & _).
  split; [exact Hne|]. split; [apply Hsame; vm_compute; reflexivity|].
  split; [vm_compute; reflexivity|].
  eexists. vm_compute. reflexivity.
Defined.
(** ** The rate limiter *)

Module ratelimit_facts.
Import ratelimit ratelimit_bound.
Open Scope Q_scope.

Lemma seconds_add a b : seconds (a + b) == seconds a + seconds b.
Proof. unfold seconds. rewrite inject_Z_plus. field. discriminate. Qed.

Lemma seconds_le a b : (a <= b)%Z -> seconds a <= seconds b.
Proof.
  intros H. unfold seconds. apply Qmult_le_compat_r.
  - rewrite <- Zle_Qle. exact H.
  - apply Qinv_le_0_compat. discriminate.
Qed.

Lemma Qle_bool_false a b : Qle_bool a b = false -> b < a.
Proof.
  intros H. apply Qnot_le_lt. intros Hle. apply Qle_bool_iff in Hle. congruence.
Qed.

Section Window.
Variables (rt : Q) (bst : Z) (w : Z) (ip : string).
Hypothesis rt_nonneg : 0 <= rt.
Hypothesis bst_nonneg : (0 <= bst)%Z.

Lemma gain_add a b : gain rt (a + b) == gain rt a + gain rt b.
Proof. unfold gain. rewrite seconds_add. ring. Qed.

Lemma gain_le a b : (a <= b)%Z -> gain rt a <= gain rt b.
Proof.
  intros H. unfold gain. apply seconds_le in H.
  rewrite !(Qmult_comm rt). apply Qmult_le_compat_r; assumption.
Qed.

Lemma gain_0 : gain rt 0 == 0.
Proof. unfold gain, seconds. field. discriminate. Qed.

Lemma gain_Minute : gain rt Minute == rt * 60.
Proof. unfold gain, seconds. change (inject_Z Minute) with (60 * inject_Z Second).
  field. discriminate. Qed.

Lemma gain_nonneg d : (0 <= d)%Z -> 0 <= gain rt d.
Proof. intros H. rewrite <- gain_0. apply gain_le. exact H. Qed.

Lemma bst_Q : 0 <= inject_Z bst.
Proof. change 0 with (inject_Z 0). rewrite <- Zle_Qle. exact bst_nonneg. Qed.

Lemma bound_nonneg : 0 <= bound rt bst.
Proof. unfold bound. pose proof bst_Q. lra. Qed.

(** A bucket within its capacity stays so, takes one token when it
    allows, and never holds more than it held plus the refill. *)
Lemma bucket_Allow_spec b now ok b' :
  0 <= tokens b -> tokens b <= inject_Z bst -> (last b <= now)%Z ->
  bucket_Allow rt bst b now = (ok, b') ->
  last b' = now /\ 0 <= tokens b' /\ tokens b' <= inject_Z bst /\
  tokens b' + (if ok then 1 else 0) <= inject_Z bst /\
  tokens b' + (if ok then 1 else 0) <= tokens b + gain rt (now - last b).
Proof.
  intros H0 Hb Hl. unfold bucket_Allow, refill.
  replace (Z.max 0 (now - last b)) with (now - last b)%Z by lia.
  fold (gain rt (now - last b)).
  pose proof (gain_nonneg (now - last b) ltac:(lia)) as Hg.
  pose proof bst_Q as HB.
  destruct (Qle_bool (inject_Z bst) (tokens b + gain rt (now - last b))) eqn:Ec.
  - apply Qle_bool_iff in Ec.
    destruct (Qle_bool 1 (inject_Z bst)) eqn:E1; intros [= <- <-]; cbn [tokens last].
    + apply Qle_bool_iff in E1. repeat split; lra.
    + apply Qle_bool_false in E1. repeat split; lra.
  - apply Qle_bool_false in Ec.
    destruct (Qle_bool 1 (tokens b + gain rt (now - last b))) eqn:E1;
      intros [= <- <-]; cbn [tokens last].
    + apply Qle_bool_iff in E1. repeat split; lra.
    + apply Qle_bool_false in E1. repeat split; lra.
Qed.

Lemma count_cons t ip' ok log :
  count w ip ((t, ip', ok) :: log) ==
    (if ok && String.eqb ip' ip && (w <=? t)%Z && (t <=? w + Minute)%Z then 1 else 0)
    + count w ip log.
Proof.
  unfold count, allowed_in_window. cbn [List.filter].
  destruct (ok && String.eqb ip' ip && (w <=? t)%Z && (t <=? w + Minute)%Z).
  - cbn [List.length]. rewrite Nat2Z.inj_succ, <- Z.add_1_l, inject_Z_plus. reflexivity.
  - ring.
Qed.

Lemma count_nonneg log : 0 <= count w ip log.
Proof.
  unfold count. change 0 with (inject_Z 0). rewrite <- Zle_Qle. lia.
Qed.

Lemma potential_nonneg l cur :
  good rt bst ip l cur -> (cur <= w + Minute)%Z -> 0 <= potential rt bst w ip l.
Proof.
  intros (_ & _ & _ & Hc) Hcur. unfold potential.
  destruct (limiters l !! ip) as [c|]; [|apply bound_nonneg].
  destruct (Hc c eq_refl) as (H0 & _ & _ & Hseen).
  destruct (w <=? lastSeen c)%Z; [|apply bound_nonneg].
  pose proof (gain_nonneg (w + Minute - lastSeen c) ltac:(lia)). lra.
Qed.

(** A request of [ip] itself. *)
Lemma Allow_same l cur now ok l' :
  good rt bst ip l cur -> (cur <= now)%Z -> (now <= w + Minute)%Z ->
  Allow l ip now = (ok, l') ->
  good rt bst ip l' now /\
  (if (w <=? now)%Z then (if ok then 1 else 0) + potential rt bst w ip l'
   else potential rt bst w ip l') <= potential rt bst w ip l.
Proof.
  intros (Hr & Hb & Hcl & Hc) Hcur Hnow. unfold Allow. rewrite Hr, Hb.
  set (client := match limiters l !! ip with
                 | Some client => client
                 | None => {| limiter := NewBucket bst now; lastSeen := now |}
                 end).
  destruct (bucket_Allow rt bst (limiter client) now) as [ok0 b'] eqn:Eb.
  intros [= <- <-].
  assert (Hclient : 0 <= tokens (limiter client) /\
                    tokens (limiter client) <= inject_Z bst /\
                    (last (limiter client) <= now)%Z).
  { unfold client. destruct (limiters l !! ip) as [c|] eqn:El.
    - destruct (Hc c eq_refl) as (H0 & H1 & H2 & H3). rewrite H2.
      repeat split; try assumption. lia.
    - cbn. pose proof bst_Q. repeat split; try lra. lia. }
  destruct Hclient as (T0 & T1 & T2).
  destruct (bucket_Allow_spec _ _ _ _ T0 T1 T2 Eb) as (Bl & B0 & B1 & B2 & B3).
  split.
  - unfold good, with_limiters; cbn [limiters rate burst cleanup].
    repeat split; try assumption.
    all: rewrite lookup_insert_eq in H; injection H as <-; cbn [limiter lastSeen];
      try assumption; lia.
  - unfold potential at 1 2. unfold with_limiters; cbn [limiters].
    rewrite lookup_insert_eq. cbn [lastSeen limiter].
    destruct (w <=? now)%Z eqn:Ew.
    + apply Z.leb_le in Ew.
      assert (Hend : gain rt (w + Minute - now) <= rt * 60).
      { rewrite <- gain_Minute. apply gain_le. lia. }
      unfold potential, client in *.
      destruct (limiters l !! ip) as [c|] eqn:El.
      * destruct (Hc c eq_refl) as (H0 & H1 & H2 & H3).
        destruct (w <=? lastSeen c)%Z eqn:Es.
        -- rewrite H2 in B3.
           assert (Hsum : gain rt (w + Minute - lastSeen c) ==
                          gain rt (now - lastSeen c) + gain rt (w + Minute - now)).
           { replace (w + Minute - lastSeen c)%Z
               with ((now - lastSeen c) + (w + Minute - now))%Z by lia.
             apply gain_add. }
           rewrite Hsum. destruct ok0; lra.
        -- unfold bound. destruct ok0; lra.
      * unfold bound. destruct ok0; lra.
    + apply Z.leb_gt in Ew.
      unfold potential. destruct (limiters l !! ip) as [c|] eqn:El; [|lra].
      destruct (Hc c eq_refl) as (_ & _ & _ & H3).
      destruct (w <=? lastSeen c)%Z eqn:Es; [|lra].
      apply Z.leb_le in Es. lia.
Qed.

(** A request of another client leaves the bucket of [ip] alone. *)
Lemma Allow_other l cur now ip' ok l' :
  ip' <> ip ->
  good rt bst ip l cur -> (cur <= now)%Z ->
  Allow l ip' now = (ok, l') ->
  good rt bst ip l' now /\ potential rt bst w ip l' = potential rt bst w ip l.
Proof.
  intros Hne (Hr & Hb & Hcl & Hc) Hcur. unfold Allow.
  destruct (bucket_Allow _ _ _ _) as [ok0 b']. intros [= <- <-].
  assert (Hl : limiters (with_limiters l
                 (<[ip' := {| limiter := b'; lastSeen := now |}]> (limiters l))) !! ip
               = limiters l !! ip)
    by (cbn [with_limiters limiters]; apply lookup_insert_ne; exact Hne).
  split.
  - unfold good. rewrite Hl. cbn [with_limiters rate burst cleanup].
    repeat split; try assumption; destruct (Hc c H) as (? & ? & ? & ?);
      try assumption. lia.
  - unfold potential. rewrite Hl. reflexivity.
Qed.

(** A janitor tick inside the window cannot drop a bucket that was
    used inside the window: the cleanup horizon is three minutes. *)
Lemma doCleanup_window l cur now :
  good rt bst ip l cur -> (cur <= now)%Z -> (now <= w + Minute)%Z ->
  good rt bst ip (doCleanup l now) now /\
  potential rt bst w ip (doCleanup l now) = potential rt bst w ip l.
Proof.
  intros (Hr & Hb & Hcl & Hc) Hcur Hnow.
  assert (Hl : limiters (doCleanup l now) !! ip = limiters l !! ip \/
               (limiters (doCleanup l now) !! ip = None /\
                exists c, limiters l !! ip = Some c /\ (lastSeen c < now - 3 * Minute)%Z)).
  { unfold doCleanup. cbn [with_limiters limiters]. rewrite Hcl.
    destruct (limiters l !! ip) as [c|] eqn:El.
    - destruct (decide (lastSeen c < now - 3 * Minute)%Z) as [Hold|Hnew].
      + right. split; [|eauto]. apply map_lookup_filter_None. right.
        intros c' Hc'. rewrite El in Hc'. injection Hc' as <-. cbn. tauto.
      + left. apply map_lookup_filter_Some. split; [exact El|]. exact Hnew.
    - left. apply map_lookup_filter_None. left. assumption. }
  split.
  - unfold good. cbn [doCleanup with_limiters rate burst cleanup].
    repeat split; try assumption;
      (destruct Hl as [Hl|(Hl & _)]; rewrite Hl in H; [|discriminate H]);
      destruct (Hc c H) as (? & ? & ? & ?); try assumption. lia.
  - unfold potential. destruct Hl as [-> |(-> & c & -> & Hold)]; [reflexivity|].
    destruct (w <=? lastSeen c)%Z eqn:Es; [|reflexivity].
    apply Z.leb_le in Es. unfold Minute, Second in *. lia.
Qed.

(** Outside the window a janitor tick keeps the limiter well-formed. *)
Lemma doCleanup_good l cur now :
  good rt bst ip l cur -> (cur <= now)%Z -> good rt bst ip (doCleanup l now) now.
Proof.
  intros (Hr & Hb & Hcl & Hc) Hcur.
  unfold good. cbn [doCleanup with_limiters rate burst cleanup limiters].
  repeat split; try assumption;
    apply map_lookup_filter_Some in H as [H _];
    destruct (Hc c H) as (? & ? & ? & ?); try assumption. lia.
Qed.

Lemma Allow_good l cur now ip' ok l' :
  good rt bst ip l cur -> (cur <= now)%Z -> (w + Minute < now)%Z ->
  Allow l ip' now = (ok, l') -> good rt bst ip l' now.
Proof.
  intros Hg Hcur Hnow HA.
  destruct (decide (ip' = ip)) as [->|Hne].
  - destruct Hg as (Hr & Hb & Hcl & Hc). revert HA. unfold Allow. rewrite Hr, Hb.
    set (client := match limiters l !! ip with
                   | Some client => client
                   | None => {| limiter := NewBucket bst now; lastSeen := now |}
                   end).
    destruct (bucket_Allow rt bst (limiter client) now) as [ok0 b'] eqn:Eb.
    intros [= <- <-].
    assert (Hclient : 0 <= tokens (limiter client) /\
                      tokens (limiter client) <= inject_Z bst /\
                      (last (limiter client) <= now)%Z).
    { unfold client. destruct (limiters l !! ip) as [c|] eqn:El.
      - destruct (Hc c eq_refl) as (H0 & H1 & H2 & H3). rewrite H2.
        repeat split; try assumption. lia.
      - cbn. pose proof bst_Q. repeat split; try lra. lia. }
    destruct Hclient as (T0 & T1 & T2).
    destruct (bucket_Allow_spec _ _ _ _ T0 T1 T2 Eb) as (Bl & B0 & B1 & B2 & B3).
    unfold good, with_limiters; cbn [limiters rate burst cleanup].
    repeat split; try assumption.
    all: rewrite lookup_insert_eq in H; injection H as <-; cbn [limiter lastSeen];
      try assumption; lia.
  - eapply Allow_other; eassumption.
Qed.

(** Past the window nothing more is counted. *)
Lemma after_window trace : forall l cur,
  good rt bst ip l cur -> ordered cur trace -> (w + Minute < cur)%Z ->
  allowed_in_window w ip (run l trace) = 0%nat.
Proof.
  induction trace as [|[now [ip'|]] trace IH]; intros l cur Hg Ho Hcur;
    [reflexivity| |]; destruct Ho as (Hle & Ho).
  - cbn [run]. destruct (Allow l ip' now) as [ok l'] eqn:EA.
    unfold allowed_in_window. cbn [List.filter].
    assert (Hlate : (now <=? w + Minute)%Z = false) by (apply Z.leb_gt; lia).
    rewrite Hlate, andb_false_r.
    apply (IH l' now); [|exact Ho|lia].
    eapply Allow_good; try eassumption. lia.
  - cbn [run]. apply (IH _ now); [|exact Ho|lia].
    eapply doCleanup_good; eassumption.
Qed.

(** What is still counted from a well-formed limiter on is within its
    potential. *)
Lemma window_bound trace : forall l cur,
  good rt bst ip l cur -> ordered cur trace -> (cur <= w + Minute)%Z ->
  count w ip (run l trace) <= potential rt bst w ip l.
Proof.
  induction trace as [|[now [ip'|]] trace IH]; intros l cur Hg Ho Hcur.
  - eapply potential_nonneg; eassumption.
  - destruct Ho as (Hle & Ho). cbn [run].
    destruct (Allow l ip' now) as [ok l'] eqn:EA. rewrite count_cons.
    destruct (Z_le_gt_dec now (w + Minute)) as [Hin|Hout].
    + destruct (decide (ip' = ip)) as [->|Hne].
      * destruct (Allow_same _ _ _ _ _ Hg Hle Hin EA) as (Hg' & Hp).
        specialize (IH l' now Hg' Ho Hin).
        rewrite String.eqb_refl.
        replace (now <=? w + Minute)%Z with true by (symmetry; apply Z.leb_le; lia).
        destruct (w <=? now)%Z, ok; cbn [andb] in *; lra.
      * destruct (Allow_other _ _ _ _ _ _ Hne Hg Hle EA) as (Hg' & Hp).
        specialize (IH l' now Hg' Ho Hin). rewrite Hp in IH.
        apply String.eqb_neq in Hne. rewrite Hne, andb_false_r. cbn [andb]. lra.
    + assert (Hlate : (now <=? w + Minute)%Z = false) by (apply Z.leb_gt; lia).
      rewrite Hlate, andb_false_r.
      assert (Hz : count w ip (run l' trace) == 0).
      { unfold count. rewrite (after_window trace l' now); [reflexivity| |exact Ho|lia].
        eapply Allow_good; try eassumption. lia. }
      rewrite Hz. pose proof (potential_nonneg _ _ Hg Hcur). lra.
  - destruct Ho as (Hle & Ho). cbn [run].
    destruct (Z_le_gt_dec now (w + Minute)) as [Hin|Hout].
    + destruct (doCleanup_window _ _ _ Hg Hle Hin) as (Hg' & Hp).
      rewrite <- Hp. apply (IH _ now); assumption.
    + unfold count. rewrite (after_window trace _ now); [| |exact Ho|lia].
      * eapply potential_nonneg; eassumption.
      * eapply doCleanup_good; eassumption.
Qed.

Lemma NewLimiter_good cur : good rt bst ip (NewLimiter rt bst) cur.
Proof.
  unfold good, NewLimiter; cbn [limiters rate burst cleanup].
  repeat split; rewrite lookup_empty in H; discriminate H.
Qed.

(** The bound of the rate limiter, for one window and one client. *)
Lemma limiter_bound from trace :
  ordered from trace ->
  count w ip (run (NewLimiter rt bst) trace) <= bound rt bst.
Proof.
  intros Ho. destruct (Z_le_gt_dec from (w + Minute)) as [Hin|Hout].
  - apply (window_bound trace _ from (NewLimiter_good from) Ho Hin).
  - unfold count. rewrite (after_window trace _ from (NewLimiter_good from) Ho);
      [apply bound_nonneg | lia].
Qed.
End Window.
End ratelimit_facts.

(** C9: for one client and any window of 60 seconds, the requests the
    limiter allows number at most [rate * 60 + burst]; with the default
    limiters that is 13 for create and 40 for join.  Event times are
    taken in order, as the clock gives them. *)
Theorem C9_rate_limit_window
    (from w : Z) (ip : string) (trace : list (Z * ratelimit.event)) :
  ratelimit.ordered from trace ->
  (forall (rt : Q) (bst : Z), (0 <= rt)%Q -> 0 <= bst ->
     (inject_Z (Z.of_nat
        (ratelimit.allowed_in_window w ip (ratelimit.run (ratelimit.NewLimiter rt bst) trace)))
      <= rt * 60 + inject_Z bst)%Q) /\
  (ratelimit.allowed_in_window w ip
     (ratelimit.run (ratelimit.create ratelimit.NewMultiLimiter) trace) <= 13)%nat /\
  (ratelimit.allowed_in_window w ip
     (ratelimit.run (ratelimit.join ratelimit.NewMultiLimiter) trace) <= 40)%nat.
Proof.
  intros Ho.
  assert (G : forall (rt : Q) (bst : Z), (0 <= rt)%Q -> 0 <= bst ->
     (inject_Z (Z.of_nat
        (ratelimit.allowed_in_window w ip (ratelimit.run (ratelimit.NewLimiter rt bst) trace)))
      <= rt * 60 + inject_Z bst)%Q).
  { intros rt bst Hr Hb. exact (ratelimit_facts.limiter_bound rt bst w ip Hr Hb from trace Ho). }
  split; [exact G|]. split.
  - specialize (G (10 / 60)%Q 3 ltac:(discriminate) ltac:(lia)).
    cbn [ratelimit.NewMultiLimiter ratelimit.create].
    assert (E : ((10 / 60) * 60 + inject_Z 3 == inject_Z 13)%Q) by reflexivity.
    rewrite E in G. rewrite <- Zle_Qle in G. lia.
  - specialize (G (30 / 60)%Q 10 ltac:(discriminate) ltac:(lia)).
    cbn [ratelimit.NewMultiLimiter ratelimit.join].
    assert (E : ((30 / 60) * 60 + inject_Z 10 == inject_Z 40)%Q) by reflexivity.
    rewrite E in G. rewrite <- Zle_Qle in G. lia.
Qed.

Lemma C9_rate_limit_window_witness :
  ratelimit.ordered 0 examples.burst_trace /\
  (ratelimit.allowed_in_window 0 "10.0.0.1"
     (ratelimit.run (ratelimit.create ratelimit.NewMultiLimiter) examples.burst_trace)
   <= 13)%nat.
Proof.
  assert (Ho : ratelimit.ordered 0 examples.burst_trace) by (cbn; lia).
  split; [exact Ho|].
  exact (proj1 (proj2 (C9_rate_limit_window 0 0 "10.0.0.1" examples.burst_trace Ho))).
Defined.

(** ** The bridge *)

Module bridge_facts.
Import bridge.

Lemma wrap64_id z : - 2 ^ 63 <= z < 2 ^ 63 -> wrap64 z = z.
Proof. intros H. unfold wrap64. rewrite Z.mod_small; lia. Qed.

Lemma bytes_read_nonneg script : Forall possible script -> 0 <= bytes_read script.
Proof.
  induction 1 as [|t script (Hr & Hw & _) _ IH]; cbn [bytes_read]; [lia|].
  destruct (stopped t), (read_err t), (0 <? read_n t), (write_err t); lia.
Qed.

Lemma bytes_read_take k script :
  Forall possible script -> bytes_read (firstn k script) <= bytes_read script.
Proof.
  intros H. revert k. induction H as [|t script Ht Hs IH]; intros [|k];
    cbn [firstn bytes_read]; try lia.
  - apply (bytes_read_nonneg (t :: script)). constructor; assumption.
  - specialize (IH k).
    destruct (stopped t), (read_err t), (0 <? read_n t), (write_err t); lia.
Qed.

(** The counter of a loop grows by what its reads deliver; its writes
    lag behind by at most the chunk whose write failed. *)
Lemma forwardToLocal_spec script : forall p,
  Forall possible script ->
  0 <= BytesIn (stats p) ->
  BytesIn (stats p) + bytes_read script < 2 ^ 63 ->
  let p' := forwardToLocal p script in
  BytesIn (stats p') = BytesIn (stats p) + bytes_read script /\
  BytesOut (stats p') = BytesOut (stats p) /\
  written p' - written p <= bytes_read script <= written p' - written p + bufSize /\
  (Forall (fun t => write_err t = false) script ->
   written p' - written p = bytes_read script).
Proof.
  induction script as [|t script IH]; intros p Hs H0 Hlt; cbn [forwardToLocal bytes_read] in *.
  - unfold bufSize. repeat split; try lia.
  - apply Forall_cons_1 in Hs as ((Hr & Hw & Hfull) & Hs).
    pose proof (bytes_read_nonneg script Hs) as Hn. unfold bufSize in *.
    destruct (stopped t); [repeat split; lia|].
    destruct (read_err t); [repeat split; lia|].
    destruct (0 <? read_n t) eqn:En.
    + apply Z.ltb_lt in En.
      destruct (write_err t) eqn:Ew.
      * cbn [stats written add_BytesIn BytesIn BytesOut].
        rewrite wrap64_id by lia. repeat split; try lia.
        intros Hall. apply Forall_cons_1 in Hall as (Hall & _). congruence.
      * specialize (Hfull eq_refl).
        destruct (IH {| stats := add_BytesIn (stats p) (read_n t);
                        written := written p + write_n t |} Hs) as (I1 & I2 & I3 & I4);
          cbn [stats written add_BytesIn BytesIn BytesOut] in *;
          rewrite ?wrap64_id by lia; try lia.
        rewrite wrap64_id in I1 by lia.
        repeat split; try lia.
        intros Hall. apply Forall_cons_1 in Hall as (_ & Hall).
        specialize (I4 Hall). lia.
    + destruct (IH p Hs H0 ltac:(lia)) as (I1 & I2 & I3 & I4).
      repeat split; try lia.
      intros Hall. apply Forall_cons_1 in Hall as (_ & Hall). auto.
Qed.

Lemma forwardToRelay_spec script : forall p,
  Forall possible script ->
  0 <= BytesOut (stats p) ->
  BytesOut (stats p) + bytes_read script < 2 ^ 63 ->
  let p' := forwardToRelay p script in
  BytesOut (stats p') = BytesOut (stats p) + bytes_read script /\
  BytesIn (stats p') = BytesIn (stats p) /\
  written p' - written p <= bytes_read script <= written p' - written p + bufSize /\
  (Forall (fun t => write_err t = false) script ->
   written p' - written p = bytes_read script).
Proof.
  induction script as [|t script IH]; intros p Hs H0 Hlt; cbn [forwardToRelay bytes_read] in *.
  - unfold bufSize. repeat split; try lia.
  - apply Forall_cons_1 in Hs as ((Hr & Hw & Hfull) & Hs).
    pose proof (bytes_read_nonneg script Hs) as Hn. unfold bufSize in *.
    destruct (stopped t); [repeat split; lia|].
    destruct (read_err t); [repeat split; lia|].
    destruct (0 <? read_n t) eqn:En.
    + apply Z.ltb_lt in En.
      destruct (write_err t) eqn:Ew.
      * cbn [stats written add_BytesOut BytesIn BytesOut].
        rewrite wrap64_id by lia. repeat split; try lia.
        intros Hall. apply Forall_cons_1 in Hall as (Hall & _). congruence.
      * specialize (Hfull eq_refl).
        destruct (IH {| stats := add_BytesOut (stats p) (read_n t);
                        written := written p + write_n t |} Hs) as (I1 & I2 & I3 & I4);
          cbn [stats written add_BytesOut BytesIn BytesOut] in *;
          rewrite ?wrap64_id by lia; try lia.
        rewrite wrap64_id in I1 by lia.
        repeat split; try lia.
        intros Hall. apply Forall_cons_1 in Hall as (_ & Hall).
        specialize (I4 Hall). lia.
    + destruct (IH p Hs H0 ltac:(lia)) as (I1 & I2 & I3 & I4).
      repeat split; try lia.
      intros Hall. apply Forall_cons_1 in Hall as (_ & Hall). auto.
Qed.
End bridge_facts.

(** C8, as stated, fails: the counter is bumped before the write.  When
    the write of a chunk of five bytes fails, [BytesIn] is 5 although no
    byte has been written. *)
Lemma C8_counted_before_write :
  Forall bridge.possible examples.failed_write /\
  bridge.BytesIn (bridge.stats (bridge.forwardToLocal bridge.start examples.failed_write)) = 5 /\
  bridge.written (bridge.forwardToLocal bridge.start examples.failed_write) = 0.
Proof.
  split; [|split; reflexivity].
  repeat constructor; cbn; try lia. discriminate.
Qed.

(** C8, amended: each loop adds to its counter the size of every chunk
    it has read, right after the read and before the write.  Short of an
    overflow of the int64, [BytesIn] (relay to local) and [BytesOut]
    (local to relay) equal the bytes read for forwarding, never decrease
    as the loop goes on, leave the other counter alone, and exceed the
    bytes written by at most the one chunk whose write failed; they equal
    the bytes written as long as no write has failed. *)
Theorem C8_counters_follow_reads (script : list bridge.turn) :
  Forall bridge.possible script ->
  bridge.bytes_read script < 2 ^ 63 ->
  let to_local := bridge.forwardToLocal bridge.start script in
  let to_relay := bridge.forwardToRelay bridge.start script in
  bridge.BytesIn (bridge.stats to_local) = bridge.bytes_read script /\
  bridge.BytesOut (bridge.stats to_local) = 0 /\
  bridge.BytesOut (bridge.stats to_relay) = bridge.bytes_read script /\
  bridge.BytesIn (bridge.stats to_relay) = 0 /\
  (forall k,
     bridge.BytesIn (bridge.stats (bridge.forwardToLocal bridge.start (firstn k script)))
       <= bridge.BytesIn (bridge.stats to_local) /\
     bridge.BytesOut (bridge.stats (bridge.forwardToRelay bridge.start (firstn k script)))
       <= bridge.BytesOut (bridge.stats to_relay)) /\
  bridge.written to_local <= bridge.BytesIn (bridge.stats to_local)
    <= bridge.written to_local + bridge.bufSize /\
  bridge.written to_relay <= bridge.BytesOut (bridge.stats to_relay)
    <= bridge.written to_relay + bridge.bufSize /\
  (Forall (fun t => bridge.write_err t = false) script ->
   bridge.written to_local = bridge.BytesIn (bridge.stats to_local) /\
   bridge.written to_relay = bridge.BytesOut (bridge.stats to_relay)).
Proof.
  intros Hs Hlt to_local to_relay.
  destruct (bridge_facts.forwardToLocal_spec script bridge.start Hs)
    as (L1 & L2 & L3 & L4); [cbn; lia | cbn; lia |].
  destruct (bridge_facts.forwardToRelay_spec script bridge.start Hs)
    as (R1 & R2 & R3 & R4); [cbn; lia | cbn; lia |].
  fold to_local in L1, L2, L3, L4. fold to_relay in R1, R2, R3, R4.
  cbn [bridge.start bridge.stats bridge.written bridge.BytesIn bridge.BytesOut] in *.
  repeat split; try lia.
  - pose proof (bridge_facts.bytes_read_take k script Hs) as Hk.
    pose proof (bridge_facts.bytes_read_nonneg _ (Forall_take _ k _ Hs)) as Hn.
    destruct (bridge_facts.forwardToLocal_spec (firstn k script) bridge.start
                (Forall_take _ k _ Hs)) as (K1 & _); cbn; try lia.
    cbn in K1. lia.
  - pose proof (bridge_facts.bytes_read_take k script Hs) as Hk.
    pose proof (bridge_facts.bytes_read_nonneg _ (Forall_take _ k _ Hs)) as Hn.
    destruct (bridge_facts.forwardToRelay_spec (firstn k script) bridge.start
                (Forall_take _ k _ Hs)) as (K1 & _); cbn; try lia.
    cbn in K1. lia.
  - specialize (L4 H). lia.
  - specialize (R4 H). lia.
Qed.

Lemma C8_counters_follow_reads_witness :
  bridge.BytesIn (bridge.stats (bridge.forwardToLocal bridge.start examples.two_chunks)) = 12 /\
  bridge.BytesOut (bridge.stats (bridge.forwardToRelay bridge.start examples.two_chunks)) = 12.
Proof.
  assert (Hs : Forall bridge.possible examples.two_chunks)
    by (repeat (constructor; [unfold bridge.possible, bridge.bufSize; cbn; lia|]);
        constructor).
  assert (Hlt : bridge.bytes_read examples.two_chunks < 2 ^ 63) by (cbn; lia).
  destruct (C8_counters_follow_reads examples.two_chunks Hs Hlt) as (H1 & _ & H2 & _).
  split; [exact H1 | exact H2].
Defined.

(** ** The relay *)

Module relay_facts.
Import relay.

Lemma splices_app sid a b : splices sid (a ++ b)%list = (splices sid a + splices sid b)%nat.
Proof. unfold splices. rewrite List.filter_app, length_app. reflexivity. Qed.

Lemma authenticated_cons sid o outs :
  authenticated sid (o :: outs) = (authenticated sid [o] + authenticated sid outs)%nat.
Proof.
  unfold authenticated. cbn [List.filter].
  destruct (match o with
            | Paired s _ | Waiting s _ => String.eqb s sid
            | Rejected => false
            end); reflexivity.
Qed.

Lemma splices_hello sid c now : splices sid (hello c now) = 0%nat.
Proof. reflexivity. Qed.

Lemma pending_count_insert sid sid' p r :
  pending_count sid (with_pending r (<[sid' := p]> (pending r))) =
    if decide (sid' = sid) then 1%nat else pending_count sid r.
Proof.
  unfold pending_count. cbn [with_pending pending]. rewrite lookup_insert.
  destruct (decide (sid' = sid)); reflexivity.
Qed.

Lemma pending_count_delete sid sid' r :
  pending_count sid (with_pending r (delete sid' (pending r))) =
    if decide (sid' = sid) then 0%nat else pending_count sid r.
Proof.
  unfold pending_count. cbn [with_pending pending]. rewrite lookup_delete.
  destruct (decide (sid' = sid)); reflexivity.
Qed.

Lemma eqb_decide (a b : string) : String.eqb a b = if decide (a = b) then true else false.
Proof.
  destruct (decide (a = b)) as [->|Hne]; [apply String.eqb_refl|].
  apply String.eqb_neq. exact Hne.
Qed.

(** One connection: a splice uses up the pending entry and counts as
    an authenticated connection; an install counts as one too. *)
Lemma HandleConnection_count sid r c msg writable now r1 effects out :
  HandleConnection r c msg writable now = (r1, effects, out) ->
  (2 * splices sid effects + pending_count sid r1 <=
   authenticated sid [out] + pending_count sid r)%nat.
Proof.
  unfold HandleConnection, reject.
  destruct msg as [authMsg|]; [|intros [= <- <- <-]; cbn; lia].
  destruct (validator r now (RelayToken authMsg)) as [[sessionID role]|];
    [|intros [= <- <- <-]; cbn; lia].
  destruct (_ || _); [intros [= <- <- <-]; cbn; lia|].
  destruct writable; cbn [negb]; [|intros [= <- <- <-]; cbn; lia].
  destruct (pending r !! sessionID) as [p|] eqn:Ep.
  - destruct (negb (String.eqb (PRole p) role)).
    + destruct (if String.eqb role "host" then (c, Conn p) else (Conn p, c))
        as [hostConn joinerConn].
      intros [= <- <- <-]. rewrite pending_count_delete.
      unfold splices, authenticated. cbn [app List.filter sendAuthResponse].
      rewrite eqb_decide.
      destruct (decide (sessionID = sid)) as [->|Hne]; cbn [List.length]; [|lia].
      unfold pending_count. rewrite Ep. lia.
    + intros [= <- <- <-]. rewrite pending_count_insert.
      unfold splices, authenticated. cbn [app List.filter sendAuthResponse].
      rewrite eqb_decide.
      destruct (decide (sessionID = sid)); cbn [List.length]; lia.
  - intros [= <- <- <-]. rewrite pending_count_insert.
    unfold splices, authenticated. cbn [app List.filter sendAuthResponse].
    rewrite eqb_decide.
    destruct (decide (sessionID = sid)); cbn [List.length]; lia.
Qed.

Lemma waitForPair_turn_count sid r c sessionID now deadline r1 effects :
  waitForPair_turn r c sessionID now deadline = Some (r1, effects) ->
  splices sid effects = 0%nat /\ (pending_count sid r1 <= pending_count sid r)%nat.
Proof.
  unfold waitForPair_turn.
  destruct (pending r !! sessionID) as [p|]; [|intros [= <- <-]; split; [reflexivity|lia]].
  destruct (Nat.eqb (Conn p) c); [|intros [= <- <-]; split; [reflexivity|lia]].
  destruct (deadline <? now); [|discriminate].
  intros [= <- <-]. split; [reflexivity|]. rewrite pending_count_delete.
  destruct (decide (sessionID = sid)); lia.
Qed.

Lemma cleanup_fold_count sid threshold l acc :
  let res := foldr (cleanup_step threshold) acc l in
  splices sid (snd res) = splices sid (snd acc) /\
  (pending_count sid (fst res) <= pending_count sid (fst acc))%nat.
Proof.
  induction l as [|[sessionID p] l (IH1 & IH2)]; cbn [foldr]; [split; [reflexivity|lia]|].
  destruct (foldr (cleanup_step threshold) acc l) as [r effects].
  cbn [cleanup_step fst snd] in *.
  destruct (CreatedAt p <? threshold); cbn [fst snd]; [|split; assumption].
  split.
  - rewrite splices_app, IH1. cbn. lia.
  - rewrite pending_count_delete. destruct (decide (sessionID = sid)); lia.
Qed.

Lemma cleanup_count sid r now r1 effects :
  cleanup r now = (r1, effects) ->
  splices sid effects = 0%nat /\ (pending_count sid r1 <= pending_count sid r)%nat.
Proof.
  unfold cleanup. intros H.
  pose proof (cleanup_fold_count sid (now - pairTimeout r) (map_to_list (pending r)) (r, []))
    as (H1 & H2).
  rewrite H in H1, H2. cbn [fst snd] in *. split; [exact H1|exact H2].
Qed.

(** Along any run, twice the splices of a session plus its pending
    entry stay within its authenticated connections. *)
Lemma run_count sid trace : forall r r' effects outs,
  run r trace = (r', effects, outs) ->
  (2 * splices sid effects + pending_count sid r' <=
   authenticated sid outs + pending_count sid r)%nat.
Proof.
  induction trace as [|[c msg writable now|c sessionID now deadline|now] trace IH];
    intros r r' effects outs; cbn [run].
  - intros [= <- <- <-]. cbn. lia.
  - destruct (HandleConnection r c msg writable now) as [[r1 e1] out] eqn:E1.
    destruct (run r1 trace) as [[r2 e2] outs2] eqn:E2. intros [= <- <- <-].
    pose proof (HandleConnection_count sid _ _ _ _ _ _ _ _ E1).
    pose proof (IH _ _ _ _ E2).
    rewrite splices_app, authenticated_cons. lia.
  - destruct (waitForPair_turn r c sessionID now deadline) as [[r1 e1]|] eqn:E1.
    + destruct (run r1 trace) as [[r2 e2] outs2] eqn:E2. intros [= <- <- <-].
      destruct (waitForPair_turn_count sid _ _ _ _ _ _ _ E1).
      pose proof (IH _ _ _ _ E2). rewrite splices_app. lia.
    + apply IH.
  - destruct (cleanup r now) as [r1 e1] eqn:E1.
    destruct (run r1 trace) as [[r2 e2] outs2] eqn:E2. intros [= <- <- <-].
    destruct (cleanup_count sid _ _ _ _ E1).
    pose proof (IH _ _ _ _ E2). rewrite splices_app. lia.
Qed.
End relay_facts.

(** C1, as stated, fails: with host, joiner, host and joiner arriving in
    turn for one session, the relay splices two pairs. *)
Lemma C1_two_pairs_for_one_session :
  let '(r, effects, outs) := relay.run examples.the_relay examples.four_connections in
  relay.authenticated "30313233" outs = 4%nat /\
  relay.splices "30313233" effects = 2%nat /\
  In (relay.Splice "30313233" 1%nat 2%nat) effects /\
  In (relay.Splice "30313233" 3%nat 4%nat) effects.
Proof. vm_compute. intuition. Qed.

(** C1, amended: the pending table has one slot per session id and the
    relay keeps no record of the sessions it has paired, so later
    connections of a session pair again.  Along any run of a relay
    that starts with [NewRelay], twice the number of splices of a
    session, plus one if it is left with a pending entry, is at most
    the number of its authenticated connections: of [n] such
    connections at most [n / 2] pairs are spliced.  From any other
    relay the same holds with the entry the session starts with
    counted as one more connection.  An authenticated connection that
    finds a pending entry of its own role closes the socket of that
    entry and takes its place; one that finds an entry of the other
    role removes it and is spliced with it, host on the host side. *)
Theorem C1_pairing_per_session
    (validator : relay.TokenValidator) (pairTimeout maxDuration : Z)
    (trace : list relay.event) (sessionID : string) :
  let started := relay.NewRelay validator pairTimeout maxDuration in
  let r' := fst (fst (relay.run started trace)) in
  let effects := snd (fst (relay.run started trace)) in
  let outs := snd (relay.run started trace) in
  (2 * relay.splices sessionID effects + pending_count sessionID r' <=
     relay.authenticated sessionID outs)%nat /\
  (relay.splices sessionID effects <= Nat.div (relay.authenticated sessionID outs) 2)%nat /\
  (forall (r r1 : relay.Relay) (effects1 : list relay.effect) (outs1 : list relay.outcome),
     relay.run r trace = (r1, effects1, outs1) ->
     (2 * relay.splices sessionID effects1 + pending_count sessionID r1 <=
      relay.authenticated sessionID outs1 + pending_count sessionID r)%nat) /\
  (forall (r : relay.Relay) (c : relay.conn) (m : relay.AuthMessage) (now : Z)
          (p : relay.PendingConnection),
     relay.validator r now (relay.RelayToken m) = Ok (relay.SessionID m, relay.Role m) ->
     relay.pending r !! relay.SessionID m = Some p ->
     (relay.PRole p = relay.Role m ->
      relay.HandleConnection r c (Some m) true now =
        (relay.with_pending r
           (<[relay.SessionID m :=
                {| relay.Conn := c; relay.PRole := relay.Role m;
                   relay.PSessionID := relay.SessionID m; relay.CreatedAt := now |}]>
              (relay.pending r)),
         (hello c now ++ [relay.Close (relay.Conn p)])%list,
         relay.Waiting (relay.SessionID m) (relay.Role m))) /\
     (relay.PRole p <> relay.Role m ->
      relay.HandleConnection r c (Some m) true now =
        (relay.with_pending r (delete (relay.SessionID m) (relay.pending r)),
         (hello c now ++
          [if String.eqb (relay.Role m) "host"
           then relay.Splice (relay.SessionID m) c (relay.Conn p)
           else relay.Splice (relay.SessionID m) (relay.Conn p) c])%list,
         relay.Paired (relay.SessionID m) (relay.Role m)))).
Proof.
  intros started r' effects outs.
  assert (Hrun : relay.run started trace = (r', effects, outs)).
  { subst r' effects outs. destruct (relay.run started trace) as [[r1 e1] o1]. reflexivity. }
  pose proof (relay_facts.run_count sessionID trace _ _ _ _ Hrun) as Hcount.
  assert (Hfresh : pending_count sessionID started = 0%nat) by reflexivity.
  rewrite Hfresh, Nat.add_0_r in Hcount.
  split; [exact Hcount|]. split.
  { apply Nat.div_le_lower_bound; [discriminate|]. lia. }
  split; [intros r r1 effects1 outs1; apply relay_facts.run_count|].
  intros r c m now p Hv Hp. split.
  - intros Hrole. unfold relay.HandleConnection. rewrite Hv, !String.eqb_refl, Hp.
    cbn [negb orb]. rewrite Hrole, String.eqb_refl. reflexivity.
  - intros Hrole. unfold relay.HandleConnection. rewrite Hv, !String.eqb_refl, Hp.
    cbn [negb orb]. apply String.eqb_neq in Hrole. rewrite Hrole. cbn [negb].
    destruct (String.eqb (relay.Role m) "host"); reflexivity.
Qed.

Lemma C1_pairing_per_session_witness :
  (relay.splices "30313233"
     (snd (fst (relay.run examples.the_relay examples.four_connections))) <=
   Nat.div (relay.authenticated "30313233"
              (snd (relay.run examples.the_relay examples.four_connections))) 2)%nat /\
  relay.splices "30313233"
    (snd (fst (relay.run examples.the_relay examples.four_connections))) = 2%nat /\
  relay.authenticated "30313233"
    (snd (relay.run examples.the_relay examples.four_connections)) = 4%nat /\
  exists r p,
    relay.pending r !! "30313233" = Some p /\
    relay.PRole p <> "joiner" /\
    relay.HandleConnection r 2%nat (Some examples.joiner_hello) true examples.t0 =
      (relay.with_pending r (delete "30313233" (relay.pending r)),
       (hello 2%nat examples.t0 ++ [relay.Splice "30313233" (relay.Conn p) 2%nat])%list,
       relay.Paired "30313233" "joiner").
Proof.
  pose proof (C1_pairing_per_session examples.validator (30 * ratelimit.Second)
                (4 * 3600 * ratelimit.Second) examples.four_connections "30313233") as H.
  cbv zeta in H. destruct H as (_ & Hhalf & _ & Hstep).
  split; [exact Hhalf|]. split; [vm_compute; reflexivity|]. split; [vm_compute; reflexivity|].
  exists (relay.with_pending examples.the_relay
            {[ "30313233" := {| relay.Conn := 1%nat; relay.PRole := "host";
                                relay.PSessionID := "30313233";
                                relay.CreatedAt := examples.t0 |} ]}).
  eexists. split; [reflexivity|]. split; [discriminate|].
  refine (proj2 (Hstep _ 2%nat examples.joiner_hello examples.t0 _ _ _) _).
  - vm_compute. reflexivity.
  - reflexivity.
  - discriminate.
Defined.

(** C5: when the token verifies but to a session id or a role other than
    the one asserted in the auth message, [HandleConnection] sends the
    failure answer "Token mismatch", closes the socket and returns, and
    the relay, its pending table included, is as it was. *)
Theorem C5_token_mismatch_rejected
    (r : relay.Relay) (c : relay.conn) (m : relay.AuthMessage) (writable : bool) (now : Z)
    (sessionID role : string) :
  relay.validator r now (relay.RelayToken m) = Ok (sessionID, role) ->
  sessionID <> relay.SessionID m \/ role <> relay.Role m ->
  relay.HandleConnection r c (Some m) writable now =
    (r,
     [relay.SetDeadline c (Some (now + 10 * ratelimit.Second));
      relay.Write c (relay.authResponse false "Token mismatch");
      relay.Close c],
     relay.Rejected) /\
  relay.authResponse false "Token mismatch" =
    "{" ++ JSON.encodeString "success" ++ ":false," ++
    JSON.encodeString "error" ++ ":" ++ JSON.encodeString "Token mismatch" ++ "}" ++
    relay.newline.
Proof.
  intros Hv Hne. split; [|reflexivity].
  unfold relay.HandleConnection. rewrite Hv.
  assert (E : negb (String.eqb sessionID (relay.SessionID m))
              || negb (String.eqb role (relay.Role m)) = true).
  { destruct Hne as [H|H]; apply String.eqb_neq in H; rewrite H;
      [reflexivity | apply orb_true_r]. }
  rewrite E. reflexivity.
Qed.

Lemma C5_token_mismatch_rejected_witness :
  relay.HandleConnection examples.the_relay 7%nat (Some examples.lying_hello) true examples.t0 =
    (examples.the_relay,
     [relay.SetDeadline 7%nat (Some (examples.t0 + 10 * ratelimit.Second));
      relay.Write 7%nat (relay.authResponse false "Token mismatch");
      relay.Close 7%nat],
     relay.Rejected).
Proof.
  refine (proj1 (C5_token_mismatch_rejected examples.the_relay 7%nat examples.lying_hello true
                   examples.t0 "30313233" "host" _ _)).
  - vm_compute. reflexivity.
  - right. discriminate.
Defined.

(** * The join endpoint *)

Module server_facts.
Import session server.

(** No branch of [handleJoin] answers 409. *)
Lemma handleJoin_status up s r now entropy :
  In (StatusCode (fst (handleJoin up s r now entropy)))
     [StatusOK; StatusBadRequest; StatusNotFound; StatusMethodNotAllowed;
      StatusTooManyRequests; StatusInternalServerError].
Proof.
  unfold handleJoin.
  destruct (negb (String.eqb (Method r) "POST")); [cbn; tauto|].
  destruct (ratelimit.AllowJoin (limiter s) (ClientIP r) now) as [allowed lim].
  destruct (negb allowed); [cbn; tauto|].
  destruct (BodyCode r) as [reqCode|]; [|cbn; tauto].
  destruct (Join _ _ _ _) as [[[sess st] rest]|e]; [|cbn; tauto].
  destruct (auth.CreateRelayToken _ _ _ _ _); cbn; tauto.
Qed.

(** A POST let through by the limiter whose code the store refuses is answered 404,
    whatever the reason of the refusal. *)
Lemma handleJoin_refused up s r reqCode now entropy e :
  Method r = "POST" ->
  fst (ratelimit.AllowJoin (limiter s) (ClientIP r) now) = true ->
  BodyCode r = Some reqCode ->
  Join (store s) (normalizeCode up reqCode) now entropy = Err e ->
  fst (handleJoin up s r now entropy) = Error "Invalid or expired code" StatusNotFound.
Proof.
  intros Hm Ha Hb Hj. unfold handleJoin. rewrite Hm, Hb. cbn [String.eqb Ascii.eqb Bool.eqb negb].
  destruct (ratelimit.AllowJoin (limiter s) (ClientIP r) now) as [allowed lim].
  cbn [fst] in Ha. subst allowed. cbn [negb store with_limiter].
  rewrite Hj. reflexivity.
Qed.

End server_facts.

(** C2, as stated, fails: a second join on the code of a live session
    is answered 404 by the join endpoint, not 409. *)
Lemma C2_second_join_answered_404 :
  let '(first, s1) :=
    server.handleJoin examples.no_unicode examples.open_server
      examples.join_request examples.t0 examples.entropy_a in
  let '(second, _) :=
    server.handleJoin examples.no_unicode s1
      examples.join_request (examples.t0 + ratelimit.Second) examples.entropy_b in
  server.StatusCode first = server.StatusOK /\
  session.Join (server.store s1) "AAAA-BBBB-CCCC" (examples.t0 + ratelimit.Second)
    examples.entropy_b = Err session.errHasJoiner /\
  second = server.Error "Invalid or expired code" server.StatusNotFound /\
  server.StatusCode second <> server.StatusConflict.
Proof. vm_compute. repeat split. discriminate. Qed.
(** ** The store: life cycle of a session *)

Module store_facts.
Import session store_ops examples gobytes_facts session_facts.

Lemma hex_digit_is_hex v : (v < 16)%N -> is_hex (hex_digit v) = true.
Proof.
  intros H.
  assert (E : (v = 0 \/ v = 1 \/ v = 2 \/ v = 3 \/ v = 4 \/ v = 5 \/ v = 6 \/ v = 7 \/
          v = 8 \/ v = 9 \/ v = 10 \/ v = 11 \/ v = 12 \/ v = 13 \/ v = 14 \/ v = 15)%N) by lia.
  repeat (destruct E as [E|E]; [subst v; reflexivity|]). subst v; reflexivity.
Qed.

Lemma hex_encode_is_hex b : all_bytes is_hex (hex_encode b) = true.
Proof.
  induction b as [|c b IH]; [reflexivity|]. cbn [hex_encode all_bytes].
  rewrite IH, !hex_digit_is_hex; [reflexivity| |].
  - change 15%N with (N.ones 4). rewrite N.land_ones. apply N.mod_lt. discriminate.
  - rewrite N.shiftr_div_pow2. pose proof (bits_facts.byte_val_lt c).
    apply N.Div0.div_lt_upper_bound. exact H.
Qed.

Lemma generateID_hex n entropy v rest :
  generateID n entropy = Ok (v, rest) -> hex_of_length (2 * n) v = true.
Proof.
  intros H. apply generateID_ok in H as (Hlen & -> & _). unfold hex_of_length.
  rewrite hex_encode_length, take_length by exact Hlen.
  rewrite Nat.eqb_refl, hex_encode_is_hex. reflexivity.
Qed.

Lemma cleanup_fold_ttl now l s : ttl (foldr (cleanup_step now) s l) = ttl s.
Proof.
  induction l as [|[id session] l IH]; [reflexivity|]. simpl.
  destruct (expired now session); simpl; exact IH.
Qed.

(** An entry the loop does not delete is as it was. *)
Lemma cleanup_fold_keeps now l s id :
  (forall session, (id, session) ∈ l -> expired now session = false) ->
  sessions (foldr (cleanup_step now) s l) !! id = sessions s !! id.
Proof.
  induction l as [|[id' session'] l IH]; intros H; [reflexivity|]. simpl.
  assert (IH' : sessions (foldr (cleanup_step now) s l) !! id = sessions s !! id).
  { apply IH. intros session Hin. apply H. apply elem_of_cons. right. exact Hin. }
  destruct (expired now session') eqn:E; simpl; [|exact IH'].
  destruct (decide (id' = id)) as [->|Hne].
  - rewrite (H session') in E; [discriminate|]. apply elem_of_cons. left. reflexivity.
  - rewrite lookup_delete_ne by exact Hne. exact IH'.
Qed.

Lemma cleanup_fold_keeps_code now l s code :
  (forall id session, (id, session) ∈ l -> expired now session = true -> Code session <> code) ->
  byCodes (foldr (cleanup_step now) s l) !! code = byCodes s !! code.
Proof.
  induction l as [|[id' session'] l IH]; intros H; [reflexivity|]. simpl.
  assert (IH' : byCodes (foldr (cleanup_step now) s l) !! code = byCodes s !! code).
  { apply IH. intros id session Hin. apply (H id). apply elem_of_cons. right. exact Hin. }
  destruct (expired now session') eqn:E; simpl; [|exact IH'].
  rewrite lookup_delete_ne; [exact IH'|].
  apply (H id' session'); [apply elem_of_cons; left; reflexivity | exact E].
Qed.

Lemma cleanup_sessions s now id : sessions (cleanup s now) !! id = GetByID s id now.
Proof.
  unfold GetByID. destruct (sessions s !! id) as [session|] eqn:Hs.
  - destruct (expired now session) eqn:E.
    + apply (cleanup_removes s now id session Hs). apply expired_true. exact E.
    + unfold cleanup. rewrite cleanup_fold_keeps; [exact Hs|].
      intros session' Hin. apply elem_of_map_to_list in Hin.
      rewrite Hs in Hin. injection Hin as <-. exact E.
  - apply cleanup_fold_sessions_None. exact Hs.
Qed.

Lemma expired_mono now t session : now <= t -> expired now session = true -> expired t session = true.
Proof. rewrite !expired_true. lia. Qed.

Lemma GetByID_cleanup s now id t : now <= t -> GetByID (cleanup s now) id t = GetByID s id t.
Proof.
  intros Ht. unfold GetByID at 1. rewrite cleanup_sessions. unfold GetByID.
  destruct (sessions s !! id) as [session|]; [|reflexivity].
  destruct (expired now session) eqn:E; [|reflexivity].
  rewrite (expired_mono now t session Ht E). reflexivity.
Qed.

Section Steps.
Variable u : string -> string.

Lemma session_ok_set_JoinToken ttl id sess tok :
  session_ok ttl id sess = true -> hex_of_length 64 tok = true ->
  session_ok ttl id (set_JoinToken sess tok) = true.
Proof.
  unfold session_ok. cbn [ID HostToken JoinToken Code ExpiresAt CreatedAt set_JoinToken].
  intros H Ht. rewrite Ht, orb_true_r. rewrite !andb_true_iff in H |- *.
  destruct H as (((((H1 & H2) & H3) & _) & H5) & H6). auto 10.
Qed.

Lemma Create_well_formed s now entropy sess s' rest :
  well_formed s -> Create u s now entropy = Ok (sess, s', rest) -> well_formed s'.
Proof.
  intros Hwf Hc. pose proof Hc as Hc'. unfold Create in Hc'.
  destruct (generateID 16 entropy) as [[id e1]|] eqn:E1; [|discriminate].
  destruct (generateCode u e1) as [[code e2]|] eqn:E2; [|discriminate].
  destruct (generateID 32 e2) as [[tok e3]|] eqn:E3; [|discriminate].
  injection Hc' as <- <- <-.
  intros id' sess'. cbn [sessions ttl]. intros Hl.
  destruct (decide (id = id')) as [<-|Hne].
  - rewrite lookup_insert_eq in Hl. injection Hl as <-.
    unfold session_ok. cbn [ID HostToken JoinToken Code ExpiresAt CreatedAt].
    rewrite String.eqb_refl.
    pose proof (generateID_hex 16 _ _ _ E1) as H1.
    pose proof (generateID_hex 32 _ _ _ E3) as H3.
    change (2 * 16)%nat with 32%nat in H1. change (2 * 32)%nat with 64%nat in H3.
    rewrite H1, H3.
    apply generateCode_ok in E2 as (_ & _ & ->). rewrite Z.eqb_refl. reflexivity.
  - rewrite lookup_insert_ne in Hl by exact Hne. apply Hwf. exact Hl.
Qed.

Lemma Join_well_formed s code now entropy sess s' rest :
  well_formed s -> Join s code now entropy = Ok (sess, s', rest) -> well_formed s'.
Proof.
  intros Hwf. unfold Join.
  destruct (byCodes s !! code) as [id|]; [|discriminate].
  destruct (sessions s !! id) as [session|] eqn:Hs; [|discriminate].
  destruct (expired now session); [discriminate|].
  destruct (negb (String.eqb (JoinToken session) "")); [discriminate|].
  destruct (generateID 32 entropy) as [[tok e]|] eqn:E; [|discriminate].
  intros [= <- <- <-]. intros id' sess'. cbn [sessions ttl with_sessions]. intros Hl.
  destruct (decide (id = id')) as [<-|Hne].
  - rewrite lookup_insert_eq in Hl. injection Hl as <-.
    apply session_ok_set_JoinToken; [apply Hwf; exact Hs|].
    exact (generateID_hex 32 _ _ _ E).
  - rewrite lookup_insert_ne in Hl by exact Hne. apply Hwf. exact Hl.
Qed.

Lemma apply_well_formed s o : well_formed s -> well_formed (apply u s o).
Proof.
  intros Hwf. destruct o as [now e|code now e|id c|id c|id|now]; cbn [apply].
  - destruct (Create u s now e) as [[[sess s'] rest]|] eqn:E; [|exact Hwf].
    eapply Create_well_formed; eassumption.
  - destruct (Join s code now e) as [[[sess s'] rest]|] eqn:E; [|exact Hwf].
    eapply Join_well_formed; eassumption.
  - unfold SetHostConnected. destruct (sessions s !! id) as [session|] eqn:Hs; [|exact Hwf].
    intros id' sess'. cbn [sessions ttl with_sessions]. intros Hl.
    destruct (decide (id = id')) as [<-|Hne].
    + rewrite lookup_insert_eq in Hl. injection Hl as <-. apply (Hwf id session Hs).
    + rewrite lookup_insert_ne in Hl by exact Hne. apply Hwf. exact Hl.
  - unfold SetJoinConnected. destruct (sessions s !! id) as [session|] eqn:Hs; [|exact Hwf].
    intros id' sess'. cbn [sessions ttl with_sessions]. intros Hl.
    destruct (decide (id = id')) as [<-|Hne].
    + rewrite lookup_insert_eq in Hl. injection Hl as <-. apply (Hwf id session Hs).
    + rewrite lookup_insert_ne in Hl by exact Hne. apply Hwf. exact Hl.
  - unfold Delete. destruct (sessions s !! id) as [session|] eqn:Hs; [|exact Hwf].
    intros id' sess'. cbn [sessions ttl]. intros Hl.
    apply lookup_delete_Some in Hl as [_ Hl]. apply Hwf. exact Hl.
  - intros id' sess'. rewrite cleanup_sessions. unfold cleanup. rewrite cleanup_fold_ttl.
    unfold GetByID. destruct (sessions s !! id') as [session|] eqn:Hs; [|discriminate].
    destruct (expired now session); [discriminate|]. intros [= <-]. apply Hwf. exact Hs.
Qed.

Lemma run_well_formed ops : forall s, well_formed s -> well_formed (run u s ops).
Proof.
  induction ops as [|o ops IH]; intros s Hwf; [exact Hwf|].
  cbn [run fold_left]. apply IH. apply apply_well_formed. exact Hwf.
Qed.

End Steps.

Lemma NewStore_well_formed ttl : well_formed (NewStore ttl).
Proof. intros id sess. cbn [NewStore sessions]. rewrite lookup_empty. discriminate. Qed.

Lemma apply_ttl u s o : ttl (apply u s o) = ttl s.
Proof.
  destruct o as [now e|code now e|id c|id c|id|now]; cbn [apply].
  - destruct (Create u s now e) as [[[sess s'] rest]|] eqn:E; [|reflexivity].
    unfold Create in E.
    destruct (generateID 16 e) as [[? ?]|]; [|discriminate].
    destruct (generateCode u _) as [[? ?]|]; [|discriminate].
    destruct (generateID 32 _) as [[? ?]|]; [|discriminate].
    injection E as _ <- _. reflexivity.
  - destruct (Join s code now e) as [[[sess s'] rest]|] eqn:E; [|reflexivity].
    unfold Join in E.
    destruct (byCodes s !! code) as [id|]; [|discriminate].
    destruct (sessions s !! id) as [session|]; [|discriminate].
    destruct (expired now session); [discriminate|].
    destruct (negb _); [discriminate|].
    destruct (generateID 32 e) as [[? ?]|]; [|discriminate].
    injection E as _ <- _. reflexivity.
  - unfold SetHostConnected. destruct (sessions s !! id); reflexivity.
  - unfold SetJoinConnected. destruct (sessions s !! id); reflexivity.
  - unfold Delete. destruct (sessions s !! id); reflexivity.
  - apply cleanup_fold_ttl.
Qed.

Lemma run_ttl u ops : forall s, ttl (run u s ops) = ttl s.
Proof.
  induction ops as [|o ops IH]; intros s; [reflexivity|].
  cbn [run fold_left]. rewrite <- (apply_ttl u s o). apply IH.
Qed.

Lemma hex_of_length_spec n t :
  hex_of_length n t = true <-> String.length t = n /\ all_bytes is_hex t = true.
Proof. unfold hex_of_length. rewrite andb_true_iff, Nat.eqb_eq. reflexivity. Qed.

Lemma session_ok_spec ttl id sess :
  session_ok ttl id sess = true <->
  ID sess = id /\
  hex_of_length 32 id = true /\
  hex_of_length 64 (HostToken sess) = true /\
  (JoinToken sess = "" \/ hex_of_length 64 (JoinToken sess) = true) /\
  is_code (Code sess) = true /\
  ExpiresAt sess = CreatedAt sess + ttl.
Proof.
  unfold session_ok. rewrite !andb_true_iff, orb_true_iff, String.eqb_eq, String.eqb_eq, Z.eqb_eq.
  tauto.
Qed.

(** Two bytes with the same two hex digits are the same byte. *)
Lemma hex_pair_inj c d :
  hex_digit (N.shiftr (byte_val c) 4) = hex_digit (N.shiftr (byte_val d) 4) ->
  hex_digit (N.land (byte_val c) 15) = hex_digit (N.land (byte_val d) 15) ->
  c = d.
Proof.
  intros H1 H2.
  assert (A : forall_bytes (fun c => forall_bytes (fun d =>
            implb (Ascii.eqb (hex_digit (N.shiftr (byte_val c) 4))
                             (hex_digit (N.shiftr (byte_val d) 4)) &&
                   Ascii.eqb (hex_digit (N.land (byte_val c) 15))
                             (hex_digit (N.land (byte_val d) 15)))
                  (Ascii.eqb c d))) = true) by (vm_compute; reflexivity).
  pose proof (utf8_facts.forall_bytes_spec _ (utf8_facts.forall_bytes_spec _ A c) d) as B.
  cbv beta in B. rewrite H1, H2, !Ascii.eqb_refl in B. cbn [andb implb] in B.
  apply Ascii.eqb_eq. exact B.
Qed.

Lemma hex_encode_inj a : forall b, hex_encode a = hex_encode b -> a = b.
Proof.
  induction a as [|c a IH]; intros [|d b]; cbn [hex_encode]; try discriminate; [reflexivity|].
  intros [= H1 H2 H3]. rewrite (hex_pair_inj c d H1 H2), (IH b H3). reflexivity.
Qed.

Lemma generateID_enough n entropy :
  (n <= String.length entropy)%nat ->
  generateID n entropy = Ok (hex_encode (take n entropy), drop n entropy).
Proof.
  intros H. unfold generateID, rand_Read. apply Nat.leb_le in H. rewrite H. reflexivity.
Qed.

Lemma generateID_short n entropy :
  (String.length entropy < n)%nat -> generateID n entropy = Err ErrRand.
Proof.
  intros H. unfold generateID, rand_Read. apply Nat.leb_gt in H. rewrite H. reflexivity.
Qed.

Lemma hex_of_length_nonempty n t : hex_of_length (S n) t = true -> t <> "".
Proof. intros H ->. discriminate. Qed.

End store_facts.

(** X1: whatever calls a store has served since [NewStore], every
    session in its map sits under its own id, a string of 32 hex
    digits; its host token has 64 hex digits; its join token is empty or
    has 64 hex digits; its code reads XXXX-XXXX-XXXX over A-Z and 2-7;
    and it expires one store lifetime after its creation: no call ever
    moves the expiry of a session. *)
Theorem X1_sessions_of_a_store
    (unicode_upper : string -> string) (ttl : Z) (ops : list store_ops.op)
    (id : string) (sess : session.Session) :
  session.sessions (store_ops.run unicode_upper (session.NewStore ttl) ops) !! id = Some sess ->
  session.ID sess = id /\
  store_ops.hex_of_length 32 id = true /\
  store_ops.hex_of_length 64 (session.HostToken sess) = true /\
  (session.JoinToken sess = "" \/
   store_ops.hex_of_length 64 (session.JoinToken sess) = true) /\
  examples.is_code (session.Code sess) = true /\
  session.ExpiresAt sess = session.CreatedAt sess + ttl.
Proof.
  intros H.
  pose proof (store_facts.run_well_formed unicode_upper ops _
                (store_facts.NewStore_well_formed ttl) id sess H) as Hok.
  rewrite store_facts.run_ttl in Hok. apply store_facts.session_ok_spec in Hok. exact Hok.
Qed.

Lemma X1_sessions_of_a_store_witness :
  exists sess,
    session.sessions
      (store_ops.run examples.no_unicode (session.NewStore 900) samples.some_calls)
      !! "61616161616161616161616161616161" = Some sess /\
    session.ID sess = "61616161616161616161616161616161" /\
    store_ops.hex_of_length 64 (session.JoinToken sess) = true /\
    session.ExpiresAt sess = 900.
Proof.
  eexists. split; [vm_compute; reflexivity|].
  destruct (X1_sessions_of_a_store examples.no_unicode 900 samples.some_calls
              "61616161616161616161616161616161" _ ltac:(vm_compute; reflexivity))
    as (H1 & _ & _ & _ & _ & H6).
  split; [exact H1|]. split; [reflexivity|]. exact H6.
Defined.

(** X2: on a store that has served any calls since [NewStore], the
    empty string is never a valid host token, and a token that
    [ValidateToken] accepts is, unless empty, a string of 64 hex digits
    presented for the role "host" or "joiner". *)
Theorem X2_accepted_tokens
    (unicode_upper : string -> string) (ttl : Z) (ops : list store_ops.op)
    (id : string) (now : Z) :
  let s := store_ops.run unicode_upper (session.NewStore ttl) ops in
  session.ValidateToken s id "" "host" now = false /\
  (forall token role,
     session.ValidateToken s id token role now = true ->
     (role = "host" \/ role = "joiner") /\
     (token = "" \/ store_ops.hex_of_length 64 token = true)).
Proof.
  intros s. unfold session.ValidateToken.
  destruct (session.sessions s !! id) as [sess|] eqn:Hs; [|split; [reflexivity|discriminate]].
  pose proof (store_facts.run_well_formed unicode_upper ops _
                (store_facts.NewStore_well_formed ttl) id sess Hs) as Hok.
  apply store_facts.session_ok_spec in Hok as (_ & _ & Hh & Hj & _).
  destruct (session.expired now sess); [split; [reflexivity|discriminate]|].
  split.
  - cbn [String.eqb Ascii.eqb Bool.eqb]. 
    destruct (String.eqb (session.HostToken sess) "") eqn:E; [|reflexivity].
    apply String.eqb_eq in E. rewrite E in Hh. discriminate.
  - intros token role.
    destruct (String.eqb role "host") eqn:Er.
    + apply String.eqb_eq in Er. intros E. apply String.eqb_eq in E. subst.
      split; [left; reflexivity | right; exact Hh].
    + destruct (String.eqb role "joiner") eqn:Er'; [|discriminate].
      apply String.eqb_eq in Er'. intros E. apply String.eqb_eq in E. subst.
      split; [right; reflexivity|].
      exact Hj.
Qed.

(** X3: the janitor's tick removes exactly the sessions that have
    expired: afterwards the map holds under each id what [GetByID]
    answered at the time of the tick.  No lookup by id or token check at
    that time or later can tell whether the tick has run, and the index
    entry of a code is kept unless an expired session carried that
    code. *)
Theorem X3_cleanup_removes_the_expired (s : session.Store) (now : Z) (id : string) :
  session.sessions (session.cleanup s now) !! id = session.GetByID s id now /\
  session.ttl (session.cleanup s now) = session.ttl s /\
  (forall t, now <= t ->
     session.GetByID (session.cleanup s now) id t = session.GetByID s id t /\
     forall token role,
       session.ValidateToken (session.cleanup s now) id token role t =
       session.ValidateToken s id token role t) /\
  (forall code,
     (forall id' sess, session.sessions s !! id' = Some sess ->
        session.expired now sess = true -> session.Code sess <> code) ->
     session.byCodes (session.cleanup s now) !! code = session.byCodes s !! code).
Proof.
  split; [apply store_facts.cleanup_sessions|].
  split; [apply store_facts.cleanup_fold_ttl|]. split.
  - intros t Ht. split; [apply store_facts.GetByID_cleanup; exact Ht|].
    intros token role. unfold session.ValidateToken.
    rewrite store_facts.cleanup_sessions. unfold session.GetByID.
    destruct (session.sessions s !! id) as [sess|]; [|reflexivity].
    destruct (session.expired now sess) eqn:E; [|reflexivity].
    rewrite (store_facts.expired_mono now t sess Ht E). reflexivity.
  - intros code H. unfold session.cleanup. apply store_facts.cleanup_fold_keeps_code.
    intros id' sess Hin. apply (H id'). apply elem_of_map_to_list. exact Hin.
Qed.

(** X4: [Delete] of an id that is not in the map leaves the store as it
    is; otherwise the session is gone for every lookup by id and every
    token check, the index entry of its code is gone, every session
    under another id is untouched, and a second [Delete] changes
    nothing. *)
Theorem X4_delete (s : session.Store) (id : string) (now : Z) :
  (session.sessions s !! id = None -> session.Delete s id = s) /\
  session.GetByID (session.Delete s id) id now = None /\
  (forall token role, session.ValidateToken (session.Delete s id) id token role now = false) /\
  (forall sess, session.sessions s !! id = Some sess ->
     session.GetByCode (session.Delete s id) (session.Code sess) now = None) /\
  (forall id', id' <> id ->
     session.sessions (session.Delete s id) !! id' = session.sessions s !! id') /\
  session.Delete (session.Delete s id) id = session.Delete s id.
Proof.
  assert (Hgone : session.sessions (session.Delete s id) !! id = None).
  { unfold session.Delete. destruct (session.sessions s !! id) eqn:E; [|exact E].
    apply lookup_delete_eq. }
  split; [intros H; unfold session.Delete; rewrite H; reflexivity|].
  split; [unfold session.GetByID; rewrite Hgone; reflexivity|].
  split; [intros token role; unfold session.ValidateToken; rewrite Hgone; reflexivity|].
  split.
  - intros sess Hs. unfold session.GetByCode, session.Delete. rewrite Hs.
    cbn [session.byCodes]. rewrite lookup_delete_eq. reflexivity.
  - split.
    + intros id' Hne. unfold session.Delete.
      destruct (session.sessions s !! id); [|reflexivity].
      cbn [session.sessions]. apply lookup_delete_ne. congruence.
    + unfold session.Delete at 1. rewrite Hgone. reflexivity.
Qed.

(** X5: a [Join] that succeeds has found, under the code, a stored
    session that is unexpired and has no join token; it stores 32 fresh
    random bytes in hex as the join token of that session and changes
    nothing else.  From then on, up to the expiry, [ValidateToken]
    accepts exactly that token for "joiner" (so no longer the empty
    string), and answers for "host" as before. *)
Theorem X5_join_installs_the_token
    (s : session.Store) (code : string) (now : Z) (entropy : string)
    (joined : session.Session) (s' : session.Store) (rest : string) :
  session.Join s code now entropy = Ok (joined, s', rest) ->
  exists id sess,
    session.byCodes s !! code = Some id /\
    session.sessions s !! id = Some sess /\
    now <= session.ExpiresAt sess /\
    session.JoinToken sess = "" /\
    (32 <= String.length entropy)%nat /\ rest = drop 32 entropy /\
    joined = session.set_JoinToken sess (hex_encode (take 32 entropy)) /\
    session.sessions s' = <[id := joined]> (session.sessions s) /\
    session.byCodes s' = session.byCodes s /\
    session.GetByCode s' code now = Some joined /\
    (forall t token, t <= session.ExpiresAt sess ->
       (session.ValidateToken s' id token "joiner" t = true <->
        token = hex_encode (take 32 entropy)) /\
       session.ValidateToken s' id "" "joiner" t = false /\
       session.ValidateToken s' id token "host" t =
       session.ValidateToken s id token "host" t).
Proof.
  unfold session.Join.
  destruct (session.byCodes s !! code) as [id|] eqn:Hc; [|discriminate].
  destruct (session.sessions s !! id) as [sess|] eqn:Hs; [|discriminate].
  destruct (session.expired now sess) eqn:He; [discriminate|].
  destruct (String.eqb (session.JoinToken sess) "") eqn:Hj; [|discriminate].
  cbn [negb].
  destruct (session.generateID 32 entropy) as [[tok e]|] eqn:E; [|discriminate].
  intros [= <- <- <-].
  pose proof (store_facts.generateID_hex 32 _ _ _ E) as Hhex.
  apply session_facts.generateID_ok in E as (Hlen & Htok & Hrest).
  rewrite <- Htok, <- Hrest. clear Htok Hrest. exists id, sess.
  apply session_facts.expired_false in He. apply String.eqb_eq in Hj.
  assert (Hl : session.sessions
                 (session.with_sessions s (<[id := session.set_JoinToken sess tok]>
                                             (session.sessions s))) !! id
               = Some (session.set_JoinToken sess tok)) by apply lookup_insert_eq.
  repeat (split; [first [assumption | reflexivity]|]).
  split.
  { unfold session.GetByCode.
    cbn [session.byCodes session.with_sessions session.sessions].
    rewrite Hc, lookup_insert_eq.
    change (session.expired now (session.set_JoinToken sess tok))
      with (session.expired now sess).
    apply session_facts.expired_false in He. rewrite He. reflexivity. }
  intros t token Ht. unfold session.ValidateToken. rewrite Hl, Hs.
  change (session.expired t (session.set_JoinToken sess tok)) with (session.expired t sess).
  apply session_facts.expired_false in Ht. rewrite Ht.
  cbn [String.eqb Ascii.eqb Bool.eqb session.JoinToken session.HostToken session.set_JoinToken].
  split; [|split; [|reflexivity]].
  - rewrite String.eqb_eq. split; congruence.
  - destruct (String.eqb tok "") eqn:E; [|reflexivity].
    apply String.eqb_eq in E. rewrite E in Hhex. discriminate.
Qed.

Lemma X5_join_installs_the_token_witness :
  exists joined s' rest,
    session.Join (server.store examples.open_server) "AAAA-BBBB-CCCC" examples.t0
      examples.entropy_a = Ok (joined, s', rest) /\
    session.GetByCode s' "AAAA-BBBB-CCCC" examples.t0 = Some joined /\
    exists id,
      session.byCodes (server.store examples.open_server) !! "AAAA-BBBB-CCCC" = Some id /\
      session.ValidateToken s' id "" "joiner" examples.t0 = false.
Proof.
  assert (E : exists joined s' rest,
            session.Join (server.store examples.open_server) "AAAA-BBBB-CCCC" examples.t0
              examples.entropy_a = Ok (joined, s', rest))
    by (vm_compute; eauto).
  destruct E as (joined & s' & rest & E). exists joined, s', rest.
  split; [exact E|].
  destruct (X5_join_installs_the_token _ _ _ _ _ _ _ E)
    as (id & sess & H1 & _ & H3 & _ & _ & _ & _ & _ & _ & H10 & H11).
  split; [exact H10|]. exists id. split; [exact H1|].
  apply (H11 examples.t0 ""). exact H3.
Defined.

(** X6: [Create] succeeds exactly when 56 random bytes can be drawn.  The
    session it returns has the hex of the first 16 bytes as id and of the
    last 32 as host token, no join token, both connection flags down and
    the expiry [now + ttl]; until that instant [GetByID] finds it and
    [ValidateToken] accepts for "host" its host token and nothing else;
    sessions under other ids are untouched.  With fewer bytes the error
    names the draw that failed and wraps that of the random source. *)
Theorem X6_create
    (unicode_upper : string -> string) (s : session.Store) (now : Z) (entropy : string) :
  ((56 <= String.length entropy)%nat ->
   exists sess s',
     session.Create unicode_upper s now entropy = Ok (sess, s', drop 56 entropy) /\
     session.ID sess = hex_encode (take 16 entropy) /\
     session.HostToken sess = hex_encode (take 32 (drop 24 entropy)) /\
     session.JoinToken sess = "" /\
     session.HostConnected sess = false /\ session.JoinConnected sess = false /\
     session.CreatedAt sess = now /\ session.ExpiresAt sess = now + session.ttl s /\
     (forall t, t <= now + session.ttl s ->
        session.GetByID s' (session.ID sess) t = Some sess /\
        forall token,
          session.ValidateToken s' (session.ID sess) token "host" t = true <->
          token = session.HostToken sess) /\
     (forall id, id <> session.ID sess ->
        session.sessions s' !! id = session.sessions s !! id)) /\
  ((String.length entropy < 16)%nat ->
   session.Create unicode_upper s now entropy =
     Err (ErrWrap "failed to generate session ID" ErrRand)) /\
  ((16 <= String.length entropy < 24)%nat ->
   session.Create unicode_upper s now entropy =
     Err (ErrWrap "failed to generate join code" ErrRand)) /\
  ((24 <= String.length entropy < 56)%nat ->
   session.Create unicode_upper s now entropy =
     Err (ErrWrap "failed to generate host token" ErrRand)).
Proof.
  assert (Hcode : forall e, (8 <= String.length e)%nat ->
            exists code, session.generateCode unicode_upper e = Ok (code, drop 8 e)).
  { intros e He. unfold session.generateCode, rand_Read.
    apply Nat.leb_le in He. rewrite He. eexists. reflexivity. }
  assert (Hcode' : forall e, (String.length e < 8)%nat ->
            session.generateCode unicode_upper e = Err ErrRand).
  { intros e He. unfold session.generateCode, rand_Read.
    apply Nat.leb_gt in He. rewrite He. reflexivity. }
  split; [|split; [|split]].
  - intros Hlen. unfold session.Create.
    rewrite store_facts.generateID_enough by lia.
    destruct (Hcode (drop 16 entropy)) as [code ->].
    { rewrite gobytes_facts.drop_length. lia. }
    rewrite gobytes_facts.drop_drop. cbn [Nat.add].
    rewrite store_facts.generateID_enough by (rewrite gobytes_facts.drop_length; lia).
    rewrite gobytes_facts.drop_drop. cbn [Nat.add].
    eexists. eexists. split; [reflexivity|].
    cbn [session.ID session.HostToken session.JoinToken session.HostConnected
         session.JoinConnected session.CreatedAt session.ExpiresAt session.sessions].
    repeat (split; [reflexivity|]). split.
    + intros t Ht. unfold session.GetByID, session.ValidateToken.
      cbn [session.sessions]. rewrite lookup_insert_eq.
      assert (Hexp : session.expired t
                {| session.ID := hex_encode (take 16 entropy); session.Code := code;
                   session.HostToken := hex_encode (take 32 (drop 24 entropy));
                   session.JoinToken := ""; session.HostConnected := false;
                   session.JoinConnected := false; session.CreatedAt := now;
                   session.ExpiresAt := now + session.ttl s |} = false).
      { apply session_facts.expired_false. exact Ht. }
      rewrite Hexp. split; [reflexivity|]. intros token.
      cbn [String.eqb Ascii.eqb Bool.eqb session.HostToken]. rewrite String.eqb_eq.
      split; congruence.
    + intros id Hne. apply lookup_insert_ne. congruence.
  - intros Hlen. unfold session.Create.
    rewrite store_facts.generateID_short by lia. reflexivity.
  - intros Hlen. unfold session.Create.
    rewrite store_facts.generateID_enough by lia.
    rewrite Hcode' by (rewrite gobytes_facts.drop_length; lia). reflexivity.
  - intros Hlen. unfold session.Create.
    rewrite store_facts.generateID_enough by lia.
    destruct (Hcode (drop 16 entropy)) as [code ->].
    { rewrite gobytes_facts.drop_length. lia. }
    rewrite gobytes_facts.drop_drop. cbn [Nat.add].
    rewrite store_facts.generateID_short by (rewrite gobytes_facts.drop_length; lia).
    reflexivity.
Qed.

(** X7: [generateID(n)] succeeds exactly when [n] random bytes can be
    drawn, and then returns them as [2n] lowercase hex digits; draws of
    different bytes give different ids. *)
Theorem X7_generateID (n : nat) (entropy : string) :
  ((n <= String.length entropy)%nat ->
   session.generateID n entropy = Ok (hex_encode (take n entropy), drop n entropy) /\
   store_ops.hex_of_length (2 * n) (hex_encode (take n entropy)) = true) /\
  ((String.length entropy < n)%nat -> session.generateID n entropy = Err ErrRand) /\
  (forall entropy' id rest rest',
     session.generateID n entropy = Ok (id, rest) ->
     session.generateID n entropy' = Ok (id, rest') ->
     take n entropy = take n entropy').
Proof.
  split; [|split].
  - intros H. split; [apply store_facts.generateID_enough; exact H|].
    eapply store_facts.generateID_hex. apply store_facts.generateID_enough. exact H.
  - apply store_facts.generateID_short.
  - intros entropy' id rest rest' H H'.
    apply session_facts.generateID_ok in H as (_ & -> & _).
    apply session_facts.generateID_ok in H' as (_ & H' & _).
    apply store_facts.hex_encode_inj. exact H'.
Qed.

(** ** Tokens: what [Verify] accepts and what it refuses *)

Module verify_facts.
Import gobytes_facts UTF8 JSON strconv auth json_facts auth_facts token_facts.

Lemma Split_length s : List.length (Split "." s) = S (count_byte "." s).
Proof.
  induction s as [|c s IH]; [reflexivity|]. cbn [Split count_byte].
  destruct (Ascii.eqb c "."); cbn [List.length Nat.add]; [rewrite IH; reflexivity|].
  destruct (Split "." s) as [|part parts] eqn:E; [discriminate IH|].
  cbn [List.length] in *. exact IH.
Qed.

(** The two parts of a token with one separator. *)
Lemma Split_two s p q :
  Split "." s = [p; q] ->
  s = p ++ String "." q /\ all_bytes nodot p = true /\ all_bytes nodot q = true.
Proof.
  revert p. induction s as [|c s IH]; intros p; cbn [Split]; [discriminate|].
  destruct (Ascii.eqb c ".") eqn:E.
  - apply Ascii.eqb_eq in E. subst c. intros [= <- H].
    apply Split_single in H as (-> & H). auto.
  - destruct (Split "." s) as [|part parts] eqn:E'; [discriminate|].
    intros [= <- ->]. destruct (IH part eq_refl) as (-> & Hp & Hq).
    cbn [String.append all_bytes]. unfold nodot at 1. rewrite E. auto.
Qed.

(** The whole of [Verify] on a token that has its two parts. *)
Lemma Verify_Ok_full s token now claims :
  Verify s token now = Ok claims ->
  exists p q payload,
    Split "." token = [p; q] /\
    Base64.DecodeString p = Some payload /\
    Base64.DecodeString q = Some (HMAC.Sum (secret s) payload) /\
    Unmarshal payload = Some claims /\
    (now <= ExpiresAt claims)%Z.
Proof.
  unfold Verify.
  destruct (Split "." token) as [|p [|q [|r l]]]; try discriminate.
  destruct (Base64.DecodeString p) as [payload|] eqn:Ep; [|discriminate].
  destruct (Base64.DecodeString q) as [signature|] eqn:Eq; [|discriminate].
  destruct (HMAC.Equal signature (HMAC.Sum (secret s) payload)) eqn:E;
    cbn [negb]; [|discriminate].
  destruct (Unmarshal payload) as [c|] eqn:Eu; [|discriminate].
  destruct (ExpiresAt c <? now)%Z eqn:Ex; [discriminate|].
  intros [= <-]. apply String.eqb_eq in E. subst signature. apply Z.ltb_ge in Ex.
  exists p, q, payload. auto.
Qed.

Lemma ascii_valid s : isASCII s = true -> ValidString s = true.
Proof.
  induction s as [|c s IH]; [reflexivity|]. unfold isASCII. cbn [all_bytes].
  intros H. apply andb_prop in H as [Hc Hs]. cbn [ValidString].
  rewrite (DecodeRune_ascii c s Hc), Hc. cbn [andb]. apply IH. exact Hs.
Qed.

(** What the signer issues for claims it can read back. *)
Lemma Verify_issued secret claims now :
  ValidString (SessionID claims) = true -> ValidString (Role claims) = true ->
  in_int64 (ExpiresAt claims) = true ->
  exists token,
    Sign (NewSigner secret) claims = Ok token /\
    Verify (NewSigner secret) token now =
      if (ExpiresAt claims <? now)%Z then Err errTokenExpired else Ok claims.
Proof.
  intros Hsid Hrole Hexp. eexists. split; [apply Sign_token|].
  rewrite Verify_signed. unfold check, HMAC.Equal.
  rewrite String.eqb_refl. cbn [negb].
  rewrite Unmarshal_Marshal by assumption. reflexivity.
Qed.

End verify_facts.

(** X8: a token is refused as expired only from the second after its
    [exp]: for claims the signer can read back, the issued token verifies
    at every clock reading up to [exp] itself, and at every later one
    [Verify] answers "token expired". *)
Theorem X8_token_expiry
    (secret : string) (claims : auth.TokenClaims) (now : Z) :
  UTF8.ValidString (auth.SessionID claims) = true ->
  UTF8.ValidString (auth.Role claims) = true ->
  strconv.in_int64 (auth.ExpiresAt claims) = true ->
  exists token,
    auth.Sign (auth.NewSigner secret) claims = Ok token /\
    (auth.ExpiresAt claims < now ->
     auth.Verify (auth.NewSigner secret) token now = Err auth.errTokenExpired) /\
    auth.Verify (auth.NewSigner secret) token (auth.ExpiresAt claims) = Ok claims.
Proof.
  intros Hsid Hrole Hexp.
  destruct (verify_facts.Verify_issued secret claims now Hsid Hrole Hexp) as (token & Hs & Hv).
  exists token. split; [exact Hs|]. split.
  - intros H. rewrite Hv. apply Z.ltb_lt in H. rewrite H. reflexivity.
  - destruct (verify_facts.Verify_issued secret claims (auth.ExpiresAt claims)
                Hsid Hrole Hexp) as (token' & Hs' & Hv').
    assert (token' = token) by congruence. subst token'.
    rewrite Hv', Z.ltb_irrefl. reflexivity.
Qed.

Lemma X8_token_expiry_witness :
  exists token,
    auth.Sign (auth.NewSigner "changeme-in-production") examples.host_claims = Ok token /\
    auth.Verify (auth.NewSigner "changeme-in-production") token 1700000001
      = Err auth.errTokenExpired.
Proof.
  destruct (X8_token_expiry "changeme-in-production" examples.host_claims 1700000001
              eq_refl eq_refl eq_refl) as (token & Hs & He & _).
  exists token. split; [exact Hs|]. apply He. vm_compute. reflexivity.
Defined.

(** X9: a token signed under one secret is refused with "invalid
    signature" by a signer holding another secret, whatever the claims
    and the clock, provided the two secrets give different MACs of the
    payload. *)
Theorem X9_other_secret_refused
    (secret secret' : string) (claims : auth.TokenClaims) (token : string) (now : Z) :
  auth.Sign (auth.NewSigner secret) claims = Ok token ->
  HMAC.Sum secret' (auth.Marshal claims) <> HMAC.Sum secret (auth.Marshal claims) ->
  auth.Verify (auth.NewSigner secret') token now = Err auth.errSignature.
Proof.
  intros Hs Hne.
  assert (Et : token = Base64.EncodeToString (auth.Marshal claims) ++
                 String "." (Base64.EncodeToString (HMAC.Sum secret (auth.Marshal claims)))).
  { rewrite auth_facts.Sign_token in Hs.
    change (auth.secret (auth.NewSigner secret)) with secret in Hs. congruence. }
  subst token.
  rewrite (auth_facts.Verify_parts (auth.NewSigner secret') _ now
             (Base64.EncodeToString (auth.Marshal claims))
             (Base64.EncodeToString (HMAC.Sum secret (auth.Marshal claims)))
             (auth.Marshal claims) (HMAC.Sum secret (auth.Marshal claims))).
  - unfold check, HMAC.Equal. change (auth.secret (auth.NewSigner secret')) with secret'.
    destruct (String.eqb _ _) eqn:E; [|reflexivity].
    apply String.eqb_eq in E. exfalso. apply Hne. symmetry. exact E.
  - rewrite auth_facts.Split_app by apply auth_facts.encode_nodot.
    rewrite auth_facts.Split_nodot by apply auth_facts.encode_nodot. reflexivity.
  - apply base64_roundtrip.DecodeString_EncodeToString.
  - apply base64_roundtrip.DecodeString_EncodeToString.
Qed.

Lemma X9_other_secret_refused_witness :
  auth.Verify (auth.NewSigner "another secret") examples.host_token 1600000000
    = Err auth.errSignature.
Proof.
  apply (X9_other_secret_refused "changeme-in-production" "another secret"
           examples.host_claims).
  - vm_compute. reflexivity.
  - vm_compute. discriminate.
Defined.

(** X10: [Verify] answers "invalid token format" exactly for the tokens
    that do not hold one "." and only one: the empty token, a token
    without separator, a token with two or more. *)
Theorem X10_token_format (s : auth.Signer) (token : string) (now : Z) :
  auth.Verify s token now = Err auth.errFormat <-> count_byte "." token <> 1%nat.
Proof.
  split.
  - intros H Hc. revert H. unfold auth.Verify.
    pose proof (verify_facts.Split_length token) as Hl. rewrite Hc in Hl.
    destruct (Split "." token) as [|p [|q [|r l]]]; try discriminate Hl.
    destruct (Base64.DecodeString p); [|discriminate].
    destruct (Base64.DecodeString q); [|discriminate].
    destruct (negb _); [discriminate|].
    destruct (auth.Unmarshal _); [|discriminate].
    destruct (_ <? _); discriminate.
  - intros H. apply token_facts.Verify_format.
    rewrite verify_facts.Split_length. congruence.
Qed.

(** X11: [Verify] accepts a token only if it reads [p.q] with no other
    ".", [p] decodes to a payload, [q] decodes to the HMAC-SHA256 of that
    payload under the signer's secret, the payload unmarshals to the
    claims returned, and their [exp] is not before the clock reading. *)
Theorem X11_accepted_token_carries_its_mac
    (s : auth.Signer) (token : string) (now : Z) (claims : auth.TokenClaims) :
  auth.Verify s token now = Ok claims ->
  exists p q payload,
    token = p ++ "." ++ q /\
    count_byte "." p = 0%nat /\ count_byte "." q = 0%nat /\
    Base64.DecodeString p = Some payload /\
    Base64.DecodeString q = Some (HMAC.Sum (auth.secret s) payload) /\
    auth.Unmarshal payload = Some claims /\
    now <= auth.ExpiresAt claims.
Proof.
  intros H. apply verify_facts.Verify_Ok_full in H
    as (p & q & payload & Hs & Hp & Hq & Hu & Hn).
  exists p, q, payload.
  pose proof (verify_facts.Split_length p) as Lp.
  pose proof (verify_facts.Split_length q) as Lq.
  apply verify_facts.Split_two in Hs as (-> & Np & Nq).
  rewrite auth_facts.Split_nodot in Lp, Lq by assumption.
  cbn [List.length] in Lp, Lq.
  repeat split; try assumption; lia.
Qed.

Lemma X11_accepted_token_carries_its_mac_witness :
  exists p q payload,
    examples.host_token = p ++ "." ++ q /\
    Base64.DecodeString p = Some payload /\
    auth.Unmarshal payload = Some examples.host_claims.
Proof.
  destruct (X11_accepted_token_carries_its_mac examples.signer examples.host_token
              1600000000 examples.host_claims)
    as (p & q & payload & H1 & _ & _ & H4 & _ & H6 & _).
  - vm_compute. reflexivity.
  - exists p, q, payload. auto.
Defined.

(** X12: the relay's validator takes a token that the local signer
    verifies at its word, returning the session id and role of the
    claims without consulting the signalling server.  So a relay token
    made by [CreateRelayToken] for a session id and role in valid UTF-8
    is good at the relay through the second in which its lifetime ends,
    whatever the remote check would say; after that the verdict is the
    remote one. *)
Theorem X12_relay_token_validates
    (secret sessionID role : string) (ttl now later : Z)
    (validateRemote : string -> result (string * string)) :
  UTF8.ValidString sessionID = true ->
  UTF8.ValidString role = true ->
  strconv.in_int64 (auth.Unix (now + ttl)) = true ->
  exists token,
    auth.CreateRelayToken (auth.NewSigner secret) sessionID role ttl now = Ok token /\
    (auth.Unix later <= auth.Unix (now + ttl) ->
     tokenValidator_Validate (auth.NewSigner secret) validateRemote later token
       = Ok (sessionID, role)) /\
    (auth.Unix (now + ttl) < auth.Unix later ->
     tokenValidator_Validate (auth.NewSigner secret) validateRemote later token
       = validateRemote token).
Proof.
  intros Hsid Hrole Hexp. unfold auth.CreateRelayToken, tokenValidator_Validate.
  destruct (verify_facts.Verify_issued secret
              {| auth.SessionID := sessionID; auth.Role := role;
                 auth.ExpiresAt := auth.Unix (now + ttl) |} (auth.Unix later)
              Hsid Hrole Hexp) as (token & Hs & Hv).
  exists token. split; [exact Hs|]. rewrite Hv. cbn [auth.ExpiresAt]. split; intros H.
  - apply Z.ltb_ge in H. rewrite H. reflexivity.
  - apply Z.ltb_lt in H. rewrite H. reflexivity.
Qed.

Lemma X12_relay_token_validates_witness :
  exists token,
    auth.CreateRelayToken (auth.NewSigner "changeme-in-production") "30313233" "joiner"
      (5 * ratelimit.Minute) examples.t0 = Ok token /\
    tokenValidator_Validate (auth.NewSigner "changeme-in-production")
      (fun _ => Err (ErrMsg "unreachable")) (examples.t0 + ratelimit.Minute) token
      = Ok ("30313233", "joiner").
Proof.
  destruct (X12_relay_token_validates "changeme-in-production" "30313233" "joiner"
              (5 * ratelimit.Minute) examples.t0 (examples.t0 + ratelimit.Minute)
              (fun _ => Err (ErrMsg "unreachable")) eq_refl eq_refl eq_refl)
    as (token & Hs & Hv & _).
  exists token. split; [exact Hs|]. apply Hv. vm_compute. discriminate.
Defined.
(** ** The relay: rejections, stale entries, the waiter *)

Module relay_more.
Import relay.

Lemma cleanup_fold_pending threshold l r0 sid :
  pending (fst (foldr (cleanup_step threshold) (r0, []) l)) !! sid =
  if existsb (fun e => String.eqb (fst e) sid && (CreatedAt (snd e) <? threshold)) l
  then None else pending r0 !! sid.
Proof.
  induction l as [|[sid' p] l IH]; [reflexivity|]. cbn [foldr existsb fst snd].
  destruct (foldr (cleanup_step threshold) (r0, []) l) as [r1 effects] eqn:E.
  cbn [fst] in IH. unfold cleanup_step.
  destruct (CreatedAt p <? threshold) eqn:Ep; cbn [fst pending with_pending].
  - destruct (String.eqb sid' sid) eqn:Es; cbn [andb orb].
    + apply String.eqb_eq in Es. subst sid'. apply lookup_delete_eq.
    + apply String.eqb_neq in Es. rewrite lookup_delete_ne by exact Es. exact IH.
  - rewrite andb_false_r. cbn [orb]. exact IH.
Qed.

Lemma cleanup_fold_effects threshold l r0 e :
  In e (snd (foldr (cleanup_step threshold) (r0, []) l)) <->
  exists sid p, In (sid, p) l /\ (CreatedAt p <? threshold) = true /\ e = Close (Conn p).
Proof.
  induction l as [|[sid' p'] l IH].
  - cbn. split; [tauto|]. intros (? & ? & [] & _).
  - cbn [foldr]. destruct (foldr (cleanup_step threshold) (r0, []) l) as [r1 effects] eqn:E.
    cbn [snd] in IH. unfold cleanup_step.
    destruct (CreatedAt p' <? threshold) eqn:Ep; cbn [snd].
    + rewrite in_app_iff, IH. cbn [In]. split.
      * intros [(sid & p & Hin & Hp & He)|[<-|[]]].
        -- exists sid, p. auto.
        -- exists sid', p'. auto.
      * intros (sid & p & [[= <- <-]|Hin] & Hp & He).
        -- right. left. symmetry. exact He.
        -- left. exists sid, p. auto.
    + rewrite IH. split.
      * intros (sid & p & Hin & Hp & He). exists sid, p. cbn [In]. auto.
      * intros (sid & p & [[= <- <-]|Hin] & Hp & He).
        -- rewrite Ep in Hp. discriminate.
        -- exists sid, p. auto.
Qed.

Lemma cleanup_fold_fields threshold l r0 :
  validator (fst (foldr (cleanup_step threshold) (r0, []) l)) = validator r0 /\
  pairTimeout (fst (foldr (cleanup_step threshold) (r0, []) l)) = pairTimeout r0 /\
  maxDuration (fst (foldr (cleanup_step threshold) (r0, []) l)) = maxDuration r0.
Proof.
  induction l as [|[sid' p'] l IH]; [auto|]. cbn [foldr].
  destruct (foldr (cleanup_step threshold) (r0, []) l) as [r1 effects] eqn:E.
  cbn [fst] in IH. unfold cleanup_step.
  destruct (CreatedAt p' <? threshold); cbn [fst]; exact IH.
Qed.

Lemma existsb_map_to_list (m : gmap string PendingConnection) threshold sid :
  existsb (fun e => String.eqb (fst e) sid && (CreatedAt (snd e) <? threshold))
    (map_to_list m) =
  match m !! sid with
  | Some p => CreatedAt p <? threshold
  | None => false
  end.
Proof.
  destruct (existsb _ _) eqn:E.
  - apply existsb_exists in E as ([sid' p] & Hin & H). cbn [fst snd] in H.
    apply andb_prop in H as [Hs Hp]. apply String.eqb_eq in Hs. subst sid'.
    apply list_elem_of_In, elem_of_map_to_list in Hin. rewrite Hin. symmetry. exact Hp.
  - destruct (m !! sid) as [p|] eqn:Hm; [|reflexivity].
    destruct (CreatedAt p <? threshold) eqn:Hp; [|reflexivity].
    assert (existsb (fun e => String.eqb (fst e) sid && (CreatedAt (snd e) <? threshold))
              (map_to_list m) = true); [|congruence].
    apply existsb_exists. exists (sid, p). split.
    + apply list_elem_of_In, elem_of_map_to_list. exact Hm.
    + cbn [fst snd]. rewrite String.eqb_refl, Hp. reflexivity.
Qed.

End relay_more.

(** X13: a handshake that [HandleConnection] rejects leaves the relay,
    its pending table included, exactly as it was; what it does is set
    the 10-second deadline, write one answer and close the socket of the
    newcomer, touching no other socket and splicing nothing.  An
    unreadable auth message is answered "Invalid auth message", a token
    the validator refuses "Invalid token". *)
Theorem X13_rejected_handshake
    (r : relay.Relay) (c : relay.conn) (msg : option relay.AuthMessage)
    (writable : bool) (now : Z) (r' : relay.Relay) (effects : list relay.effect) :
  relay.HandleConnection r c msg writable now = (r', effects, relay.Rejected) ->
  r' = r /\
  (exists answer,
     effects = [relay.SetDeadline c (Some (now + 10 * ratelimit.Second));
                relay.Write c answer; relay.Close c] /\
     (msg = None -> answer = relay.authResponse false "Invalid auth message") /\
     (forall m e, msg = Some m -> relay.validator r now (relay.RelayToken m) = Err e ->
        answer = relay.authResponse false "Invalid token")) /\
  (forall e, In e effects -> conns_of e = [c]).
Proof.
  unfold relay.HandleConnection, relay.reject, relay.sendAuthResponse.
  destruct msg as [m|].
  - destruct (relay.validator r now (relay.RelayToken m)) as [[sid role]|e0] eqn:Ev.
    + destruct (negb (String.eqb sid (relay.SessionID m)) ||
                negb (String.eqb role (relay.Role m))).
      * intros [= <- <-]. split; [reflexivity|]. split.
        -- eexists. split; [reflexivity|]. split; [discriminate|].
           intros m' e [= <-]. rewrite Ev. discriminate.
        -- intros e [<-|[<-|[<-|[]]]]; reflexivity.
      * destruct writable; cbn [negb].
        -- destruct (relay.pending r !! sid) as [p|]; [|discriminate].
           destruct (negb (String.eqb (relay.PRole p) role)); [|discriminate].
           destruct (String.eqb role "host"); discriminate.
        -- intros [= <- <-]. split; [reflexivity|]. split.
           ++ eexists. split; [reflexivity|]. split; [discriminate|].
              intros m' e [= <-]. rewrite Ev. discriminate.
           ++ intros e [<-|[<-|[<-|[]]]]; reflexivity.
    + intros [= <- <-]. split; [reflexivity|]. split.
      * eexists. split; [reflexivity|]. split; [discriminate|]. reflexivity.
      * intros e [<-|[<-|[<-|[]]]]; reflexivity.
  - intros [= <- <-]. split; [reflexivity|]. split.
    + eexists. split; [reflexivity|]. split; [reflexivity|]. discriminate.
    + intros e [<-|[<-|[<-|[]]]]; reflexivity.
Qed.

Lemma X13_rejected_handshake_witness :
  exists answer,
    snd (fst (relay.HandleConnection examples.the_relay 7%nat None true examples.t0)) =
      [relay.SetDeadline 7%nat (Some (examples.t0 + 10 * ratelimit.Second));
       relay.Write 7%nat answer; relay.Close 7%nat] /\
    answer = relay.authResponse false "Invalid auth message".
Proof.
  destruct (X13_rejected_handshake examples.the_relay 7%nat None true examples.t0
              examples.the_relay
              [relay.SetDeadline 7%nat (Some (examples.t0 + 10 * ratelimit.Second));
               relay.Write 7%nat (relay.authResponse false "Invalid auth message");
               relay.Close 7%nat] eq_refl)
    as (_ & (answer & He & Ha & _) & _).
  exists answer. split; [|apply Ha; reflexivity].
  rewrite <- He. reflexivity.
Defined.

(** X14: a tick of the relay's janitor drops from the pending table
    exactly the entries created more than [pairTimeout] before the tick
    (an entry of exactly that age stays), closes the socket of each
    entry it drops, and does nothing else. *)
Theorem X14_relay_cleanup (r : relay.Relay) (now : Z) :
  (forall sessionID,
     relay.pending (fst (relay.cleanup r now)) !! sessionID =
     match relay.pending r !! sessionID with
     | Some p => if stale r now p then None else Some p
     | None => None
     end) /\
  (forall e,
     In e (snd (relay.cleanup r now)) <->
     exists sessionID p,
       relay.pending r !! sessionID = Some p /\
       relay.CreatedAt p < now - relay.pairTimeout r /\
       e = relay.Close (relay.Conn p)) /\
  relay.validator (fst (relay.cleanup r now)) = relay.validator r /\
  relay.pairTimeout (fst (relay.cleanup r now)) = relay.pairTimeout r /\
  relay.maxDuration (fst (relay.cleanup r now)) = relay.maxDuration r.
Proof.
  unfold relay.cleanup. split; [|split].
  - intros sid. rewrite relay_more.cleanup_fold_pending, relay_more.existsb_map_to_list.
    unfold stale. destruct (relay.pending r !! sid) as [p|]; [|reflexivity].
    destruct (_ <? _); reflexivity.
  - intros e. rewrite relay_more.cleanup_fold_effects. split.
    + intros (sid & p & Hin & Hp & He). exists sid, p.
      apply list_elem_of_In, elem_of_map_to_list in Hin. apply Z.ltb_lt in Hp. auto.
    + intros (sid & p & Hin & Hp & He). exists sid, p.
      split; [apply list_elem_of_In, elem_of_map_to_list; exact Hin|].
      apply Z.ltb_lt in Hp. auto.
  - apply relay_more.cleanup_fold_fields.
Qed.

(** X15: when a newcomer pairs with the connection that waits for its
    session, the entry of the waiter leaves the table and the two
    sockets are spliced; the wait loop of the waiter then returns at its
    next turn, whatever the clock, and the close that its handler
    deferred runs on the waiter's socket, one of the two just spliced. *)
Theorem X15_waiter_closes_after_pairing
    (r : relay.Relay) (c : relay.conn) (m : relay.AuthMessage) (now : Z)
    (p : relay.PendingConnection) :
  relay.validator r now (relay.RelayToken m) = Ok (relay.SessionID m, relay.Role m) ->
  relay.pending r !! relay.SessionID m = Some p ->
  relay.PRole p <> relay.Role m ->
  exists r' effects,
    relay.HandleConnection r c (Some m) true now =
      (r', effects, relay.Paired (relay.SessionID m) (relay.Role m)) /\
    relay.pending r' !! relay.SessionID m = None /\
    (exists hostConn joinerConn,
       In (relay.Splice (relay.SessionID m) hostConn joinerConn) effects /\
       (relay.Conn p = hostConn \/ relay.Conn p = joinerConn)) /\
    (forall later deadline,
       relay.waitForPair_turn r' (relay.Conn p) (relay.SessionID m) later deadline =
       Some (r', [relay.Close (relay.Conn p)])).
Proof.
  intros Hv Hp Hrole. unfold relay.HandleConnection.
  rewrite Hv, !String.eqb_refl, Hp. cbn [negb orb].
  apply String.eqb_neq in Hrole. rewrite Hrole. cbn [negb].
  assert (Hgone : relay.pending
            (relay.with_pending r (delete (relay.SessionID m) (relay.pending r)))
            !! relay.SessionID m = None) by apply lookup_delete_eq.
  destruct (String.eqb (relay.Role m) "host"); eexists; eexists;
    (split; [reflexivity|]); (split; [exact Hgone|]); split.
  - exists c, (relay.Conn p). split; [|right; reflexivity].
    apply in_app_iff. right. left. reflexivity.
  - intros later deadline. unfold relay.waitForPair_turn. rewrite Hgone. reflexivity.
  - exists (relay.Conn p), c. split; [|left; reflexivity].
    apply in_app_iff. right. left. reflexivity.
  - intros later deadline. unfold relay.waitForPair_turn. rewrite Hgone. reflexivity.
Qed.

Lemma X15_waiter_closes_after_pairing_witness :
  exists r' effects,
    relay.HandleConnection samples.waiting_relay 2%nat (Some examples.joiner_hello) true
      examples.t0 = (r', effects, relay.Paired "30313233" "joiner") /\
    relay.waitForPair_turn r' 1%nat "30313233" (examples.t0 + ratelimit.Second)
      (examples.t0 + 30 * ratelimit.Second) = Some (r', [relay.Close 1%nat]).
Proof.
  destruct (X15_waiter_closes_after_pairing samples.waiting_relay 2%nat
              examples.joiner_hello examples.t0 samples.waiting_host)
    as (r' & effects & H1 & _ & _ & H4).
  - vm_compute. reflexivity.
  - reflexivity.
  - discriminate.
  - exists r', effects. split; [exact H1|]. apply H4.
Defined.

Module pending_facts.
Import relay.




End pending_facts.



(** ** The signalling server: create, status, connect, delete, validate *)

Module handler_facts.
Import session server handlers gobytes_facts.

(** [strings.Split] on any one-byte separator. *)
Lemma Split_sep_free sep s :
  all_bytes (fun c => negb (Ascii.eqb c sep)) s = true -> Split sep s = [s].
Proof.
  induction s as [|c s IH]; [reflexivity|]. cbn [all_bytes Split]. intros H.
  apply andb_prop in H as [Hc Hs]. apply negb_true_iff in Hc. rewrite Hc, (IH Hs).
  reflexivity.
Qed.

Lemma Split_at_sep sep a b :
  all_bytes (fun c => negb (Ascii.eqb c sep)) a = true ->
  Split sep (a ++ String sep b) = a :: Split sep b.
Proof.
  induction a as [|c a IH]; cbn [all_bytes Split String.append].
  - intros _. rewrite Ascii.eqb_refl. reflexivity.
  - intros H. apply andb_prop in H as [Hc Ha]. apply negb_true_iff in Hc.
    rewrite Hc, (IH Ha). reflexivity.
Qed.

Lemma prefix_app p s : String.prefix p (p ++ s) = true.
Proof.
  induction p as [|c p IH]; cbn [String.prefix String.append]; [destruct s; reflexivity|].
  destruct (ascii_dec c c); [exact IH | contradiction].
Qed.

Lemma drop_app p s : drop (String.length p) (p ++ s) = s.
Proof. induction p as [|c p IH]; [destruct s; reflexivity | exact IH]. Qed.

Lemma TrimPrefix_app p s : TrimPrefix (p ++ s) p = s.
Proof. unfold TrimPrefix. rewrite prefix_app. apply drop_app. Qed.

(** A request that [handleCreate] answers 200 has gone through every
    step. *)
Lemma handleCreate_OK u s r now entropy answer s1 :
  handleCreate u s r now entropy = (answer, s1) ->
  Status answer = StatusOK ->
  exists lim sess st rest relayToken,
    Method r = "POST" /\
    ratelimit.AllowCreate (limiter s) (ClientIP r) now = (true, lim) /\
    Create u (store s) now entropy = Ok (sess, st, rest) /\
    auth.CreateRelayToken (signer s) (ID sess) "host" (tokenTTL s) now = Ok relayToken /\
    answer = {| Status := StatusOK;
                Reply := CreateJSON (ID sess) (Code sess) (HostToken sess) relayToken
                           (auth.Unix (ExpiresAt sess)) |} /\
    s1 = with_store (with_limiter s lim) st.
Proof.
  unfold handleCreate.
  destruct (String.eqb (Method r) "POST") eqn:Em; cbn [negb];
    [|intros [= <- <-]; discriminate].
  destruct (ratelimit.AllowCreate (limiter s) (ClientIP r) now) as [allowed lim].
  destruct allowed; cbn [negb]; [|intros [= <- <-]; discriminate].
  cbn [store with_limiter signer tokenTTL].
  destruct (Create u (store s) now entropy) as [[[sess st] rest]|] eqn:Ec;
    [|intros [= <- <-]; discriminate].
  cbn [store with_store signer tokenTTL with_limiter].
  destruct (auth.CreateRelayToken _ _ _ _ _) as [relayToken|] eqn:Et;
    [|intros [= <- <-]; discriminate].
  intros [= <- <-] _. apply String.eqb_eq in Em.
  exists lim, sess, st, rest, relayToken. auto 10.
Qed.

Lemma is_hex_ascii c : store_ops.is_hex c = true -> (byte_val c <? 128)%N = true.
Proof.
  assert (A : forall_bytes (fun c => implb (store_ops.is_hex c) (byte_val c <? 128)%N) = true)
    by (vm_compute; reflexivity).
  intros H. pose proof (utf8_facts.forall_bytes_spec _ A c) as B. cbv beta in B.
  rewrite H in B. exact B.
Qed.

Lemma hex_valid n s : store_ops.hex_of_length n s = true -> UTF8.ValidString s = true.
Proof.
  intros H. apply store_facts.hex_of_length_spec in H as [_ H].
  apply verify_facts.ascii_valid. unfold isASCII.
  induction s as [|c s IH]; [reflexivity|]. cbn [all_bytes] in *.
  apply andb_prop in H as [Hc Hs]. rewrite (is_hex_ascii c Hc), (IH Hs). reflexivity.
Qed.

End handler_facts.

(** X16: DELETE /session/{id} removes a session only for the bearer of
    its host token, while the session is unexpired: the answer is 200
    exactly when an Authorization header is present and, with or without
    the prefix "Bearer ", equals the host token of the stored, unexpired
    session; the store then is [Delete] of the old one and the status
    endpoint answers 404 for the id.  Without the header the answer is
    401, with any other value 403, and in both cases the server is
    unchanged. *)
Theorem X16_delete_needs_the_host_token
    (s : server.Server) (authorization sessionID : string) (now : Z) :
  let answer := fst (handlers.handleDelete s authorization sessionID now) in
  let s' := snd (handlers.handleDelete s authorization sessionID now) in
  (handlers.Status answer = server.StatusOK <->
   authorization <> "" /\
   exists sess,
     session.sessions (server.store s) !! sessionID = Some sess /\
     now <= session.ExpiresAt sess /\
     handlers.TrimPrefix authorization "Bearer " = session.HostToken sess) /\
  (handlers.Status answer = server.StatusOK ->
   s' = server.with_store s (session.Delete (server.store s) sessionID) /\
   handlers.handleStatus s' sessionID now =
     handlers.httpError "Session not found" server.StatusNotFound) /\
  (handlers.Status answer <> server.StatusOK -> s' = s) /\
  (authorization = "" ->
   answer = handlers.httpError "Authorization required" handlers.StatusUnauthorized) /\
  (authorization <> "" -> handlers.Status answer <> server.StatusOK ->
   answer = handlers.httpError "Invalid token" handlers.StatusForbidden).
Proof.
  unfold handlers.handleDelete.
  destruct (String.eqb authorization "") eqn:Ea; cbn [fst snd].
  - apply String.eqb_eq in Ea.
    split; [split; [discriminate | intros [H _]; contradiction]|].
    split; [discriminate|]. split; [reflexivity|]. split; [reflexivity|].
    intros H. contradiction.
  - apply String.eqb_neq in Ea.
    destruct (session.ValidateToken (server.store s) sessionID
                (handlers.TrimPrefix authorization "Bearer ") "host" now) eqn:Ev;
      cbn [negb fst snd handlers.Status handlers.httpError].
    + unfold session.ValidateToken in Ev.
      destruct (session.sessions (server.store s) !! sessionID) as [sess|] eqn:Hs;
        [|discriminate].
      destruct (session.expired now sess) eqn:Ee; [discriminate|].
      cbn [String.eqb Ascii.eqb Bool.eqb] in Ev. apply String.eqb_eq in Ev.
      apply session_facts.expired_false in Ee.
      split; [split; [intros _; split; [exact Ea|]; exists sess; auto | reflexivity]|].
      split.
      { intros _. split; [reflexivity|]. unfold handlers.handleStatus, session.GetByID.
        cbn [server.store server.with_store]. unfold session.Delete. rewrite Hs.
        cbn [session.sessions]. rewrite lookup_delete_eq. reflexivity. }
      split; [intros H; exfalso; apply H; reflexivity|].
      split; [intros H; contradiction|]. intros _ H. exfalso. apply H. reflexivity.
    + split.
      { split; [discriminate|]. intros (_ & sess & Hs & He & Ht). exfalso.
        unfold session.ValidateToken in Ev. rewrite Hs in Ev.
        apply session_facts.expired_false in He. rewrite He in Ev.
        cbn [String.eqb Ascii.eqb Bool.eqb] in Ev. rewrite Ht, String.eqb_refl in Ev.
        discriminate. }
      split; [discriminate|]. split; [reflexivity|].
      split; [intros H; contradiction | reflexivity].
Qed.

(** X17: [handleSession] takes what follows "/session/" up to the next
    "/" as the session id and the segment after it as the action.  With
    an empty id the answer is 400 and nothing changes.  GET with
    "status" goes to the status handler and POST with "connect" to the
    connect handler; DELETE goes to the delete handler whatever the
    action, or without one; everything else is answered 404 "Not
    found". *)
Theorem X17_session_routes
    (s : server.Server) (r : handlers.SessionRequest) (now : Z)
    (sessionID action : string) :
  sessionID <> "" ->
  all_bytes (fun c => negb (Ascii.eqb c "/")) sessionID = true ->
  all_bytes (fun c => negb (Ascii.eqb c "/")) action = true ->
  handlers.Path r = "/session/" ++ sessionID ++ "/" ++ action ->
  (handlers.SMethod r = "DELETE" ->
   handlers.handleSession s r now =
     handlers.handleDelete s (handlers.Authorization r) sessionID now) /\
  (handlers.SMethod r = "GET" -> action = "status" ->
   handlers.handleSession s r now = (handlers.handleStatus s sessionID now, s)) /\
  (handlers.SMethod r = "POST" -> action = "connect" ->
   handlers.handleSession s r now =
     handlers.handleConnect s (handlers.ConnectBody r) sessionID) /\
  (handlers.SMethod r <> "DELETE" ->
   (handlers.SMethod r = "GET" -> action <> "status") ->
   (handlers.SMethod r = "POST" -> action <> "connect") ->
   handlers.handleSession s r now =
     (handlers.httpError "Not found" server.StatusNotFound, s)) /\
  (forall r0, handlers.Path r0 = "/session/" ++ sessionID ->
     handlers.SMethod r0 = "DELETE" ->
     handlers.handleSession s r0 now =
       handlers.handleDelete s (handlers.Authorization r0) sessionID now) /\
  (forall r0, handlers.Path r0 = "/session/" ->
     handlers.handleSession s r0 now =
       (handlers.httpError "Session ID required" server.StatusBadRequest, s)).
Proof.
  intros Hne Hid Hact Hpath.
  assert (Hsplit : Split "/" (handlers.TrimPrefix (handlers.Path r) "/session/")
                   = [sessionID; action]).
  { rewrite Hpath, handler_facts.TrimPrefix_app.
    change ("/" ++ action) with (String "/" action).
    rewrite handler_facts.Split_at_sep by exact Hid.
    rewrite handler_facts.Split_sep_free by exact Hact. reflexivity. }
  apply String.eqb_neq in Hne.
  unfold handlers.handleSession. rewrite Hsplit, Hne.
  split; [|split; [|split; [|split; [|split]]]].
  - intros ->. cbn [String.eqb Ascii.eqb Bool.eqb andb]. reflexivity.
  - intros -> ->. reflexivity.
  - intros -> ->. reflexivity.
  - intros Hd Hg Hp.
    destruct (String.eqb (handlers.SMethod r) "GET") eqn:Eg.
    + apply String.eqb_eq in Eg. apply Hg in Eg as Ha. apply String.eqb_neq in Ha.
      rewrite Ha. cbn [andb]. rewrite Eg. reflexivity.
    + cbn [andb]. destruct (String.eqb (handlers.SMethod r) "POST") eqn:Ep.
      * apply String.eqb_eq in Ep. apply Hp in Ep as Ha. apply String.eqb_neq in Ha.
        rewrite Ha. cbn [andb]. rewrite Ep. reflexivity.
      * cbn [andb]. apply String.eqb_neq in Hd. rewrite Hd. reflexivity.
  - intros r0 H0 Hm. unfold handlers.handleSession.
    rewrite H0, handler_facts.TrimPrefix_app, handler_facts.Split_sep_free by exact Hid.
    rewrite Hne, Hm. reflexivity.
  - intros r0 H0. unfold handlers.handleSession. rewrite H0. reflexivity.
Qed.

Lemma X17_session_routes_witness :
  handlers.handleSession examples.open_server samples.delete_via_status examples.t0 =
    handlers.handleDelete examples.open_server "Bearer aa" "30313233" examples.t0.
Proof.
  refine (proj1 (X17_session_routes examples.open_server samples.delete_via_status
                   examples.t0 "30313233" "status" _ _ _ _) _).
  - discriminate.
  - reflexivity.
  - reflexivity.
  - reflexivity.
  - reflexivity.
Defined.

(** X18: what the connect endpoint stores is what the status endpoint
    shows.  For a stored, unexpired session, a connect request with role
    "host" (or "joiner") is answered 200 and the status of the session
    then carries the flag sent for that role, the other flag, the id and
    the expiry unchanged; any other role is answered 400 "Invalid role",
    an unreadable body 400 "Invalid request", both without touching the
    server.  Neither request changes which tokens the store accepts. *)
Theorem X18_connect_then_status
    (s : server.Server) (sessionID : string) (sess : session.Session) (now : Z)
    (connected : bool) :
  session.GetByID (server.store s) sessionID now = Some sess ->
  (exists s1,
     handlers.handleConnect s (Some ("host", connected)) sessionID =
       ({| handlers.Status := server.StatusOK; handlers.Reply := handlers.NoBody |}, s1) /\
     handlers.handleStatus s1 sessionID now =
       {| handlers.Status := server.StatusOK;
          handlers.Reply := handlers.StatusJSON (session.ID sess) connected
                              (session.JoinConnected sess)
                              (auth.Unix (session.ExpiresAt sess)) |} /\
     forall token role t,
       session.ValidateToken (server.store s1) sessionID token role t =
       session.ValidateToken (server.store s) sessionID token role t) /\
  (exists s1,
     handlers.handleConnect s (Some ("joiner", connected)) sessionID =
       ({| handlers.Status := server.StatusOK; handlers.Reply := handlers.NoBody |}, s1) /\
     handlers.handleStatus s1 sessionID now =
       {| handlers.Status := server.StatusOK;
          handlers.Reply := handlers.StatusJSON (session.ID sess)
                              (session.HostConnected sess) connected
                              (auth.Unix (session.ExpiresAt sess)) |} /\
     forall token role t,
       session.ValidateToken (server.store s1) sessionID token role t =
       session.ValidateToken (server.store s) sessionID token role t) /\
  (forall role, role <> "host" -> role <> "joiner" ->
     handlers.handleConnect s (Some (role, connected)) sessionID =
       (handlers.httpError "Invalid role" server.StatusBadRequest, s)) /\
  handlers.handleConnect s None sessionID =
    (handlers.httpError "Invalid request" server.StatusBadRequest, s).
Proof.
  unfold session.GetByID.
  destruct (session.sessions (server.store s) !! sessionID) as [sess0|] eqn:Hs;
    [|discriminate].
  destruct (session.expired now sess0) eqn:He; [discriminate|]. intros [= ->].
  split; [|split; [|split]].
  - eexists. unfold handlers.handleConnect, session.SetHostConnected.
    cbn [String.eqb Ascii.eqb Bool.eqb]. rewrite Hs. split; [reflexivity|].
    unfold handlers.handleStatus, session.GetByID, session.ValidateToken.
    cbn [server.store server.with_store session.sessions session.with_sessions].
    rewrite lookup_insert_eq.
    change (session.expired now (session.set_HostConnected sess connected))
      with (session.expired now sess).
    rewrite He, Hs. split; reflexivity.
  - eexists. unfold handlers.handleConnect, session.SetJoinConnected.
    cbn [String.eqb Ascii.eqb Bool.eqb]. rewrite Hs. split; [reflexivity|].
    unfold handlers.handleStatus, session.GetByID, session.ValidateToken.
    cbn [server.store server.with_store session.sessions session.with_sessions].
    rewrite lookup_insert_eq.
    change (session.expired now (session.set_JoinConnected sess connected))
      with (session.expired now sess).
    rewrite He, Hs. split; reflexivity.
  - intros role Hh Hj. unfold handlers.handleConnect.
    apply String.eqb_neq in Hh, Hj. rewrite Hh, Hj. reflexivity.
  - reflexivity.
Qed.

Lemma X18_connect_then_status_witness :
  exists s1,
    handlers.handleConnect examples.open_server (Some ("joiner", true)) "30313233" =
      ({| handlers.Status := server.StatusOK; handlers.Reply := handlers.NoBody |}, s1) /\
    handlers.handleStatus s1 "30313233" examples.t0 =
      {| handlers.Status := server.StatusOK;
         handlers.Reply := handlers.StatusJSON "30313233" true true 1600000900 |}.
Proof.
  destruct (X18_connect_then_status examples.open_server "30313233" examples.open_session
              examples.t0 true) as (_ & (s1 & H1 & H2 & _) & _).
  - vm_compute. reflexivity.
  - exists s1. split; [exact H1|]. exact H2.
Defined.

(** X19: when the relay and the signalling server hold the same secret
    and read the same clock, the remote check adds nothing to the local
    one: a token the local signer refuses is refused by /internal/validate
    with 401 as well, so [Validate] returns the claims' session id and
    role for the tokens the signer verifies, and for every other token
    the error "token validation failed: status 401". *)
Theorem X19_remote_check_agrees
    (secret : string) (srv : server.Server) (post : string -> result remote.response)
    (now : Z) (token : string) :
  server.signer srv = auth.NewSigner secret ->
  post token = Ok (remote.read (handlers.handleValidate srv "POST" (Some token) now)) ->
  tokenValidator_Validate (auth.NewSigner secret) (remote.validateRemote post) now token =
    match auth.Verify (auth.NewSigner secret) token (auth.Unix now) with
    | Ok claims => Ok (auth.SessionID claims, auth.Role claims)
    | Err _ => Err (ErrMsg "token validation failed: status 401")
    end.
Proof.
  intros Hsig Hpost. unfold tokenValidator_Validate.
  destruct (auth.Verify (auth.NewSigner secret) token (auth.Unix now)) as [claims|e] eqn:Ev;
    [reflexivity|].
  unfold remote.validateRemote. rewrite Hpost. unfold handlers.handleValidate.
  cbn [String.eqb Ascii.eqb Bool.eqb negb]. rewrite Hsig, Ev. reflexivity.
Qed.

Lemma X19_remote_check_agrees_witness :
  tokenValidator_Validate (auth.NewSigner "changeme-in-production")
    (remote.validateRemote samples.post_to_open_server) examples.t0 examples.flipped_token =
    Ok ("30313233", "host") /\
  tokenValidator_Validate (auth.NewSigner "changeme-in-production")
    (remote.validateRemote samples.post_to_open_server) examples.t0 "no token" =
    Err (ErrMsg "token validation failed: status 401").
Proof.
  split.
  - rewrite (X19_remote_check_agrees "changeme-in-production" examples.open_server
               samples.post_to_open_server examples.t0 examples.flipped_token
               eq_refl eq_refl).
    vm_compute. reflexivity.
  - rewrite (X19_remote_check_agrees "changeme-in-production" examples.open_server
               samples.post_to_open_server examples.t0 "no token" eq_refl eq_refl).
    vm_compute. reflexivity.
Defined.

(** X29: a create or join request that is not answered 200 has not
    touched the store, and one whose method is not POST has not touched
    the limiter either: it leaves the server as it was.  Signing cannot
    fail, so neither endpoint ever answers "Failed to create token"; a
    refusal of the join endpoint is one of 405, 429, 400 and 404, a
    refusal of the create endpoint one of 405, 429 and 500. *)
Theorem X29_refused_requests_leave_the_store
    (unicode_upper : string -> string) (s : server.Server) (r : server.Request)
    (now : Z) (entropy : string) :
  let created := handlers.handleCreate unicode_upper s r now entropy in
  let joined := server.handleJoin unicode_upper s r now entropy in
  (handlers.Status (fst created) <> server.StatusOK ->
   server.store (snd created) = server.store s /\
   In (handlers.Status (fst created))
      [server.StatusMethodNotAllowed; server.StatusTooManyRequests;
       server.StatusInternalServerError]) /\
  (server.StatusCode (fst joined) <> server.StatusOK ->
   server.store (snd joined) = server.store s /\
   In (server.StatusCode (fst joined))
      [server.StatusMethodNotAllowed; server.StatusTooManyRequests;
       server.StatusBadRequest; server.StatusNotFound]) /\
  (server.Method r <> "POST" -> snd created = s /\ snd joined = s) /\
  handlers.Reply (fst created) <> handlers.PlainText "Failed to create token" /\
  server.Body (fst joined) <> server.ErrorText "Failed to create token".
Proof.
  cbv zeta. unfold handlers.handleCreate, server.handleJoin.
  destruct (String.eqb (server.Method r) "POST") eqn:Em; cbn [negb].
  2:{ apply String.eqb_neq in Em. cbn [fst snd handlers.Status server.StatusCode
        handlers.httpError server.Error handlers.Reply server.Body].
      repeat split; try discriminate; cbn [In]; auto. }
  apply String.eqb_eq in Em.
  destruct (ratelimit.AllowCreate _ _ _) as [okc limc].
  destruct (ratelimit.AllowJoin _ _ _) as [okj limj].
  split; [|split; [|split; [|split]]].
  - destruct okc; cbn [negb]; [|cbn; auto 6].
    cbn [server.store server.with_limiter server.signer server.tokenTTL].
    destruct (session.Create _ _ _ _) as [[[sess st] rest]|]; [|cbn; auto 6].
    unfold auth.CreateRelayToken. rewrite auth_facts.Sign_token.
    cbn [fst handlers.Status]. intros H. exfalso. apply H. reflexivity.
  - destruct okj; cbn [negb]; [|cbn; auto 6].
    destruct (server.BodyCode r) as [code|]; [|cbn; auto 6].
    cbn [server.store server.with_limiter server.signer server.tokenTTL].
    destruct (session.Join _ _ _ _) as [[[sess st] rest]|]; [|cbn; auto 7].
    unfold auth.CreateRelayToken. rewrite auth_facts.Sign_token.
    cbn [fst server.StatusCode]. intros H. exfalso. apply H. reflexivity.
  - intros H. contradiction.
  - destruct okc; cbn [negb]; [|discriminate].
    cbn [server.store server.with_limiter server.signer server.tokenTTL].
    destruct (session.Create _ _ _ _) as [[[sess st] rest]|]; [|discriminate].
    unfold auth.CreateRelayToken. rewrite auth_facts.Sign_token. discriminate.
  - destruct okj; cbn [negb]; [|discriminate].
    destruct (server.BodyCode r) as [code|]; [|discriminate].
    cbn [server.store server.with_limiter server.signer server.tokenTTL].
    destruct (session.Join _ _ _ _) as [[[sess st] rest]|]; [|discriminate].
    unfold auth.CreateRelayToken. rewrite auth_facts.Sign_token. discriminate.
Qed.

(** ** Codes: from [generateCode] to [normalizeCode] *)

Module code_facts.
Import session server examples gobytes_facts.

Lemma b32_normal_spec c :
  is_b32 c = true ->
  Ascii.eqb c "-" = false /\ (byte_val c <? 128)%N = true /\ ascii_upper c = c /\
  Ascii.eqb (ascii_lower c) "-" = false /\ (byte_val (ascii_lower c) <? 128)%N = true /\
  ascii_upper (ascii_lower c) = c.
Proof.
  assert (A : forall_bytes (fun c => implb (is_b32 c) (b32_normal c)) = true)
    by (vm_compute; reflexivity).
  intros H. pose proof (utf8_facts.forall_bytes_spec _ A c) as B. cbv beta in B.
  rewrite H in B. cbn [implb] in B. unfold b32_normal in B.
  rewrite !andb_true_iff, !negb_true_iff, !Ascii.eqb_eq in B. tauto.
Qed.

(** A string of base32 characters, in upper or in lower case, has no
    dash, is ASCII, and reads in upper case as the original. *)
Lemma b32_string s :
  all_bytes is_b32 s = true ->
  remove_dashes s = s /\ isASCII s = true /\ map_bytes ascii_upper s = s /\
  remove_dashes (map_bytes ascii_lower s) = map_bytes ascii_lower s /\
  isASCII (map_bytes ascii_lower s) = true /\
  map_bytes ascii_upper (map_bytes ascii_lower s) = s.
Proof.
  unfold remove_dashes, isASCII.
  induction s as [|c s IH]; [intros _; repeat split; reflexivity|].
  cbn [all_bytes]. intros H. apply andb_prop in H as [Hc Hs].
  destruct (IH Hs) as (I1 & I2 & I3 & I4 & I5 & I6).
  destruct (b32_normal_spec c Hc) as (C1 & C2 & C3 & C4 & C5 & C6).
  cbn [filter_bytes map_bytes all_bytes].
  rewrite C1, C2, C3, C4, C5, C6, I1, I2, I3, I4, I5, I6. cbn [negb andb].
  repeat split; reflexivity.
Qed.

Lemma remove_dashes_app a b :
  remove_dashes (a ++ b) = remove_dashes a ++ remove_dashes b.
Proof.
  unfold remove_dashes. induction a as [|c a IH]; [reflexivity|].
  cbn [String.append filter_bytes]. rewrite IH.
  destruct (negb (Ascii.eqb c "-")); reflexivity.
Qed.

Lemma map_bytes_app f a b : map_bytes f (a ++ b) = map_bytes f a ++ map_bytes f b.
Proof.
  induction a as [|c a IH]; [reflexivity|]. cbn [String.append map_bytes].
  rewrite IH. reflexivity.
Qed.

Lemma all_bytes_append p a b : all_bytes p (a ++ b) = all_bytes p a && all_bytes p b.
Proof.
  induction a as [|c a IH]; [reflexivity|]. cbn [String.append all_bytes].
  rewrite IH, andb_assoc. reflexivity.
Qed.

(** The three groups of a code, with and without dashes, in upper and
    in lower case: [ToUpper] after [ReplaceAll] gives the twelve
    characters. *)
Lemma normal_form u a b c :
  all_bytes is_b32 a = true -> all_bytes is_b32 b = true -> all_bytes is_b32 c = true ->
  let code := a ++ String "-" (b ++ String "-" c) in
  let typed := a ++ b ++ c in
  ToUpper u (remove_dashes code) = typed /\
  ToUpper u (remove_dashes (remove_dashes code)) = typed /\
  ToUpper u (remove_dashes (map_bytes ascii_lower code)) = typed /\
  ToUpper u (remove_dashes (map_bytes ascii_lower (remove_dashes code))) = typed.
Proof.
  intros Ha Hb Hc code typed.
  assert (Ht : all_bytes is_b32 typed = true).
  { unfold typed. rewrite !all_bytes_append, Ha, Hb, Hc. reflexivity. }
  destruct (b32_string typed Ht) as (T1 & T2 & T3 & T4 & T5 & T6).
  assert (Hd : remove_dashes code = typed).
  { unfold code, typed.
    change (String "-" (b ++ String "-" c)) with ("-" ++ (b ++ "-" ++ c)).
    rewrite !remove_dashes_app.
    destruct (b32_string a Ha) as (-> & _). destruct (b32_string b Hb) as (-> & _).
    destruct (b32_string c Hc) as (-> & _). reflexivity. }
  assert (Hl : remove_dashes (map_bytes ascii_lower code) = map_bytes ascii_lower typed).
  { unfold code, typed.
    change (String "-" (b ++ String "-" c)) with ("-" ++ (b ++ "-" ++ c)).
    rewrite !map_bytes_app, !remove_dashes_app.
    destruct (b32_string a Ha) as (_ & _ & _ & -> & _).
    destruct (b32_string b Hb) as (_ & _ & _ & -> & _).
    destruct (b32_string c Hc) as (_ & _ & _ & -> & _). reflexivity. }
  rewrite Hd, Hl, T1, T4. unfold ToUpper. rewrite T2, T3, T5, T6. auto.
Qed.

(** The shape of a code. *)
Lemma is_code_inv code :
  is_code code = true ->
  exists a b c,
    code = a ++ String "-" (b ++ String "-" c) /\
    String.length a = 4%nat /\ String.length b = 4%nat /\ String.length c = 4%nat /\
    all_bytes is_b32 a = true /\ all_bytes is_b32 b = true /\ all_bytes is_b32 c = true.
Proof.
  destruct code as [|c0 [|c1 [|c2 [|c3 [|d1 [|c4 [|c5 [|c6 [|c7 [|d2
    [|c8 [|c9 [|c10 [|c11 [|x rest]]]]]]]]]]]]]]]; try discriminate.
  cbn [is_code]. rewrite !andb_true_iff, !Ascii.eqb_eq.
  intros H. decompose [and] H. subst d1 d2.
  exists (String c0 (String c1 (String c2 (String c3 "")))),
         (String c4 (String c5 (String c6 (String c7 "")))),
         (String c8 (String c9 (String c10 (String c11 "")))).
  cbn [all_bytes String.length].
  repeat match goal with H : is_b32 _ = true |- _ => rewrite H; clear H end.
  repeat split; reflexivity.
Qed.

(** Four characters, four more and four more, put back in groups. *)
Lemma regroup a b c :
  String.length a = 4%nat -> String.length b = 4%nat -> String.length c = 4%nat ->
  let typed := a ++ b ++ c in
  (if (String.length typed =? 12)%nat
   then slice 0 4 typed ++ "-" ++ slice 4 8 typed ++ "-" ++ slice 8 12 typed
   else typed) = a ++ String "-" (b ++ String "-" c).
Proof.
  destruct a as [|a0 [|a1 [|a2 [|a3 [|? ?]]]]]; try discriminate.
  destruct b as [|b0 [|b1 [|b2 [|b3 [|? ?]]]]]; try discriminate.
  destruct c as [|c0 [|c1 [|c2 [|c3 [|? ?]]]]]; try discriminate.
  intros _ _ _. reflexivity.
Qed.

End code_facts.

(** X20: the join endpoint reads a code as a user may type it.  A code
    as [generateCode] makes it is unchanged by [normalizeCode], and the
    same code typed without the dashes, in lower case, or both, is
    brought back to it. *)
Theorem X20_normalizeCode_restores_the_code
    (unicode_upper unicode_upper' : string -> string) (entropy code rest : string) :
  session.generateCode unicode_upper entropy = Ok (code, rest) ->
  server.normalizeCode unicode_upper' code = code /\
  server.normalizeCode unicode_upper' (remove_dashes code) = code /\
  server.normalizeCode unicode_upper' (map_bytes ascii_lower code) = code /\
  server.normalizeCode unicode_upper' (map_bytes ascii_lower (remove_dashes code)) = code.
Proof.
  intros H. apply session_facts.generateCode_ok in H as (_ & _ & H).
  apply code_facts.is_code_inv in H as (a & b & c & -> & La & Lb & Lc & Ha & Hb & Hc).
  destruct (code_facts.normal_form unicode_upper' a b c Ha Hb Hc) as (H1 & H2 & H3 & H4).
  pose proof (code_facts.regroup a b c La Lb Lc) as R. cbv zeta in R.
  unfold server.normalizeCode. rewrite H1, H2, H3, H4. auto.
Qed.

Lemma X20_normalizeCode_restores_the_code_witness :
  server.normalizeCode examples.no_unicode "inhuirkcjfkf" = "INHU-IRKC-JFKF".
Proof.
  refine (proj2 (proj2 (proj2
            (X20_normalizeCode_restores_the_code examples.no_unicode examples.no_unicode
               "CODEBITShosttokenhosttokenhosttokenhostt" "INHU-IRKC-JFKF" _ _)))).
  vm_compute. reflexivity.
Defined.

(** X21: what the create endpoint hands out works.  When [handleCreate]
    answers 200, the reply carries an id of 32 hex digits, a code
    XXXX-XXXX-XXXX, a host token of 64 hex digits and the expiry of the
    session in Unix seconds; until the session expires the status
    endpoint shows it with both flags down, and a first POST to the join
    endpoint with that code, let through by the limiter and given 32
    random bytes, is answered 200 for the same session id with a join
    token of 64 hex digits. *)
Theorem X21_create_then_join
    (unicode_upper : string -> string) (s : server.Server) (r : server.Request)
    (now : Z) (entropy : string) (answer : handlers.Answer) (s1 : server.Server) :
  handlers.handleCreate unicode_upper s r now entropy = (answer, s1) ->
  handlers.Status answer = server.StatusOK ->
  exists sessionID code hostToken relayToken,
    handlers.Reply answer =
      handlers.CreateJSON sessionID code hostToken relayToken
        (auth.Unix (now + session.ttl (server.store s))) /\
    store_ops.hex_of_length 32 sessionID = true /\
    examples.is_code code = true /\
    store_ops.hex_of_length 64 hostToken = true /\
    (forall later, later <= now + session.ttl (server.store s) ->
       handlers.handleStatus s1 sessionID later =
         {| handlers.Status := server.StatusOK;
            handlers.Reply := handlers.StatusJSON sessionID false false
                                (auth.Unix (now + session.ttl (server.store s))) |}) /\
    (forall (join : server.Request) (later : Z) (entropy' : string),
       server.Method join = "POST" ->
       server.BodyCode join = Some code ->
       fst (ratelimit.AllowJoin (server.limiter s1) (server.ClientIP join) later) = true ->
       later <= now + session.ttl (server.store s) ->
       (32 <= String.length entropy')%nat ->
       exists joinToken relayToken' s2,
         server.handleJoin unicode_upper s1 join later entropy' =
           ({| server.StatusCode := server.StatusOK;
               server.Body := server.JoinReply sessionID joinToken relayToken' false |},
            s2) /\
         store_ops.hex_of_length 64 joinToken = true).
Proof.
  intros Hc Hok.
  apply handler_facts.handleCreate_OK in Hc
    as (lim & sess & st & rest & relayToken & Hm & Hal & Hcr & Htok & -> & ->);
    [|exact Hok].
  pose proof Hcr as Hcr'. apply session_facts.Create_ok in Hcr'
    as (Hlen & _ & Hid & Hcode & Hht & Hjt & Hexp & Hsess & Hcodes).
  exists (session.ID sess), (session.Code sess), (session.HostToken sess), relayToken.
  cbn [handlers.Reply]. rewrite Hexp.
  split; [reflexivity|].
  split; [exact (store_facts.generateID_hex 16 _ _ _ Hid)|].
  split; [apply session_facts.generateCode_ok in Hcode as (_ & _ & H); exact H|].
  split; [exact (store_facts.generateID_hex 32 _ _ _ Hht)|].
  assert (Hl : session.sessions st !! session.ID sess = Some sess)
    by (rewrite Hsess; apply lookup_insert_eq).
  assert (Hhc : session.HostConnected sess = false /\ session.JoinConnected sess = false).
  { unfold session.Create in Hcr.
    destruct (session.generateID 16 entropy) as [[? ?]|]; [|discriminate].
    destruct (session.generateCode unicode_upper _) as [[? ?]|]; [|discriminate].
    destruct (session.generateID 32 _) as [[? ?]|]; [|discriminate].
    injection Hcr as <- _ _. auto. }
  destruct Hhc as [Hh Hj]. split.
  - intros later Hlater. unfold handlers.handleStatus, session.GetByID.
    cbn [server.store server.with_store]. rewrite Hl.
    assert (He : session.expired later sess = false)
      by (apply session_facts.expired_false; rewrite Hexp; exact Hlater).
    rewrite He, Hh, Hj, Hexp. reflexivity.
  - intros join later entropy' Hpost Hbody Hallow Hlater Hent.
    unfold server.handleJoin. rewrite Hpost, Hbody.
    cbn [String.eqb Ascii.eqb Bool.eqb negb].
    destruct (ratelimit.AllowJoin _ _ _) as [allowed lim'].
    cbn [fst] in Hallow. subst allowed. cbn [negb server.store server.with_limiter
      server.with_store server.signer server.tokenTTL].
    assert (Hn : server.normalizeCode unicode_upper (session.Code sess) = session.Code sess).
    { apply session_facts.generateCode_ok in Hcode as (_ & _ & H).
      apply code_facts.is_code_inv in H as (a & b & c & -> & La & Lb & Lc & Ha & Hb & Hc').
      destruct (code_facts.normal_form unicode_upper a b c Ha Hb Hc') as (H1 & _).
      pose proof (code_facts.regroup a b c La Lb Lc) as R. cbv zeta in R.
      unfold server.normalizeCode. rewrite H1. exact R. }
    rewrite Hn.
    destruct (session_facts.Join_first st (session.Code sess) (session.ID sess) sess later
                entropy') as [HJ HL].
    + rewrite Hcodes. apply lookup_insert_eq.
    + exact Hl.
    + rewrite Hexp. exact Hlater.
    + exact Hjt.
    + exact Hent.
    + rewrite HJ. cbv zeta in HL.
      cbn [server.store server.with_limiter server.with_store server.signer
           server.tokenTTL session.ID session.set_JoinToken session.JoinToken
           session.HostConnected].
      unfold auth.CreateRelayToken. rewrite auth_facts.Sign_token. rewrite Hh.
      eexists. eexists. eexists. split; [reflexivity|].
      apply store_facts.hex_of_length_spec. split; [exact HL|].
      apply store_facts.hex_encode_is_hex.
Qed.

Lemma X21_create_then_join_witness :
  exists answer s1 sessionID code hostToken relayToken,
    handlers.handleCreate examples.no_unicode examples.open_server examples.join_request
      examples.t0 examples.entropy_a = (answer, s1) /\
    handlers.Reply answer =
      handlers.CreateJSON sessionID code hostToken relayToken
        (auth.Unix (examples.t0 + session.ttl (server.store examples.open_server))) /\
    store_ops.hex_of_length 32 sessionID = true.
Proof.
  assert (E : exists answer s1,
            handlers.handleCreate examples.no_unicode examples.open_server
              examples.join_request examples.t0 examples.entropy_a = (answer, s1) /\
            handlers.Status answer = server.StatusOK)
    by (vm_compute; eauto).
  destruct E as (answer & s1 & E & Hok). exists answer, s1.
  destruct (X21_create_then_join _ _ _ _ _ _ _ E Hok)
    as (sessionID & code & hostToken & relayToken & H1 & H2 & _).
  exists sessionID, code, hostToken, relayToken. auto.
Defined.

Module pairing_facts.
Import relay.

(** A tick that finds nothing stale does nothing. *)
Lemma cleanup_fold_none threshold l acc :
  (forall sid p, In (sid, p) l -> (CreatedAt p <? threshold) = false) ->
  foldr (cleanup_step threshold) acc l = acc.
Proof.
  induction l as [|[sid p] l IH]; intros H; [reflexivity|]. cbn [foldr].
  rewrite IH by (intros sid' p' Hin; apply (H sid' p'); right; exact Hin).
  unfold cleanup_step. destruct acc as [r effects].
  rewrite (H sid p) by (left; reflexivity). reflexivity.
Qed.

(** While the only entry of the table waits and nothing but turns of
    its wait loop and ticks within its time arrive, the relay does
    nothing: the run goes on as if they had not been there. *)
Lemma run_while_waiting sid p t2 between rest r :
  pending r = <[sid := p]> ∅ ->
  t2 <= CreatedAt p + pairTimeout r ->
  forallb (while_waiting (Conn p) sid (CreatedAt p) t2 (pairTimeout r)) between = true ->
  run r (between ++ rest) = run r rest.
Proof.
  intros Hp Ht. induction between as [|e between IH]; intros Hq; [reflexivity|].
  cbn [forallb] in Hq. apply andb_prop in Hq as [He Hq]. specialize (IH Hq).
  destruct e as [c msg w now|c sid' now deadline|now]; [discriminate| |].
  - cbn [while_waiting] in He.
    apply andb_prop in He as [He Hn]. apply andb_prop in He as [He Hd].
    apply andb_prop in He as [Hc Hs].
    apply Nat.eqb_eq in Hc. apply String.eqb_eq in Hs. apply Z.leb_le in Hd, Hn. subst c sid'.
    cbn [app run]. unfold waitForPair_turn. rewrite Hp, lookup_insert_eq, Nat.eqb_refl.
    assert (E : (deadline <? now) = false) by (apply Z.ltb_ge; lia).
    rewrite E. exact IH.
  - cbn [while_waiting] in He. apply Z.leb_le in He.
    cbn [app run]. unfold cleanup. rewrite cleanup_fold_none.
    + rewrite IH. destruct (run r rest) as [[r2 e2] o2]. reflexivity.
    + intros s q Hin. apply list_elem_of_In, elem_of_map_to_list in Hin.
      rewrite Hp in Hin. apply lookup_insert_Some in Hin as [[_ <-]|[_ Hin]];
        [|rewrite lookup_empty in Hin; discriminate].
      apply Z.ltb_ge. lia.
Qed.

End pairing_facts.

(** X22: a host token and a joiner token made by [CreateRelayToken]
    under the relay's secret for one session id, and the two clients
    connecting to a fresh relay while the tokens last, the second no
    later than [pairTimeout] after the first, with nothing in between
    but turns of the wait loop of the first and ticks of the janitor:
    whoever comes first waits, the second is paired with it, and the
    pending table is empty again.  All the relay has done is greet the
    two and splice them once, the host's socket on the host side and
    the joiner's on the joiner side, in either order of arrival; up to
    the pairing it has closed neither socket. *)
Theorem X22_host_and_joiner_are_spliced
    (secret sessionID : string) (ttl issued t1 t2 : Z)
    (validateRemote : string -> result (string * string))
    (pairTimeout maxDuration : Z) (hostConn joinerConn : relay.conn)
    (host_waits joiner_waits : list relay.event) :
  UTF8.ValidString sessionID = true ->
  strconv.in_int64 (auth.Unix (issued + ttl)) = true ->
  auth.Unix t1 <= auth.Unix (issued + ttl) ->
  auth.Unix t2 <= auth.Unix (issued + ttl) ->
  t2 <= t1 + pairTimeout ->
  forallb (while_waiting hostConn sessionID t1 t2 pairTimeout) host_waits = true ->
  forallb (while_waiting joinerConn sessionID t1 t2 pairTimeout) joiner_waits = true ->
  exists hostToken joinerToken,
    auth.CreateRelayToken (auth.NewSigner secret) sessionID "host" ttl issued
      = Ok hostToken /\
    auth.CreateRelayToken (auth.NewSigner secret) sessionID "joiner" ttl issued
      = Ok joinerToken /\
    let r := relay.NewRelay (tokenValidator_Validate (auth.NewSigner secret) validateRemote)
               pairTimeout maxDuration in
    let host := {| relay.SessionID := sessionID; relay.RelayToken := hostToken;
                   relay.Role := "host" |} in
    let joiner := {| relay.SessionID := sessionID; relay.RelayToken := joinerToken;
                     relay.Role := "joiner" |} in
    (exists r' effects,
       relay.run r (relay.Connect hostConn (Some host) true t1 ::
                    host_waits ++ [relay.Connect joinerConn (Some joiner) true t2]) =
         (r', effects, [relay.Waiting sessionID "host"; relay.Paired sessionID "joiner"]) /\
       relay.pending r' = ∅ /\
       effects = (hello hostConn t1 ++ hello joinerConn t2 ++
                  [relay.Splice sessionID hostConn joinerConn])%list /\
       In (relay.Splice sessionID hostConn joinerConn) effects /\
       relay.splices sessionID effects = 1%nat /\
       (forall c, ~ In (relay.Close c) effects)) /\
    (exists r' effects,
       relay.run r (relay.Connect joinerConn (Some joiner) true t1 ::
                    joiner_waits ++ [relay.Connect hostConn (Some host) true t2]) =
         (r', effects, [relay.Waiting sessionID "joiner"; relay.Paired sessionID "host"]) /\
       relay.pending r' = ∅ /\
       effects = (hello joinerConn t1 ++ hello hostConn t2 ++
                  [relay.Splice sessionID hostConn joinerConn])%list /\
       In (relay.Splice sessionID hostConn joinerConn) effects /\
       relay.splices sessionID effects = 1%nat /\
       (forall c, ~ In (relay.Close c) effects)).
Proof.
  intros Hsid Hexp H1 H2 Hwin Hhost Hjoiner.
  pose (hostClaims := {| auth.SessionID := sessionID; auth.Role := "host";
                         auth.ExpiresAt := auth.Unix (issued + ttl) |}).
  pose (joinerClaims := {| auth.SessionID := sessionID; auth.Role := "joiner";
                           auth.ExpiresAt := auth.Unix (issued + ttl) |}).
  assert (V : forall claims t,
            UTF8.ValidString (auth.SessionID claims) = true ->
            UTF8.ValidString (auth.Role claims) = true ->
            auth.ExpiresAt claims = auth.Unix (issued + ttl) ->
            auth.Unix t <= auth.Unix (issued + ttl) ->
            exists token,
              auth.Sign (auth.NewSigner secret) claims = Ok token /\
              tokenValidator_Validate (auth.NewSigner secret) validateRemote t token
                = Ok (auth.SessionID claims, auth.Role claims)).
  { intros claims t Vs Vr He Ht.
    destruct (verify_facts.Verify_issued secret claims (auth.Unix t) Vs Vr)
      as (token & Hs & Hv); [rewrite He; exact Hexp|].
    exists token. split; [exact Hs|]. unfold tokenValidator_Validate. rewrite Hv, He.
    apply Z.ltb_ge in Ht. rewrite Ht. reflexivity. }
  destruct (V hostClaims t1 Hsid eq_refl eq_refl H1) as (hostToken & Sh & Vh1).
  destruct (V hostClaims t2 Hsid eq_refl eq_refl H2) as (hostToken' & Sh' & Vh2).
  destruct (V joinerClaims t1 Hsid eq_refl eq_refl H1) as (joinerToken & Sj & Vj1).
  destruct (V joinerClaims t2 Hsid eq_refl eq_refl H2) as (joinerToken' & Sj' & Vj2).
  assert (hostToken' = hostToken) by congruence.
  assert (joinerToken' = joinerToken) by congruence. subst hostToken' joinerToken'.
  cbn [auth.SessionID auth.Role hostClaims joinerClaims] in Vh1, Vh2, Vj1, Vj2.
  exists hostToken, joinerToken. split; [exact Sh|]. split; [exact Sj|].
  cbv zeta.
  assert (Facts : forall a b,
            let effects := (hello a t1 ++ hello b t2 ++
                            [relay.Splice sessionID hostConn joinerConn])%list in
            In (relay.Splice sessionID hostConn joinerConn) effects /\
            relay.splices sessionID effects = 1%nat /\
            (forall c, ~ In (relay.Close c) effects)).
  { intros a b effects. subst effects. unfold hello. split; [|split].
    - cbn [app In]. repeat first [left; reflexivity | right].
    - unfold relay.splices. cbn [app List.filter relay.sendAuthResponse].
      rewrite String.eqb_refl. reflexivity.
    - intros c. cbn [app In relay.sendAuthResponse]. intuition discriminate. }
  split.
  - cbn [relay.run]. unfold relay.HandleConnection at 1.
    cbn [relay.validator relay.NewRelay relay.RelayToken relay.SessionID relay.Role
         relay.pending].
    rewrite Vh1, !String.eqb_refl. cbn [negb orb]. rewrite lookup_empty.
    rewrite (pairing_facts.run_while_waiting sessionID
               {| relay.Conn := hostConn; relay.PRole := "host";
                  relay.PSessionID := sessionID; relay.CreatedAt := t1 |} t2)
      by (try reflexivity; assumption).
    cbn [relay.run]. unfold relay.HandleConnection.
    cbn [relay.validator relay.with_pending relay.NewRelay relay.RelayToken
         relay.SessionID relay.Role relay.pending].
    rewrite Vj2, !String.eqb_refl. cbn [negb orb]. rewrite lookup_insert_eq.
    cbn [relay.PRole relay.Conn String.eqb Ascii.eqb Bool.eqb negb].
    eexists. eexists. split; [reflexivity|].
    cbn [relay.pending relay.with_pending].
    split; [rewrite delete_insert_eq; apply delete_empty|].
    split; [unfold hello; cbn [app]; reflexivity|].
    pose proof (Facts hostConn joinerConn) as F. cbv zeta in F. unfold hello in F.
    cbn [app] in F |- *. exact F.
  - cbn [relay.run]. unfold relay.HandleConnection at 1.
    cbn [relay.validator relay.NewRelay relay.RelayToken relay.SessionID relay.Role
         relay.pending].
    rewrite Vj1, !String.eqb_refl. cbn [negb orb]. rewrite lookup_empty.
    rewrite (pairing_facts.run_while_waiting sessionID
               {| relay.Conn := joinerConn; relay.PRole := "joiner";
                  relay.PSessionID := sessionID; relay.CreatedAt := t1 |} t2)
      by (try reflexivity; assumption).
    cbn [relay.run]. unfold relay.HandleConnection.
    cbn [relay.validator relay.with_pending relay.NewRelay relay.RelayToken
         relay.SessionID relay.Role relay.pending].
    rewrite Vh2, !String.eqb_refl. cbn [negb orb]. rewrite lookup_insert_eq.
    cbn [relay.PRole relay.Conn String.eqb Ascii.eqb Bool.eqb negb].
    eexists. eexists. split; [reflexivity|].
    cbn [relay.pending relay.with_pending].
    split; [rewrite delete_insert_eq; apply delete_empty|].
    split; [unfold hello; cbn [app]; reflexivity|].
    pose proof (Facts joinerConn hostConn) as F. cbv zeta in F. unfold hello in F.
    cbn [app] in F |- *. exact F.
Qed.

Lemma X22_host_and_joiner_are_spliced_witness :
  exists hostToken joinerToken r' effects,
    auth.CreateRelayToken (auth.NewSigner "changeme-in-production") "30313233" "host"
      (5 * ratelimit.Minute) examples.t0 = Ok hostToken /\
    relay.run
      (relay.NewRelay
         (tokenValidator_Validate (auth.NewSigner "changeme-in-production")
            (fun _ => Err (ErrMsg "unreachable")))
         (30 * ratelimit.Second) (4 * 60 * ratelimit.Minute))
      (relay.Connect 1%nat
         (Some {| relay.SessionID := "30313233"; relay.RelayToken := hostToken;
                  relay.Role := "host" |}) true examples.t0 ::
       samples.host_waits ++
       [relay.Connect 2%nat
          (Some {| relay.SessionID := "30313233"; relay.RelayToken := joinerToken;
                   relay.Role := "joiner" |}) true (examples.t0 + ratelimit.Second)]) =
      (r', effects, [relay.Waiting "30313233" "host"; relay.Paired "30313233" "joiner"]) /\
    In (relay.Splice "30313233" 1%nat 2%nat) effects.
Proof.
  destruct (X22_host_and_joiner_are_spliced "changeme-in-production" "30313233"
              (5 * ratelimit.Minute) examples.t0 examples.t0
              (examples.t0 + ratelimit.Second) (fun _ => Err (ErrMsg "unreachable"))
              (30 * ratelimit.Second) (4 * 60 * ratelimit.Minute) 1%nat 2%nat
              samples.host_waits [])
    as (hostToken & joinerToken & Hh & _ & (r' & effects & Hrun & _ & _ & Hin & _) & _).
  - reflexivity.
  - reflexivity.
  - vm_compute. discriminate.
  - vm_compute. discriminate.
  - vm_compute. discriminate.
  - reflexivity.
  - reflexivity.
  - exists hostToken, joinerToken, r', effects. auto.
Defined.
(** ** The limiter: clients do not interfere *)

Module limiter_facts.
Import ratelimit.

Lemma agree_Allow_same ip l1 l2 now :
  agree ip l1 l2 ->
  fst (Allow l1 ip now) = fst (Allow l2 ip now) /\
  agree ip (snd (Allow l1 ip now)) (snd (Allow l2 ip now)).
Proof.
  intros (Hl & Hr & Hb & Hc). unfold Allow. rewrite Hl, Hr, Hb.
  destruct (bucket_Allow _ _ _ _) as [ok b]. cbn [fst snd].
  split; [reflexivity|]. unfold agree. cbn [limiters rate burst cleanup with_limiters].
  rewrite !lookup_insert_eq. auto.
Qed.

Lemma agree_Allow_other ip ip' l1 l2 now :
  ip' <> ip -> agree ip l1 l2 -> agree ip (snd (Allow l1 ip' now)) l2.
Proof.
  intros Hne (Hl & Hr & Hb & Hc). unfold Allow.
  destruct (bucket_Allow _ _ _ _) as [ok b]. cbn [snd]. unfold agree.
  cbn [limiters rate burst cleanup with_limiters].
  rewrite lookup_insert_ne by exact Hne. auto.
Qed.

Lemma agree_doCleanup ip l1 l2 now :
  agree ip l1 l2 -> agree ip (doCleanup l1 now) (doCleanup l2 now).
Proof.
  intros (Hl & Hr & Hb & Hc). unfold doCleanup, agree.
  cbn [limiters rate burst cleanup with_limiters].
  rewrite !map_lookup_filter, Hl, Hc. auto.
Qed.

End limiter_facts.

(** X23: the limiter keeps its clients apart.  What it answers to the
    requests of one IP is what it would answer if no other IP had sent
    anything: the part of the log that concerns an IP is the log of the
    run in which only that IP's requests, and the janitor's ticks, take
    place. *)
Theorem X23_clients_apart
    (l : ratelimit.Limiter) (trace : list (Z * ratelimit.event)) (ip : string) :
  log_of ip (ratelimit.run l trace) = ratelimit.run l (trace_of ip trace).
Proof.
  enough (G : forall l1 l2, agree ip l1 l2 ->
            log_of ip (ratelimit.run l1 trace) = ratelimit.run l2 (trace_of ip trace))
    by (apply G; unfold agree; auto).
  induction trace as [|[now [ip'|]] trace IH]; intros l1 l2 H; [reflexivity| |].
  - cbn [ratelimit.run trace_of List.filter snd].
    destruct (ratelimit.Allow l1 ip' now) as [ok1 l1'] eqn:E1.
    cbn [log_of List.filter fst snd].
    destruct (String.eqb ip' ip) eqn:E.
    + apply String.eqb_eq in E. subst ip'. cbn [ratelimit.run].
      destruct (ratelimit.Allow l2 ip now) as [ok2 l2'] eqn:E2.
      destruct (limiter_facts.agree_Allow_same ip l1 l2 now H) as [Hok Hag].
      rewrite E1, E2 in Hok, Hag. cbn [fst snd] in Hok, Hag. subst ok2.
      f_equal. apply IH. exact Hag.
    + apply String.eqb_neq in E. apply IH.
      pose proof (limiter_facts.agree_Allow_other ip ip' l1 l2 now E H) as Hag.
      rewrite E1 in Hag. exact Hag.
  - cbn [ratelimit.run trace_of List.filter snd]. apply IH.
    apply limiter_facts.agree_doCleanup. exact H.
Qed.

(** ** The bridge: states, callback, close *)

Module lifecycle_facts.
Import lifecycle.

Lemma closes_app c a b : closes c (a ++ b)%list = (closes c a + closes c b)%nat.
Proof. unfold closes. rewrite List.filter_app, List.length_app. reflexivity. Qed.

Lemma notified_app a b : notified (a ++ b)%list = (notified a ++ notified b)%list.
Proof. unfold notified. apply flat_map_app. Qed.

Lemma setState_quiet b s c : closes c (snd (setState b s)) = 0%nat.
Proof. unfold setState. cbn [snd]. destruct (_ && _); reflexivity. Qed.

Lemma setState_stop b s : stopCh_closed (fst (setState b s)) = stopCh_closed b.
Proof. reflexivity. Qed.

Lemma step_closed b call :
  stopCh_closed b = true ->
  stopCh_closed (fst (step b call)) = true /\
  forall c, closes c (snd (step b call)) = 0%nat.
Proof.
  intros H. destruct call as [s| |relay [err|local]|cb]; cbn [step].
  - split; [exact H | intros c; apply setState_quiet].
  - unfold Close. rewrite H. auto.
  - unfold ConnectRelay, setState. cbn [fst snd stopCh_closed with_state].
    split; [exact H|]. intros c. rewrite closes_app.
    destruct (_ && _); destruct (_ && _); reflexivity.
  - unfold ConnectRelay, setState. cbn [fst snd stopCh_closed with_state].
    split; [exact H|]. intros c. rewrite closes_app.
    destruct (_ && _); destruct (_ && _); reflexivity.
  - auto.
Qed.

Lemma run_closed calls : forall b,
  stopCh_closed b = true ->
  stopCh_closed (fst (run b calls)) = true /\
  forall c, closes c (snd (run b calls)) = 0%nat.
Proof.
  induction calls as [|call calls IH]; intros b H; [auto|].
  cbn [run]. destruct (step b call) as [b1 effects] eqn:E1.
  destruct (run b1 calls) as [b2 effects'] eqn:E2. cbn [fst snd].
  destruct (step_closed b call H) as [H1 Hc1]. rewrite E1 in H1, Hc1. cbn [fst snd] in *.
  destruct (IH b1 H1) as [H2 Hc2]. rewrite E2 in H2, Hc2. cbn [fst snd] in *.
  split; [exact H2|]. intros c. rewrite closes_app, Hc1, Hc2. reflexivity.
Qed.

Lemma last_cons (s : State) states d d' :
  List.last (s :: states) d = List.last (s :: states) d'.
Proof.
  revert s. induction states as [|s' states IH]; intros s; [reflexivity|].
  change (List.last (s' :: states) d = List.last (s' :: states) d'). apply IH.
Qed.

End lifecycle_facts.

(** X24: [Close] is final and silent.  The first [Close] closes the
    local socket and then the relay socket, those that are set, closes
    the stop channel and puts the bridge in the state DISCONNECTED
    without calling the state-change callback; a [Close] of a closed
    bridge does nothing.  Whatever is called afterwards, the bridge stays
    closed and closes no socket again, so a socket handed to it after
    [Close] is never closed by it. *)
Theorem X24_close_is_final (b : lifecycle.Bridge) (calls : list lifecycle.call) :
  let closed := fst (lifecycle.Close b) in
  lifecycle.stopCh_closed closed = true /\
  lifecycle.notified (snd (lifecycle.Close b)) = [] /\
  (lifecycle.stopCh_closed b = false ->
   lifecycle.GetState closed = lifecycle.StateDisconnected /\
   snd (lifecycle.Close b) =
     (lifecycle.close_of (lifecycle.localConn b) ++
      lifecycle.close_of (lifecycle.relayConn b))%list) /\
  (lifecycle.stopCh_closed b = true -> lifecycle.Close b = (b, [])) /\
  lifecycle.Close closed = (closed, []) /\
  lifecycle.stopCh_closed (fst (lifecycle.run closed calls)) = true /\
  (forall c, lifecycle.closes c (snd (lifecycle.run closed calls)) = 0%nat).
Proof.
  intros closed.
  assert (Hc : lifecycle.stopCh_closed closed = true).
  { unfold closed, lifecycle.Close. destruct (lifecycle.stopCh_closed b) eqn:E; [exact E|].
    reflexivity. }
  split; [exact Hc|]. split.
  { unfold lifecycle.Close. destruct (lifecycle.stopCh_closed b); [reflexivity|].
    cbn [snd]. destruct (lifecycle.localConn b); destruct (lifecycle.relayConn b);
      reflexivity. }
  split.
  { intros H. unfold closed, lifecycle.Close. rewrite H. split; reflexivity. }
  split.
  { intros H. unfold lifecycle.Close. rewrite H. reflexivity. }
  split.
  { unfold lifecycle.Close at 1. rewrite Hc. reflexivity. }
  apply lifecycle_facts.run_closed. exact Hc.
Qed.

(** X25: [setState] calls the callback once for each change of state
    and never for a state the bridge is already in: through any
    sequence of [setState] calls the callback, when one is installed, is
    told the states that differ from the one before them, in order, and
    the bridge ends in the last state set. *)
Theorem X25_callback_on_change (b : lifecycle.Bridge) (states : list lifecycle.State) :
  let calls := List.map lifecycle.CallSetState states in
  lifecycle.GetState (fst (lifecycle.run b calls)) = List.last states (lifecycle.state b) /\
  lifecycle.notified (snd (lifecycle.run b calls)) =
    (if lifecycle.onStateChange b
     then lifecycle.changes (lifecycle.state b) states else []).
Proof.
  cbv zeta. revert b. induction states as [|s states IH]; intros b.
  - cbn. destruct (lifecycle.onStateChange b); auto.
  - cbn [List.map lifecycle.run lifecycle.step]. unfold lifecycle.setState.
    cbv beta iota zeta.
    destruct (lifecycle.run (lifecycle.with_state b s)
                (List.map lifecycle.CallSetState states)) as [b2 effects'] eqn:E.
    cbn [fst snd]. specialize (IH (lifecycle.with_state b s)). rewrite E in IH.
    cbn [fst snd lifecycle.state lifecycle.with_state lifecycle.onStateChange] in IH.
    destruct IH as [IH1 IH2]. split.
    + unfold lifecycle.GetState in *. rewrite IH1.
      destruct states as [|s0 states]; [reflexivity|].
      change (List.last (s :: s0 :: states) (lifecycle.state b))
        with (List.last (s0 :: states) (lifecycle.state b)).
      apply lifecycle_facts.last_cons.
    + cbn [lifecycle.changes].
      destruct (lifecycle.state b =? s); destruct (lifecycle.onStateChange b);
        cbn [negb andb app];
        first [exact IH2
              | change (lifecycle.notified (lifecycle.Notify s :: effects'))
                  with (s :: lifecycle.notified effects');
                rewrite IH2; reflexivity].
Qed.



(** X27: [ConnectRelay] enters CONNECTING_RELAY and dials the game.  If
    the dial fails, the bridge is in the state ERROR with the failure
    recorded as last error, the error returned names the target address
    and wraps the dial error, and neither socket is stored: the relay
    socket passed in is not kept, and a [Close] that follows closes
    nothing.  If the dial succeeds, the bridge is CONNECTED and holds
    both sockets, and a [Close] on a bridge not yet closed closes the
    local socket, then the relay socket, once each. *)
Theorem X27_connect_relay
    (b : lifecycle.Bridge) (relay local : lifecycle.conn) (err : string) :
  lifecycle.relayConn b = None -> lifecycle.localConn b = None ->
  lifecycle.stopCh_closed b = false ->
  (let '(b', effects, res) := lifecycle.ConnectRelay b relay (inl err) in
   lifecycle.GetState b' = lifecycle.StateError /\
   lifecycle.LastError b' = "failed to connect to game: " ++ err /\
   res = Err (ErrWrap ("failed to connect to game at " ++ lifecycle.targetAddr b)
                (ErrMsg err)) /\
   lifecycle.relayConn b' = None /\ lifecycle.localConn b' = None /\
   snd (lifecycle.Close b') = [] /\
   lifecycle.notified effects =
     (if lifecycle.onStateChange b
      then lifecycle.changes (lifecycle.state b)
             [lifecycle.StateConnectingRelay; lifecycle.StateError]
      else [])) /\
  (let '(b', effects, res) := lifecycle.ConnectRelay b relay (inr local) in
   lifecycle.GetState b' = lifecycle.StateConnected /\
   res = Ok tt /\
   lifecycle.relayConn b' = Some relay /\ lifecycle.localConn b' = Some local /\
   snd (lifecycle.Close b') = [lifecycle.CloseConn local; lifecycle.CloseConn relay] /\
   lifecycle.notified effects =
     (if lifecycle.onStateChange b
      then lifecycle.changes (lifecycle.state b)
             [lifecycle.StateConnectingRelay; lifecycle.StateConnected]
      else [])).
Proof.
  intros Hr Hl Hs. unfold lifecycle.ConnectRelay, lifecycle.setState, lifecycle.Close.
  cbn [fst snd lifecycle.state lifecycle.with_state lifecycle.onStateChange
       lifecycle.stopCh_closed lifecycle.relayConn lifecycle.localConn
       lifecycle.GetState lifecycle.LastError lifecycle.targetAddr].
  rewrite Hr, Hl, Hs. cbn [lifecycle.close_of app lifecycle.changes].
  rewrite !lifecycle_facts.notified_app.
  split; repeat (split; [reflexivity|]);
    destruct (lifecycle.state b =? lifecycle.StateConnectingRelay);
    destruct (lifecycle.onStateChange b); reflexivity.
Qed.

Lemma X27_connect_relay_witness :
  lifecycle.GetState
    (fst (fst (lifecycle.ConnectRelay (lifecycle.NewBridge "127.0.0.1:1626")
                 7%nat (inl "connection refused")))) = lifecycle.StateError /\
  snd (lifecycle.Close
         (fst (fst (lifecycle.ConnectRelay (lifecycle.NewBridge "127.0.0.1:1626")
                      7%nat (inl "connection refused"))))) = [].
Proof.
  pose proof (proj1 (X27_connect_relay (lifecycle.NewBridge "127.0.0.1:1626") 7%nat 8%nat
                       "connection refused" eq_refl eq_refl eq_refl)) as H.
  hnf in H. destruct H as (H1 & _ & _ & _ & _ & H6 & _).
  split; [exact H1 | exact H6].
Defined.

(** ** Settings from the environment *)

Module env_facts.
Import env.

Lemma FormatInt_nonempty z : strconv.FormatInt z <> "".
Proof.
  unfold strconv.FormatInt. destruct z as [|p|p]; cbn [Z.to_int]; [discriminate| |].
  - cbn [DecimalString.NilZero.string_of_int]. rewrite strconv_facts.NilZero_pos.
    destruct (strconv_facts.to_uint_head p) as (c & ds & -> & _). discriminate.
  - cbn [DecimalString.NilZero.string_of_int]. discriminate.
Qed.

End env_facts.

(** X28: a setting that is not in the environment, or is there with the
    empty string, takes its default.  A number takes the default as well
    when its text is not a decimal int; a variable set to the decimal
    text of an int64 gives that number back.  A non-empty boolean
    setting is true for "true", "1" and "yes" and false for every other
    text, whatever the default. *)
Theorem X28_settings_from_the_environment
    (e : gmap string string) (key : string) (defaultVal : string) (defaultInt : Z)
    (defaultBool : bool) :
  (e !! key = None \/ e !! key = Some "" ->
   env.getEnv e key defaultVal = defaultVal /\
   env.getEnvInt e key defaultInt = defaultInt /\
   env.getEnvBool e key defaultBool = defaultBool) /\
  (forall val, val <> "" -> env.getEnv (<[key := val]> e) key defaultVal = val) /\
  (forall n, strconv.in_int64 n = true ->
     env.getEnvInt (<[key := strconv.FormatInt n]> e) key defaultInt = n) /\
  (forall val, strconv.ParseInt val = None ->
     env.getEnvInt (<[key := val]> e) key defaultInt = defaultInt) /\
  (forall val, val <> "" ->
     env.getEnvBool (<[key := val]> e) key defaultBool = true <->
     val = "true" \/ val = "1" \/ val = "yes").
Proof.
  split; [|split; [|split; [|split]]].
  - intros [H|H]; unfold env.getEnv, env.getEnvInt, env.getEnvBool, env.Getenv;
      rewrite H; auto.
  - intros val Hv. unfold env.getEnv, env.Getenv. rewrite lookup_insert_eq.
    apply String.eqb_neq in Hv. rewrite Hv. reflexivity.
  - intros n Hn. unfold env.getEnvInt, env.Getenv. rewrite lookup_insert_eq.
    pose proof (env_facts.FormatInt_nonempty n) as Hne. apply String.eqb_neq in Hne.
    rewrite Hne, strconv_facts.ParseInt_FormatInt by exact Hn. reflexivity.
  - intros val Hp. unfold env.getEnvInt, env.Getenv. rewrite lookup_insert_eq, Hp.
    destruct (negb _); reflexivity.
  - intros val Hv. unfold env.getEnvBool, env.Getenv. rewrite lookup_insert_eq.
    apply String.eqb_neq in Hv. rewrite Hv. cbn [negb].
    rewrite !orb_true_iff, !String.eqb_eq. tauto.
Qed.

(** ** Joins after the first *)

Module join_facts.
Import session store_ops session_facts.

Lemma cleanup_fold_code now l s code :
  byCodes (foldr (cleanup_step now) s l) !! code = None \/
  byCodes (foldr (cleanup_step now) s l) !! code = byCodes s !! code.
Proof.
  induction l as [|[id' session'] l IH]; [right; reflexivity|]. simpl.
  destruct (expired now session'); simpl; [|exact IH].
  destruct (decide (Code session' = code)) as [->|Hne].
  - left. apply lookup_delete_eq.
  - rewrite lookup_delete_ne by exact Hne. exact IH.
Qed.

Lemma Create_drawn u s now entropy sess s' rest :
  Create u s now entropy = Ok (sess, s', rest) ->
  drawn u entropy = Some (ID sess, Code sess) /\
  sessions s' = <[ID sess := sess]> (sessions s) /\
  byCodes s' = <[Code sess := ID sess]> (byCodes s).
Proof.
  unfold Create, drawn.
  destruct (generateID 16 entropy) as [[id e1]|]; [|discriminate].
  destruct (generateCode u e1) as [[code e2]|]; [|discriminate].
  destruct (generateID 32 e2) as [[tok e3]|]; [|discriminate].
  intros [= <- <- <-]. auto.
Qed.

Lemma Join_ok_inv s code now entropy sess s' rest :
  Join s code now entropy = Ok (sess, s', rest) ->
  exists id old tok,
    sessions s !! id = Some old /\ JoinToken old = "" /\
    sess = set_JoinToken old tok /\
    sessions s' = <[id := sess]> (sessions s) /\ byCodes s' = byCodes s.
Proof.
  unfold Join.
  destruct (byCodes s !! code) as [id|]; [|discriminate].
  destruct (sessions s !! id) as [old|] eqn:Hs; [|discriminate].
  destruct (expired now old); [discriminate|].
  destruct (String.eqb (JoinToken old) "") eqn:Ej; [|discriminate]. cbn [negb].
  destruct (generateID 32 entropy) as [[tok e]|]; [|discriminate].
  intros [= <- <- <-]. exists id, old, tok. apply String.eqb_eq in Ej. auto.
Qed.

Section Steps.
Variable u : string -> string.
Variables code id tok : string.
Variable expires : Z.
Hypothesis tok_set : tok <> "".

Lemma apply_joined s o :
  draws_apart u code id o = true ->
  joined code id tok expires s -> joined code id tok expires (apply u s o).
Proof.
  intros Hd [Hc Hs]. destruct o as [now e|c now e|i b|i b|i|now]; cbn [apply].
  - destruct (Create u s now e) as [[[sess s'] rest]|] eqn:E; [|split; assumption].
    apply Create_drawn in E as (Hdr & Hs' & Hc'). cbn [draws_apart] in Hd.
    rewrite Hdr in Hd. apply andb_prop in Hd as [H1 H2].
    apply negb_true_iff, String.eqb_neq in H1, H2.
    split; [rewrite Hc', lookup_insert_ne by exact H2; exact Hc|].
    rewrite Hs', lookup_insert_ne by exact H1. exact Hs.
  - destruct (Join s c now e) as [[[sess s'] rest]|] eqn:E; [|split; assumption].
    apply Join_ok_inv in E as (i & old & t & Ho & Hj & -> & Hs' & Hc').
    split; [rewrite Hc'; exact Hc|]. rewrite Hs'.
    destruct (decide (i = id)) as [->|Hne]; [|rewrite lookup_insert_ne by exact Hne; exact Hs].
    destruct Hs as [Hs|(x & Hx & Hxt & _)]; [congruence|].
    rewrite Hx in Ho. injection Ho as <-. congruence.
  - unfold SetHostConnected. destruct (sessions s !! i) as [old|] eqn:Ho; [|split; assumption].
    split; [exact Hc|]. cbn [sessions with_sessions].
    destruct (decide (i = id)) as [->|Hne]; [|rewrite lookup_insert_ne by exact Hne; exact Hs].
    rewrite lookup_insert_eq. right. destruct Hs as [Hs|(x & Hx & Hxt & Hxe)]; [congruence|].
    rewrite Hx in Ho. injection Ho as <-. eexists. split; [reflexivity|]. auto.
  - unfold SetJoinConnected. destruct (sessions s !! i) as [old|] eqn:Ho; [|split; assumption].
    split; [exact Hc|]. cbn [sessions with_sessions].
    destruct (decide (i = id)) as [->|Hne]; [|rewrite lookup_insert_ne by exact Hne; exact Hs].
    rewrite lookup_insert_eq. right. destruct Hs as [Hs|(x & Hx & Hxt & Hxe)]; [congruence|].
    rewrite Hx in Ho. injection Ho as <-. eexists. split; [reflexivity|]. auto.
  - unfold Delete. destruct (sessions s !! i) as [old|] eqn:Ho; [|split; assumption].
    unfold joined. cbn [sessions byCodes]. split.
    + destruct (decide (Code old = code)) as [->|Hne];
        [left; apply lookup_delete_eq | rewrite lookup_delete_ne by exact Hne; exact Hc].
    + destruct (decide (i = id)) as [->|Hne];
        [left; apply lookup_delete_eq | rewrite lookup_delete_ne by exact Hne; exact Hs].
  - split.
    + destruct (cleanup_fold_code now (map_to_list (sessions s)) s code) as [H|H];
        [left; exact H|]. unfold cleanup. rewrite H. exact Hc.
    + rewrite store_facts.cleanup_sessions. unfold GetByID.
      destruct Hs as [Hs|(x & Hx & Hxt & Hxe)]; [rewrite Hs; left; reflexivity|].
      rewrite Hx. destruct (expired now x); [left; reflexivity|].
      right. exists x. auto.
Qed.

Lemma run_joined ops : forall s,
  forallb (draws_apart u code id) ops = true ->
  joined code id tok expires s -> joined code id tok expires (run u s ops).
Proof.
  induction ops as [|o ops IH]; intros s Hd Hj; [exact Hj|].
  cbn [forallb] in Hd. apply andb_prop in Hd as [Ho Hd].
  cbn [run fold_left]. apply (IH _ Hd). apply apply_joined; assumption.
Qed.

Lemma apply_still_joined s o :
  draws_apart u code id o = true -> keeps id expires o = true ->
  still_joined code id tok expires s -> still_joined code id tok expires (apply u s o).
Proof.
  intros Hd Hk (Hc & (x & Hx & Hxt & Hxe) & Hu).
  destruct o as [now e|c now e|i b|i b|i|now]; cbn [apply].
  - destruct (Create u s now e) as [[[sess s'] rest]|] eqn:E;
      [|split; [exact Hc|split; [exists x; auto|exact Hu]]].
    apply Create_drawn in E as (Hdr & Hs' & Hc'). cbn [draws_apart] in Hd.
    rewrite Hdr in Hd. apply andb_prop in Hd as [H1 H2].
    apply negb_true_iff, String.eqb_neq in H1, H2.
    split; [rewrite Hc', lookup_insert_ne by exact H2; exact Hc|].
    split; [exists x; rewrite Hs', lookup_insert_ne by exact H1; auto|].
    intros id' y. rewrite Hs'. intros Hy Hcy.
    apply lookup_insert_Some in Hy as [[<- <-]|[_ Hy]]; [contradiction|].
    exact (Hu id' y Hy Hcy).
  - destruct (Join s c now e) as [[[sess s'] rest]|] eqn:E;
      [|split; [exact Hc|split; [exists x; auto|exact Hu]]].
    apply Join_ok_inv in E as (i & old & t & Ho & Hj & -> & Hs' & Hc').
    assert (Hne : i <> id).
    { intros ->. rewrite Hx in Ho. injection Ho as <-. congruence. }
    split; [rewrite Hc'; exact Hc|].
    split; [exists x; rewrite Hs', lookup_insert_ne by exact Hne; auto|].
    intros id' y. rewrite Hs'. intros Hy Hcy.
    apply lookup_insert_Some in Hy as [[<- <-]|[_ Hy]]; [|exact (Hu id' y Hy Hcy)].
    exact (Hu i old Ho Hcy).
  - unfold SetHostConnected. destruct (sessions s !! i) as [old|] eqn:Ho;
      [|split; [exact Hc|split; [exists x; auto|exact Hu]]].
    split; [exact Hc|]. cbn [sessions with_sessions]. split.
    + destruct (decide (i = id)) as [->|Hne].
      * rewrite lookup_insert_eq. rewrite Hx in Ho. injection Ho as <-.
        eexists. split; [reflexivity|]. auto.
      * exists x. rewrite lookup_insert_ne by exact Hne. auto.
    + intros id' y Hy Hcy.
      apply lookup_insert_Some in Hy as [[<- <-]|[_ Hy]]; [|exact (Hu id' y Hy Hcy)].
      exact (Hu i old Ho Hcy).
  - unfold SetJoinConnected. destruct (sessions s !! i) as [old|] eqn:Ho;
      [|split; [exact Hc|split; [exists x; auto|exact Hu]]].
    split; [exact Hc|]. cbn [sessions with_sessions]. split.
    + destruct (decide (i = id)) as [->|Hne].
      * rewrite lookup_insert_eq. rewrite Hx in Ho. injection Ho as <-.
        eexists. split; [reflexivity|]. auto.
      * exists x. rewrite lookup_insert_ne by exact Hne. auto.
    + intros id' y Hy Hcy.
      apply lookup_insert_Some in Hy as [[<- <-]|[_ Hy]]; [|exact (Hu id' y Hy Hcy)].
      exact (Hu i old Ho Hcy).
  - cbn [keeps] in Hk. apply negb_true_iff, String.eqb_neq in Hk.
    unfold Delete. destruct (sessions s !! i) as [old|] eqn:Ho;
      [|split; [exact Hc|split; [exists x; auto|exact Hu]]].
    unfold still_joined. cbn [sessions byCodes].
    assert (Hco : Code old <> code) by (intros E; apply Hk; exact (Hu i old Ho E)).
    split; [rewrite lookup_delete_ne by exact Hco; exact Hc|].
    split; [exists x; rewrite lookup_delete_ne by exact Hk; auto|].
    intros id' y Hy Hcy. apply lookup_delete_Some in Hy as [_ Hy]. exact (Hu id' y Hy Hcy).
  - cbn [keeps] in Hk. apply Z.leb_le in Hk.
    assert (Hlive : expired now x = false) by (apply expired_false; lia).
    split; [|split].
    + unfold cleanup. rewrite store_facts.cleanup_fold_keeps_code; [exact Hc|].
      intros id' y Hin He Hcy. apply elem_of_map_to_list in Hin.
      pose proof (Hu id' y Hin Hcy) as ->. rewrite Hx in Hin. injection Hin as <-.
      congruence.
    + exists x. rewrite store_facts.cleanup_sessions. unfold GetByID. rewrite Hx, Hlive. auto.
    + intros id' y. rewrite store_facts.cleanup_sessions. unfold GetByID.
      destruct (sessions s !! id') as [z|] eqn:Hz; [|discriminate].
      destruct (expired now z); [discriminate|]. intros [= <-]. apply Hu. exact Hz.
Qed.

Lemma run_still_joined ops : forall s,
  forallb (draws_apart u code id) ops = true ->
  forallb (keeps id expires) ops = true ->
  still_joined code id tok expires s -> still_joined code id tok expires (run u s ops).
Proof.
  induction ops as [|o ops IH]; intros s Hd Hk Hj; [exact Hj|].
  cbn [forallb] in Hd, Hk. apply andb_prop in Hd as [Ho Hd]. apply andb_prop in Hk as [Ho' Hk].
  cbn [run fold_left]. apply (IH _ Hd Hk). apply apply_still_joined; assumption.
Qed.

(** Whatever has become of the session, a join on its code fails. *)
Lemma Join_joined s later entropy :
  joined code id tok expires s ->
  Join s code later entropy =
    Err (match GetByCode s code later with
         | Some _ => errHasJoiner
         | None => match byCodes s !! code with
                   | Some _ => errExpired
                   | None => errNotFound
                   end
         end).
Proof.
  intros [Hc Hs]. unfold Join, GetByCode.
  destruct Hc as [Hc|Hc]; rewrite Hc; [reflexivity|].
  destruct Hs as [Hs|(x & Hx & Hxt & _)]; [rewrite Hs; reflexivity|].
  rewrite Hx. destruct (expired later x); [reflexivity|].
  destruct (String.eqb (JoinToken x) "") eqn:E; [|reflexivity].
  apply String.eqb_eq in E. congruence.
Qed.

End Steps.

Lemma hex_of_length_set n v : hex_of_length (S n) v = true -> v <> "".
Proof. intros H ->. discriminate. Qed.

End join_facts.

(** C2, amended: the first join on the code of a live session that has
    no joiner succeeds and mints a joiner token of 64 hex digits.
    Whatever calls the store then receives, short of a [Create] that
    draws the same session id or the same code anew, every later join
    on that code fails: with "session already has a joiner" as long as
    the code still leads to the session and the session has not
    expired, which is so up to the expiry of the session when the
    session is not deleted and no other session bears its code, and
    with "session not found" or "session expired" once the session has
    been deleted, swept or has expired.  The join endpoint answers
    that refusal, like every other refusal of the store, with 404 and
    "Invalid or expired code"; it never answers 409. *)
Theorem C2_join_once_then_404
    (unicode_upper : string -> string)
    (s : session.Store) (code id : string) (sess : session.Session)
    (now : Z) (entropy : string)
    (ops : list store_ops.op) (later : Z) (entropy' : string) :
  session.byCodes s !! code = Some id ->
  session.sessions s !! id = Some sess ->
  now <= session.ExpiresAt sess ->
  session.JoinToken sess = "" ->
  (32 <= String.length entropy)%nat ->
  forallb (store_ops.draws_apart unicode_upper code id) ops = true ->
  exists sess1 s1 rest,
    session.Join s code now entropy = Ok (sess1, s1, rest) /\
    session.sessions s1 !! id = Some sess1 /\
    session.JoinToken sess1 = hex_encode (GoBytes.take 32 entropy) /\
    store_ops.hex_of_length 64 (session.JoinToken sess1) = true /\
    let s2 := store_ops.run unicode_upper s1 ops in
    session.Join s2 code later entropy' =
      Err (match session.GetByCode s2 code later with
           | Some _ => session.errHasJoiner
           | None => match session.byCodes s2 !! code with
                     | Some _ => session.errExpired
                     | None => session.errNotFound
                     end
           end) /\
    ((forall id' x, session.sessions s !! id' = Some x -> session.Code x = code -> id' = id) ->
     forallb (store_ops.keeps id (session.ExpiresAt sess)) ops = true ->
     later <= session.ExpiresAt sess ->
     session.Join s2 code later entropy' = Err session.errHasJoiner) /\
    (forall (srv : server.Server) (r : server.Request) (reqCode : string),
       server.store srv = s2 ->
       server.Method r = "POST" ->
       fst (ratelimit.AllowJoin (server.limiter srv) (server.ClientIP r) later) = true ->
       server.BodyCode r = Some reqCode ->
       server.normalizeCode unicode_upper reqCode = code ->
       fst (server.handleJoin unicode_upper srv r later entropy') =
         server.Error "Invalid or expired code" server.StatusNotFound) /\
    (forall (srv : server.Server) (r : server.Request) (reqCode : string) (t : Z)
            (e : string) (refusal : error),
       server.Method r = "POST" ->
       fst (ratelimit.AllowJoin (server.limiter srv) (server.ClientIP r) t) = true ->
       server.BodyCode r = Some reqCode ->
       session.Join (server.store srv) (server.normalizeCode unicode_upper reqCode) t e =
         Err refusal ->
       fst (server.handleJoin unicode_upper srv r t e) =
         server.Error "Invalid or expired code" server.StatusNotFound) /\
    (forall srv r t e,
       server.StatusCode (fst (server.handleJoin unicode_upper srv r t e)) <>
       server.StatusConflict).
Proof.
  intros Hc Hs Hnow Hjt Hlen Hops.
  destruct (session_facts.Join_first s code id sess now entropy Hc Hs Hnow Hjt Hlen)
    as [Hj _].
  set (joinToken := hex_encode (GoBytes.take 32 entropy)) in *.
  set (sess1 := session.set_JoinToken sess joinToken) in *.
  set (s1 := session.with_sessions s (<[id := sess1]> (session.sessions s))) in *.
  assert (Hs1 : session.sessions s1 !! id = Some sess1) by apply lookup_insert_eq.
  assert (Hhex : store_ops.hex_of_length 64 joinToken = true).
  { unfold session.Join in Hj. rewrite Hc, Hs in Hj.
    destruct (session.expired now sess); [discriminate|].
    destruct (negb _); [discriminate|].
    destruct (session.generateID 32 entropy) as [[tok e]|] eqn:E; [|discriminate].
    pose proof (store_facts.generateID_hex 32 _ _ _ E) as Hh.
    apply (f_equal (fun r => match r with
                             | Ok (x, _, _) => session.JoinToken x
                             | Err _ => ""
                             end)) in Hj.
    cbn [session.JoinToken session.set_JoinToken sess1] in Hj. rewrite <- Hj. exact Hh. }
  assert (Hset : joinToken <> "") by exact (join_facts.hex_of_length_set _ _ Hhex).
  exists sess1, s1, (GoBytes.drop 32 entropy).
  split; [exact Hj|]. split; [exact Hs1|]. split; [reflexivity|]. split; [exact Hhex|].
  cbv zeta.
  assert (Hjoined : store_ops.joined code id joinToken (session.ExpiresAt sess)
                      (store_ops.run unicode_upper s1 ops)).
  { apply join_facts.run_joined; [exact Hset | exact Hops |].
    split; [right; exact Hc|]. right. exists sess1. auto. }
  pose proof (join_facts.Join_joined code id joinToken (session.ExpiresAt sess) Hset
                _ later entropy' Hjoined) as Hlater.
  split; [exact Hlater|]. split; [|split; [|split]].
  - intros Huniq Hkeeps Hlive.
    assert (Hstill : store_ops.still_joined code id joinToken (session.ExpiresAt sess)
                       (store_ops.run unicode_upper s1 ops)).
    { apply join_facts.run_still_joined; [exact Hset | exact Hops | exact Hkeeps |].
      split; [exact Hc|]. split; [exists sess1; auto|].
      intros id' x. cbn [session.sessions session.with_sessions s1]. intros Hx Hcx.
      apply lookup_insert_Some in Hx as [[<- _]|[_ Hx]]; [reflexivity|].
      exact (Huniq id' x Hx Hcx). }
    destruct Hstill as (Hc2 & (x & Hx & Hxt & Hxe) & _).
    apply (session_facts.Join_again _ code id x); [exact Hc2 | exact Hx | lia | congruence].
  - intros srv r reqCode Hst Hm Ha Hb Hn.
    eapply server_facts.handleJoin_refused; try eassumption.
    rewrite Hst, Hn. exact Hlater.
  - intros srv r reqCode t e refusal Hm Ha Hb Hr.
    eapply server_facts.handleJoin_refused; eassumption.
  - intros srv r t e E.
    pose proof (server_facts.handleJoin_status unicode_upper srv r t e) as H.
    rewrite E in H. cbn in H. intuition discriminate.
Qed.

Lemma C2_join_once_then_404_witness :
  exists sess1 s1 rest,
    session.Join (server.store examples.open_server) "AAAA-BBBB-CCCC" examples.t0
      examples.entropy_a = Ok (sess1, s1, rest) /\
    store_ops.hex_of_length 64 (session.JoinToken sess1) = true /\
    session.Join (store_ops.run examples.no_unicode s1 samples.after_join) "AAAA-BBBB-CCCC"
      (examples.t0 + 10 * ratelimit.Minute) examples.entropy_b = Err session.errHasJoiner.
Proof.
  destruct (C2_join_once_then_404 examples.no_unicode (server.store examples.open_server)
              "AAAA-BBBB-CCCC" "30313233" examples.open_session
              examples.t0 examples.entropy_a samples.after_join
              (examples.t0 + 10 * ratelimit.Minute) examples.entropy_b)
    as (sess1 & s1 & rest & H1 & _ & _ & H4 & _ & H6 & _).
  - reflexivity.
  - reflexivity.
  - vm_compute. discriminate.
  - reflexivity.
  - vm_compute. lia.
  - vm_compute. reflexivity.
  - exists sess1, s1, rest. split; [exact H1|]. split; [exact H4|]. apply H6.
    + intros id' x Hx _. cbn [server.store examples.open_server session.sessions] in Hx.
      apply lookup_singleton_Some in Hx as [<- _]. reflexivity.
    + vm_compute. reflexivity.
    + vm_compute. discriminate.
Defined.
